(** * go-gitness: the HTTP client core (gitness.go) and its request helpers

    A shallow embedding of the client of the Gitness Go SDK: [NewClient] and
    its options, the verb helpers ([Get], [Post], [Put], [Patch], [Delete],
    [DeleteWithResponse], [performListRequest]), [checkResponse],
    [buildFullURL], [buildQueryParams], [parsePaginationHeaders] and the
    JSON methods of [Time].

    Go strings are byte sequences; they are modelled by [string] (a list of
    8-bit [ascii]).  Go's [int] is taken to be 64 bits wide.  The parts of the
    Go standard library and of req/v3 that the client calls ([strconv],
    [net/url], [net/http], [encoding/json], [time]) are modelled next to the
    code that uses them.

    [Client] values live in a heap indexed by addresses, so that the
    pointer each service keeps to its client can be compared with the
    pointer [NewClient] returns; the request helpers are computations on
    that heap in which a nil dereference is a panic.  The network is a
    function from the request handed to req to the outcome of the round
    trip. *)

From Stdlib Require Import ZArith Lia List Ascii String Bool.
From stdpp Require Import base option gmap strings list fin_maps.

Open Scope string_scope.
Open Scope Z_scope.

(** ** Bytes and strings *)

Definition byte (c : ascii) : Z := Z.of_N (N_of_ascii c).

Definition chr (b : Z) : ascii := ascii_of_N (Z.to_N b).

Definition between (lo hi : ascii) (c : ascii) : bool :=
  (byte lo <=? byte c) && (byte c <=? byte hi).

Definition is_digit (c : ascii) : bool := between "0" "9" c.
Definition is_lower (c : ascii) : bool := between "a" "z" c.
Definition is_upper (c : ascii) : bool := between "A" "Z" c.
Definition is_alnum (c : ascii) : bool := is_lower c || is_upper c || is_digit c.

Definition str1 (c : ascii) : string := String c "".

Fixpoint string_forall (p : ascii -> bool) (s : string) : bool :=
  match s with
  | "" => true
  | String c s' => p c && string_forall p s'
  end.

Fixpoint string_exists (p : ascii -> bool) (s : string) : bool :=
  match s with
  | "" => false
  | String c s' => p c || string_exists p s'
  end.

(** [strings.Contains s (string c)]. *)
Definition contains_char (c : ascii) (s : string) : bool :=
  string_exists (Ascii.eqb c) s.

(** [strings.HasPrefix]. *)
Fixpoint has_prefix (p s : string) : bool :=
  match p with
  | "" => true
  | String a p' =>
      match s with
      | "" => false
      | String b s' => Ascii.eqb a b && has_prefix p' s'
      end
  end.

(** [strings.Cut s (string sep)]: the text before and after the first
    [sep], and whether [sep] was found. *)
Fixpoint cut (sep : ascii) (s : string) : string * string * bool :=
  match s with
  | "" => ("", "", false)
  | String c s' =>
      if Ascii.eqb c sep then ("", s', true)
      else let '(b, a, f) := cut sep s' in (String c b, a, f)
  end.

(** The segments of [s] between the occurrences of [sep]; what repeated
    [strings.Cut] enumerates. *)
Fixpoint split (sep : ascii) (s : string) : list string :=
  match s with
  | "" => [""]
  | String c s' =>
      if Ascii.eqb c sep then "" :: split sep s'
      else match split sep s' with
           | seg :: segs => String c seg :: segs
           | [] => [str1 c]
           end
  end.

Fixpoint join (sep : ascii) (l : list string) : string :=
  match l with
  | [] => ""
  | [s] => s
  | s :: l' => s +:+ String sep (join sep l')
  end.

(** ** strconv and fmt: decimal integers *)

Definition maxInt : Z := 2 ^ 63 - 1.
Definition minInt : Z := - 2 ^ 63.

Definition digit_val (c : ascii) : option Z :=
  if is_digit c then Some (byte c - 48) else None.

Definition digit_chr (d : Z) : ascii := chr (48 + d).

(** The digit loop of [strconv.ParseUint] in base 10, on unbounded
    integers; the range check is made by the caller. *)
Fixpoint parse_digits (acc : Z) (s : string) : option Z :=
  match s with
  | "" => Some acc
  | String c s' =>
      match digit_val c with
      | Some d => parse_digits (acc * 10 + d) s'
      | None => None
      end
  end.

(** [strconv.Atoi]: an optional sign, then one or more decimal digits, the
    value within the range of [int]; [None] stands for a non-nil error. *)
Definition Atoi (s : string) : option Z :=
  match s with
  | "" => None
  | String c rest =>
      let neg := Ascii.eqb c "-" in
      let digits := if neg || Ascii.eqb c "+" then rest else s in
      match digits with
      | "" => None
      | _ =>
          match parse_digits 0 digits with
          | Some n =>
              let v := if neg then - n else n in
              if (minInt <=? v) && (v <=? maxInt) then Some v else None
          | None => None
          end
      end
  end.

Fixpoint format_uint_aux (fuel : nat) (n : Z) (acc : string) : string :=
  match fuel with
  | O => acc
  | S fuel' =>
      let acc' := String (digit_chr (n mod 10)) acc in
      if n / 10 =? 0 then acc' else format_uint_aux fuel' (n / 10) acc'
  end.

Definition format_uint (n : Z) : string :=
  format_uint_aux (S (Z.to_nat (Z.log2 n))) n "".

(** [fmt.Sprintf("%d", n)], that is [strconv.FormatInt(n, 10)]. *)
Definition format_int (n : Z) : string :=
  if n <? 0 then String "-" (format_uint (- n)) else format_uint n.


(** ** net/url *)

Inductive encoding :=
  | encodePath | encodePathSegment | encodeHost | encodeZone
  | encodeUserPassword | encodeQueryComponent | encodeFragment.

Definition encoding_eqb (a b : encoding) : bool :=
  match a, b with
  | encodePath, encodePath | encodePathSegment, encodePathSegment
  | encodeHost, encodeHost | encodeZone, encodeZone
  | encodeUserPassword, encodeUserPassword
  | encodeQueryComponent, encodeQueryComponent
  | encodeFragment, encodeFragment => true
  | _, _ => false
  end.

Definition char_in (c : ascii) (set : string) : bool := contains_char c set.

Definition ishex (c : ascii) : bool :=
  is_digit c || between "a" "f" c || between "A" "F" c.

Definition unhex (c : ascii) : Z :=
  if is_digit c then byte c - 48
  else if between "a" "f" c then byte c - 97 + 10
  else if between "A" "F" c then byte c - 65 + 10
  else 0.

Definition upperhex (d : Z) : ascii :=
  if d <? 10 then chr (48 + d) else chr (55 + d).

(** [shouldEscape]: whether byte [c] is written as %XX in the part of a URL
    that [mode] names. *)
Definition shouldEscape (c : ascii) (mode : encoding) : bool :=
  if is_alnum c then false
  else if (encoding_eqb mode encodeHost || encoding_eqb mode encodeZone)
          && (char_in c "!$&'()*+,;=:[]<>" || Ascii.eqb c (chr 34)) then false
  else if char_in c "-_.~" then false
  else if char_in c "$&+,/:;=?@" then
    match mode with
    | encodePath => Ascii.eqb c "?"
    | encodePathSegment => char_in c "/;,?"
    | encodeUserPassword => char_in c "@/?:"
    | encodeQueryComponent => true
    | encodeFragment => false
    | encodeHost | encodeZone => true
    end
  else if encoding_eqb mode encodeFragment && char_in c "!()*" then false
  else true.

Definition escape_byte (mode : encoding) (c : ascii) : string :=
  if Ascii.eqb c " " && encoding_eqb mode encodeQueryComponent then "+"
  else if shouldEscape c mode then
    String "%" (String (upperhex (byte c / 16))
                  (String (upperhex (byte c mod 16)) ""))
  else str1 c.

Fixpoint escape (s : string) (mode : encoding) : string :=
  match s with
  | "" => ""
  | String c s' => escape_byte mode c +:+ escape s' mode
  end.

(** [url.PathEscape]. *)
Definition PathEscape (s : string) : string := escape s encodePathSegment.

(** First pass of [unescape]: every % is followed by two hex digits, and the
    host rules hold in the host modes. *)
Fixpoint unescape_ok (s : string) (mode : encoding) : bool :=
  match s with
  | "" => true
  | String c rest =>
      if Ascii.eqb c "%" then
        match rest with
        | String h1 (String h2 rest') =>
            let v := chr (unhex h1 * 16 + unhex h2) in
            let is25 := Ascii.eqb h1 "2" && Ascii.eqb h2 "5" in
            ishex h1 && ishex h2
            && negb (encoding_eqb mode encodeHost && (unhex h1 <? 8) && negb is25)
            && negb (encoding_eqb mode encodeZone && negb is25
                     && negb (Ascii.eqb v " ") && shouldEscape v encodeHost)
            && unescape_ok rest' mode
        | _ => false
        end
      else
        negb ((encoding_eqb mode encodeHost || encoding_eqb mode encodeZone)
              && (byte c <? 128) && shouldEscape c encodeHost)
        && unescape_ok rest mode
  end.

(** Second pass of [unescape], on a string the first pass accepted. *)
Fixpoint unescape_bytes (s : string) (mode : encoding) : string :=
  match s with
  | "" => ""
  | String c rest =>
      if Ascii.eqb c "%" then
        match rest with
        | String h1 (String h2 rest') =>
            String (chr (unhex h1 * 16 + unhex h2)) (unescape_bytes rest' mode)
        | _ => String c (unescape_bytes rest mode)
        end
      else if Ascii.eqb c "+" && encoding_eqb mode encodeQueryComponent then
        String " " (unescape_bytes rest mode)
      else String c (unescape_bytes rest mode)
  end.

(** [unescape]; [None] stands for the [EscapeError] or [InvalidHostError]. *)
Definition unescape (s : string) (mode : encoding) : option string :=
  if unescape_ok s mode then Some (unescape_bytes s mode) else None.

Definition validEncoded (s : string) (mode : encoding) : bool :=
  string_forall
    (fun c => char_in c "!$&'()*+,;=:@[]%" || negb (shouldEscape c mode)) s.

Record Userinfo := {
  username : string;
  password : string;
  passwordSet : bool }.

Record URL := {
  Scheme : string;
  Opaque : string;
  User : option Userinfo;
  Host : string;
  Path : string;
  RawPath : string;
  OmitHost : bool;
  ForceQuery : bool;
  RawQuery : string;
  Fragment : string;
  RawFragment : string }.

(** The zero value [url.URL{}]. *)
Definition URL_zero : URL :=
  {| Scheme := ""; Opaque := ""; User := None; Host := ""; Path := "";
     RawPath := ""; OmitHost := false; ForceQuery := false; RawQuery := "";
     Fragment := ""; RawFragment := "" |}.

Definition string_nonempty (s : string) : bool :=
  match s with "" => false | _ => true end.

Definition has_user (u : URL) : bool :=
  match User u with Some _ => true | None => false end.

Definition EscapedPath (u : URL) : string :=
  let raw_ok :=
    string_nonempty (RawPath u) && validEncoded (RawPath u) encodePath
    && match unescape (RawPath u) encodePath with
       | Some p => String.eqb p (Path u)
       | None => false
       end in
  if raw_ok then RawPath u
  else if String.eqb (Path u) "*" then "*"
  else escape (Path u) encodePath.

Definition EscapedFragment (u : URL) : string :=
  let raw_ok :=
    string_nonempty (RawFragment u) && validEncoded (RawFragment u) encodeFragment
    && match unescape (RawFragment u) encodeFragment with
       | Some f => String.eqb f (Fragment u)
       | None => false
       end in
  if raw_ok then RawFragment u else escape (Fragment u) encodeFragment.

(** [u.setPath(p)]: sets [Path] and, when the default escaping of [Path]
    differs from [p], [RawPath]. *)
Definition setPath (u : URL) (p : string) : option URL :=
  path ← unescape p encodePath;
  Some {| Scheme := Scheme u; Opaque := Opaque u; User := User u;
          Host := Host u; Path := path;
          RawPath := if String.eqb p (escape path encodePath) then "" else p;
          OmitHost := OmitHost u; ForceQuery := ForceQuery u;
          RawQuery := RawQuery u; Fragment := Fragment u;
          RawFragment := RawFragment u |}.

Definition setFragment (u : URL) (f : string) : option URL :=
  frag ← unescape f encodeFragment;
  Some {| Scheme := Scheme u; Opaque := Opaque u; User := User u;
          Host := Host u; Path := Path u; RawPath := RawPath u;
          OmitHost := OmitHost u; ForceQuery := ForceQuery u;
          RawQuery := RawQuery u; Fragment := frag;
          RawFragment :=
            if String.eqb f (escape frag encodeFragment) then "" else f |}.

(** [s[:strings.LastIndex(s, sep)+1]]: [s] up to and including its last
    [sep], empty when there is none. *)
Fixpoint upto_last (sep : ascii) (s : string) : string :=
  match s with
  | "" => ""
  | String c s' =>
      if contains_char sep s' then String c (upto_last sep s')
      else if Ascii.eqb c sep then str1 c
      else ""
  end.

(** [s[:strings.LastIndexByte(s, sep)]], [None] when the index is -1. *)
Fixpoint before_last (sep : ascii) (s : string) : option string :=
  match s with
  | "" => None
  | String c s' =>
      match before_last sep s' with
      | Some b => Some (String c b)
      | None => if Ascii.eqb c sep then Some "" else None
      end
  end.

Definition drop1 (s : string) : string :=
  match s with "" => "" | String _ s' => s' end.

Definition is_dot (elem : string) : bool := String.eqb elem ".".
Definition is_dotdot (elem : string) : bool := String.eqb elem "..".

(** One turn of the loop of [resolvePath]; the state is the builder [dst],
    the flag [first] and the element read last. *)
Definition resolve_step (st : string * bool * string) (elem : string)
  : string * bool * string :=
  let '(dst, first, _) := st in
  if is_dot elem then (dst, false, elem)
  else if is_dotdot elem then
    match before_last "/" (drop1 dst) with
    | None => ("/", true, elem)
    | Some pre => (String "/" pre, first, elem)
    end
  else ((if first then dst else dst +:+ "/") +:+ elem, false, elem).

(** [resolvePath(base, ref)], RFC 3986 sections 5.2.2 and 5.2.4. *)
Definition resolvePath (base ref : string) : string :=
  let full :=
    match ref with
    | "" => base
    | String c _ => if Ascii.eqb c "/" then ref else upto_last "/" base +:+ ref
    end in
  match full with
  | "" => ""
  | _ =>
      let '(dst, _, elem) := fold_left resolve_step (split "/" full) ("/", true, "") in
      let r := if is_dot elem || is_dotdot elem then dst +:+ "/" else dst in
      match r with
      | String _ (String c _) => if Ascii.eqb c "/" then drop1 r else r
      | _ => r
      end
  end.

Definition with_path_of (u : URL) (p : string) : URL :=
  match setPath u p with Some u' => u' | None => u end.

(** [u.ResolveReference(ref)]. The error of [setPath] is ignored, as in Go. *)
Definition ResolveReference (u ref : URL) : URL :=
  let url :=
    {| Scheme := if string_nonempty (Scheme ref) then Scheme ref else Scheme u;
       Opaque := Opaque ref; User := User ref; Host := Host ref;
       Path := Path ref; RawPath := RawPath ref; OmitHost := OmitHost ref;
       ForceQuery := ForceQuery ref; RawQuery := RawQuery ref;
       Fragment := Fragment ref; RawFragment := RawFragment ref |} in
  if string_nonempty (Scheme ref) || string_nonempty (Host ref)
     || has_user ref then
    with_path_of url (resolvePath (EscapedPath ref) "")
  else if string_nonempty (Opaque ref) then
    {| Scheme := Scheme url; Opaque := Opaque url; User := None; Host := "";
       Path := ""; RawPath := RawPath url; OmitHost := OmitHost url;
       ForceQuery := ForceQuery url; RawQuery := RawQuery url;
       Fragment := Fragment url; RawFragment := RawFragment url |}
  else
    let inherit := negb (string_nonempty (Path ref)) && negb (ForceQuery ref)
                   && negb (string_nonempty (RawQuery ref)) in
    let keep_frag := inherit && negb (string_nonempty (Fragment ref)) in
    let rawQuery := if inherit then RawQuery u else RawQuery url in
    let fragment := if keep_frag then Fragment u else Fragment url in
    let rawFragment := if keep_frag then RawFragment u else RawFragment url in
    if negb (string_nonempty (Path ref)) && string_nonempty (Opaque u) then
      {| Scheme := Scheme url; Opaque := Opaque u; User := None; Host := "";
         Path := ""; RawPath := RawPath url; OmitHost := OmitHost url;
         ForceQuery := ForceQuery url; RawQuery := rawQuery;
         Fragment := fragment; RawFragment := rawFragment |}
    else
      with_path_of
        {| Scheme := Scheme url; Opaque := Opaque url; User := User u;
           Host := Host u; Path := Path url; RawPath := RawPath url;
           OmitHost := OmitHost url; ForceQuery := ForceQuery url;
           RawQuery := rawQuery; Fragment := fragment;
           RawFragment := rawFragment |}
        (resolvePath (EscapedPath u) (EscapedPath ref)).

Definition Userinfo_String (ui : Userinfo) : string :=
  escape (username ui) encodeUserPassword
  +:+ (if passwordSet ui then String ":" (escape (password ui) encodeUserPassword)
       else "").

(** [u.String()]. *)
Definition URL_String (u : URL) : string :=
  let scheme := if string_nonempty (Scheme u) then Scheme u +:+ ":" else "" in
  let body :=
    if string_nonempty (Opaque u) then scheme +:+ Opaque u
    else
      let has_user := has_user u in
      let authority :=
        if string_nonempty (Scheme u) || string_nonempty (Host u) || has_user then
          if OmitHost u && negb (string_nonempty (Host u)) && negb has_user then ""
          else
            (if string_nonempty (Host u) || string_nonempty (Path u) || has_user
             then "//" else "")
            +:+ match User u with
                | Some ui => Userinfo_String ui +:+ "@"
                | None => ""
                end
            +:+ (if string_nonempty (Host u) then escape (Host u) encodeHost else "")
        else "" in
      let buf := scheme +:+ authority in
      let path := EscapedPath u in
      let buf :=
        if string_nonempty path && negb (has_prefix "/" path)
           && string_nonempty (Host u)
        then buf +:+ "/" else buf in
      let buf :=
        if negb (string_nonempty buf) && contains_char ":" (fst (fst (cut "/" path)))
        then buf +:+ "./" else buf in
      buf +:+ path in
  body
  +:+ (if ForceQuery u || string_nonempty (RawQuery u)
       then String "?" (RawQuery u) else "")
  +:+ (if string_nonempty (Fragment u)
       then String "#" (EscapedFragment u) else "").

Inductive scheme_scan :=
  | SchemeAt (scheme rest : string)
  | NoScheme
  | MissingScheme.

(** The scan of [getScheme]; [at0] tells whether the index is 0. *)
Fixpoint scan_scheme (at0 : bool) (s : string) : scheme_scan :=
  match s with
  | "" => NoScheme
  | String c s' =>
      let continue :=
        match scan_scheme false s' with
        | SchemeAt sch r => SchemeAt (String c sch) r
        | other => other
        end in
      if is_lower c || is_upper c then continue
      else if is_digit c || char_in c "+-." then
        if at0 then NoScheme else continue
      else if Ascii.eqb c ":" then
        if at0 then MissingScheme else SchemeAt "" s'
      else NoScheme
  end.

Definition getScheme (rawURL : string) : option (string * string) :=
  match scan_scheme true rawURL with
  | SchemeAt sch r => Some (sch, r)
  | NoScheme => Some ("", rawURL)
  | MissingScheme => None
  end.

Definition to_lower_byte (c : ascii) : ascii :=
  if is_upper c then chr (byte c + 32) else c.

Definition to_upper_byte (c : ascii) : ascii :=
  if is_lower c then chr (byte c - 32) else c.

Fixpoint string_map (f : ascii -> ascii) (s : string) : string :=
  match s with
  | "" => ""
  | String c s' => String (f c) (string_map f s')
  end.

Definition ToLower (s : string) : string := string_map to_lower_byte s.

Definition stringContainsCTLByte (s : string) : bool :=
  string_exists (fun c => (byte c <? 32) || (byte c =? 127)) s.

Fixpoint count_char (c : ascii) (s : string) : Z :=
  match s with
  | "" => 0
  | String d s' => (if Ascii.eqb c d then 1 else 0) + count_char c s'
  end.

Fixpoint last_char (s : string) : option ascii :=
  match s with
  | "" => None
  | String c "" => Some c
  | String _ s' => last_char s'
  end.

Fixpoint drop_last (s : string) : string :=
  match s with
  | "" => ""
  | String _ "" => ""
  | String c s' => String c (drop_last s')
  end.

(** [s[strings.LastIndex(s, sep):]], [None] when the index is -1. *)
Fixpoint from_last (sep : ascii) (s : string) : option string :=
  match s with
  | "" => None
  | String c s' =>
      match from_last sep s' with
      | Some t => Some t
      | None => if Ascii.eqb c sep then Some s else None
      end
  end.

Definition validOptionalPort (port : string) : bool :=
  match port with
  | "" => true
  | String c digits => Ascii.eqb c ":" && string_forall is_digit digits
  end.

Definition validUserinfo (s : string) : bool :=
  string_forall (fun c => is_alnum c || char_in c "-._:~!$&'()*+,;=%@") s.

(** [strings.Index(s, sub)] as a split: the text before the first
    occurrence of [sub] and the text from it on; [None] when the index
    is -1. *)
Fixpoint split_at (sub s : string) : option (string * string) :=
  if has_prefix sub s then Some ("", s)
  else
    match s with
    | "" => None
    | String c s' =>
        match split_at sub s' with
        | Some (a, b) => Some (String c a, b)
        | None => None
        end
    end.

(** [parseHost]: a registered name or an IPv4 address with an optional
    port, or a bracketed IP literal with an optional zone and port.  The
    text between the brackets is unescaped and otherwise taken as it is. *)
Definition parseHost (host : string) : option string :=
  if has_prefix "[" host then
    match before_last "]" host, from_last "]" host with
    | Some upto, Some from =>
        let colonPort := drop1 from in
        if negb (validOptionalPort colonPort) then None
        else
          match split_at "%25" upto with
          | Some (before_zone, zone) =>
              host1 ← unescape before_zone encodeHost;
              host2 ← unescape zone encodeZone;
              host3 ← unescape from encodeHost;
              Some (host1 +:+ host2 +:+ host3)
          | None => unescape host encodeHost
          end
    | _, _ => None
    end
  else
    match from_last ":" host with
    | Some colonPort =>
        if validOptionalPort colonPort then unescape host encodeHost else None
    | None => unescape host encodeHost
    end.

Definition parseAuthority (authority : string) : option (option Userinfo * string) :=
  match before_last "@" authority with
  | None => host ← parseHost authority; Some (None, host)
  | Some userinfo =>
      host ← parseHost (drop1 (default "" (from_last "@" authority)));
      if negb (validUserinfo userinfo) then None
      else if negb (contains_char ":" userinfo) then
        name ← unescape userinfo encodeUserPassword;
        Some (Some {| username := name; password := ""; passwordSet := false |},
              host)
      else
        let '(name, pass, _) := cut ":" userinfo in
        name ← unescape name encodeUserPassword;
        pass ← unescape pass encodeUserPassword;
        Some (Some {| username := name; password := pass; passwordSet := true |},
              host)
  end.

(** [parse(rawURL, false)]: a URL without its fragment. *)
Definition parse (rawURL : string) : option URL :=
  if stringContainsCTLByte rawURL then None
  else if String.eqb rawURL "*" then
    Some {| Scheme := ""; Opaque := ""; User := None; Host := ""; Path := "*";
            RawPath := ""; OmitHost := false; ForceQuery := false;
            RawQuery := ""; Fragment := ""; RawFragment := "" |}
  else
    '(scheme, rest) ← getScheme rawURL;
    let scheme := ToLower scheme in
    let '(rest, rawQuery, forceQuery) :=
      if bool_decide (last_char rest = Some "?"%char) && (count_char "?" rest =? 1)
      then (drop_last rest, "", true)
      else let '(r, q, _) := cut "?" rest in (r, q, false) in
    let url :=
      {| Scheme := scheme; Opaque := ""; User := None; Host := ""; Path := "";
         RawPath := ""; OmitHost := false; ForceQuery := forceQuery;
         RawQuery := rawQuery; Fragment := ""; RawFragment := "" |} in
    let rooted := has_prefix "/" rest in
    if negb rooted && string_nonempty scheme then
      Some {| Scheme := scheme; Opaque := rest; User := None; Host := "";
              Path := ""; RawPath := ""; OmitHost := false;
              ForceQuery := forceQuery; RawQuery := rawQuery; Fragment := "";
              RawFragment := "" |}
    else if negb rooted && contains_char ":" (fst (fst (cut "/" rest))) then None
    else if (string_nonempty scheme || negb (has_prefix "///" rest))
            && has_prefix "//" rest then
      let authority0 := drop1 (drop1 rest) in
      let '(authority, after, found) := cut "/" authority0 in
      let rest' := if found then String "/" after else "" in
      '(user, host) ← parseAuthority authority;
      setPath {| Scheme := scheme; Opaque := ""; User := user; Host := host;
                 Path := ""; RawPath := ""; OmitHost := false;
                 ForceQuery := forceQuery; RawQuery := rawQuery;
                 Fragment := ""; RawFragment := "" |} rest'
    else
      setPath {| Scheme := scheme; Opaque := ""; User := None; Host := "";
                 Path := ""; RawPath := "";
                 OmitHost := string_nonempty scheme && rooted;
                 ForceQuery := forceQuery; RawQuery := rawQuery;
                 Fragment := ""; RawFragment := "" |} rest.

(** [url.Parse]; [None] stands for a non-nil error. *)
Definition url_Parse (rawURL : string) : option URL :=
  let '(u, frag, _) := cut "#" rawURL in
  url ← parse u;
  if string_nonempty frag then setFragment url frag else Some url.

(** ** net/http and net/textproto *)

Definition validHeaderFieldByte (c : ascii) : bool :=
  is_alnum c || char_in c "!#$%&'*+-.^_`|~".

Fixpoint canonical_case (upper : bool) (s : string) : string :=
  match s with
  | "" => ""
  | String c s' =>
      let c' := if upper then to_upper_byte c else to_lower_byte c in
      String c' (canonical_case (Ascii.eqb c' "-") s')
  end.

(** [textproto.CanonicalMIMEHeaderKey]: a key made of token bytes gets an
    upper-case letter first and after each dash and lower-case letters
    elsewhere; any other key is returned unchanged. *)
Definition CanonicalMIMEHeaderKey (s : string) : string :=
  if string_forall validHeaderFieldByte s then canonical_case true s else s.

(** [http.Header] is [map[string][]string]. *)
Definition Header_Get (h : gmap string (list string)) (key : string) : string :=
  match h !! CanonicalMIMEHeaderKey key with
  | Some (v :: _) => v
  | _ => ""
  end.

Definition Header_Set (key value : string) (h : gmap string (list string))
  : gmap string (list string) :=
  <[CanonicalMIMEHeaderKey key := [value]]> h.

(** [http.StatusText]: the reason phrases of the IANA registry, the empty
    string for an unknown code. *)
Definition StatusText (code : Z) : string :=
  match code with
  | 100 => "Continue"
  | 101 => "Switching Protocols"
  | 102 => "Processing"
  | 103 => "Early Hints"
  | 200 => "OK"
  | 201 => "Created"
  | 202 => "Accepted"
  | 203 => "Non-Authoritative Information"
  | 204 => "No Content"
  | 205 => "Reset Content"
  | 206 => "Partial Content"
  | 207 => "Multi-Status"
  | 208 => "Already Reported"
  | 226 => "IM Used"
  | 300 => "Multiple Choices"
  | 301 => "Moved Permanently"
  | 302 => "Found"
  | 303 => "See Other"
  | 304 => "Not Modified"
  | 305 => "Use Proxy"
  | 307 => "Temporary Redirect"
  | 308 => "Permanent Redirect"
  | 400 => "Bad Request"
  | 401 => "Unauthorized"
  | 402 => "Payment Required"
  | 403 => "Forbidden"
  | 404 => "Not Found"
  | 405 => "Method Not Allowed"
  | 406 => "Not Acceptable"
  | 407 => "Proxy Authentication Required"
  | 408 => "Request Timeout"
  | 409 => "Conflict"
  | 410 => "Gone"
  | 411 => "Length Required"
  | 412 => "Precondition Failed"
  | 413 => "Request Entity Too Large"
  | 414 => "Request URI Too Long"
  | 415 => "Unsupported Media Type"
  | 416 => "Requested Range Not Satisfiable"
  | 417 => "Expectation Failed"
  | 418 => "I'm a teapot"
  | 421 => "Misdirected Request"
  | 422 => "Unprocessable Entity"
  | 423 => "Locked"
  | 424 => "Failed Dependency"
  | 425 => "Too Early"
  | 426 => "Upgrade Required"
  | 428 => "Precondition Required"
  | 429 => "Too Many Requests"
  | 431 => "Request Header Fields Too Large"
  | 451 => "Unavailable For Legal Reasons"
  | 500 => "Internal Server Error"
  | 501 => "Not Implemented"
  | 502 => "Bad Gateway"
  | 503 => "Service Unavailable"
  | 504 => "Gateway Timeout"
  | 505 => "HTTP Version Not Supported"
  | 506 => "Variant Also Negotiates"
  | 507 => "Insufficient Storage"
  | 508 => "Loop Detected"
  | 510 => "Not Extended"
  | 511 => "Network Authentication Required"
  | _ => ""
  end.

(** ** encoding/json: decoding into [map[string]any] *)

(** What [json.Unmarshal] stores in an [any]: [nil], [bool], [float64] (kept
    here as the literal), [string], [[]any] and [map[string]any]. *)
#[local] Unset Elimination Schemes.
Inductive JSON :=
  | JNull
  | JBool (b : bool)
  | JNumber (literal : string)
  | JString (s : string)
  | JArray (items : list JSON)
  | JObject (fields : gmap string JSON).
#[local] Set Elimination Schemes.

Definition dquote : ascii := chr 34.
Definition backslash : ascii := chr 92.

Definition is_json_space (c : ascii) : bool :=
  (byte c =? 32) || (byte c =? 9) || (byte c =? 13) || (byte c =? 10).

Fixpoint skip_ws (s : string) : string :=
  match s with
  | "" => ""
  | String c s' => if is_json_space c then skip_ws s' else s
  end.

(** A maximal run of decimal digits and what follows it. *)
Fixpoint span_digits (s : string) : string * string :=
  match s with
  | "" => ("", "")
  | String c s' =>
      if is_digit c then let '(d, r) := span_digits s' in (String c d, r)
      else ("", s)
  end.

(** The number grammar of RFC 8259: the literal and the rest of the input. *)
Definition scan_number (s : string) : option (string * string) :=
  let '(sign, s1) :=
    match s with
    | String c r => if Ascii.eqb c "-" then ("-", r) else ("", s)
    | "" => ("", s)
    end in
  let '(int, s2) := span_digits s1 in
  let int_ok :=
    match int with
    | "" => false
    | String c r => negb (Ascii.eqb c "0") || negb (string_nonempty r)
    end in
  if negb int_ok then None
  else
    frac ←
      match s2 with
      | String c r =>
          if Ascii.eqb c "." then
            let '(d, r') := span_digits r in
            if string_nonempty d then Some (String "." d, r') else None
          else Some ("", s2)
      | "" => Some ("", s2)
      end;
    let '(fr, s3) := frac in
    expo ←
      match s3 with
      | String c r =>
          if Ascii.eqb c "e" || Ascii.eqb c "E" then
            let '(sg, r1) :=
              match r with
              | String c1 r1 =>
                  if Ascii.eqb c1 "+" || Ascii.eqb c1 "-" then (str1 c1, r1)
                  else ("", r)
              | "" => ("", r)
              end in
            let '(d, r') := span_digits r1 in
            if string_nonempty d then Some (String c (sg +:+ d), r') else None
          else Some ("", s3)
      | "" => Some ("", s3)
      end;
    let '(ex, s4) := expo in
    Some (sign +:+ int +:+ fr +:+ ex, s4).

(** The value of a run of decimal digits after the digits read so far. *)
Fixpoint digits_value (acc : Z) (s : string) : Z :=
  match s with
  | "" => acc
  | String c s' => digits_value (acc * 10 + (byte c - 48)) s'
  end.

(** The least magnitude that rounds to infinity in [float64]: halfway
    between the largest finite value and 2^1024. *)
Definition float64_overflow_threshold : Z := 2 ^ 1024 - 2 ^ 970.

(** Whether [strconv.ParseFloat(lit, 64)] returns a range error for the
    number literal [lit]: the magnitude [m * 10^e10] of the literal is at
    least the threshold.  The powers of ten are computed only where the
    comparison is not settled by the number of digits. *)
Definition float64_out_of_range (lit : string) : bool :=
  let s1 :=
    match lit with
    | String c r => if Ascii.eqb c "-" then r else lit
    | "" => lit
    end in
  let '(int, s2) := span_digits s1 in
  let '(frac, s3) :=
    match s2 with
    | String c r => if Ascii.eqb c "." then span_digits r else ("", s2)
    | "" => ("", s2)
    end in
  let exp :=
    match s3 with
    | String _ r =>
        match r with
        | String c1 r1 =>
            if Ascii.eqb c1 "-" then - digits_value 0 r1
            else if Ascii.eqb c1 "+" then digits_value 0 r1
            else digits_value 0 r
        | "" => 0
        end
    | "" => 0
    end in
  let m := digits_value 0 (int +:+ frac) in
  let e10 := exp - Z.of_nat (String.length frac) in
  let nd := Z.of_nat (String.length (int +:+ frac)) in
  if m =? 0 then false
  else if nd + e10 <=? 308 then false
  else if 309 <=? e10 then true
  else if 0 <=? e10 then float64_overflow_threshold <=? m * 10 ^ e10
  else float64_overflow_threshold * 10 ^ (- e10) <=? m.

(** [maxNestingDepth] of the scanner. *)
Definition maxNestingDepth : Z := 10000.

(** Four hex digits of a \u escape. *)
Definition scan_hex4 (s : string) : option (Z * string) :=
  match s with
  | String a (String b (String c (String d r)) ) =>
      if ishex a && ishex b && ishex c && ishex d
      then Some (((unhex a * 16 + unhex b) * 16 + unhex c) * 16 + unhex d, r)
      else None
  | _ => None
  end.

(** [utf8.AppendRune] on a scalar value below 0x110000. *)
Definition utf8_encode (r : Z) : string :=
  if r <? 128 then str1 (chr r)
  else if r <? 2048 then
    String (chr (192 + r / 64)) (str1 (chr (128 + r mod 64)))
  else if r <? 65536 then
    String (chr (224 + r / 4096))
      (String (chr (128 + (r / 64) mod 64)) (str1 (chr (128 + r mod 64))))
  else
    String (chr (240 + r / 262144))
      (String (chr (128 + (r / 4096) mod 64))
         (String (chr (128 + (r / 64) mod 64)) (str1 (chr (128 + r mod 64))))).

Definition is_surrogate (r : Z) : bool := (55296 <=? r) && (r <? 57344).

Definition replacement_char : Z := 65533.

(** A continuation byte of UTF-8. *)
Definition is_cont (c : ascii) : bool := (128 <=? byte c) && (byte c <=? 191).

(** [utf8.DecodeRune] at the head of [s]: the bytes of the well-formed
    encoding found there and the rest of [s]; [None] where Go returns
    [RuneError] with size 1 (a byte that starts no encoding, a missing or
    wrong continuation byte, an overlong form, a surrogate, a value above
    U+10FFFF). *)
Definition utf8_decode (s : string) : option (string * string) :=
  match s with
  | "" => None
  | String c0 r0 =>
      let b0 := byte c0 in
      if b0 <? 128 then Some (str1 c0, r0)
      else if (194 <=? b0) && (b0 <=? 223) then
        match r0 with
        | String c1 r1 =>
            if is_cont c1 then Some (String c0 (str1 c1), r1) else None
        | "" => None
        end
      else if (224 <=? b0) && (b0 <=? 239) then
        match r0 with
        | String c1 (String c2 r2) =>
            let lo := if b0 =? 224 then 160 else 128 in
            let hi := if b0 =? 237 then 159 else 191 in
            if (lo <=? byte c1) && (byte c1 <=? hi) && is_cont c2
            then Some (String c0 (String c1 (str1 c2)), r2)
            else None
        | _ => None
        end
      else if (240 <=? b0) && (b0 <=? 244) then
        match r0 with
        | String c1 (String c2 (String c3 r3)) =>
            let lo := if b0 =? 240 then 144 else 128 in
            let hi := if b0 =? 244 then 143 else 191 in
            if (lo <=? byte c1) && (byte c1 <=? hi) && is_cont c2 && is_cont c3
            then Some (String c0 (String c1 (String c2 (str1 c3))), r3)
            else None
        | _ => None
        end
      else None
  end.

(** The text of a string literal after its opening quote, unquoted, and
    the input after the closing quote.  Well-formed UTF-8 is copied; every
    byte that [utf8.DecodeRune] cannot decode becomes U+FFFD. *)
Fixpoint scan_string (fuel : nat) (s : string) : option (string * string) :=
  match fuel, s with
  | O, _ | _, "" => None
  | S fuel', String c r =>
      if Ascii.eqb c dquote then Some ("", r)
      else if byte c <? 32 then None
      else if Ascii.eqb c backslash then
        match r with
        | "" => None
        | String e r1 =>
            let simple (b : Z) :=
              '(t, rest) ← scan_string fuel' r1; Some (String (chr b) t, rest) in
            if Ascii.eqb e dquote then simple 34
            else if Ascii.eqb e backslash then simple 92
            else if Ascii.eqb e "/" then simple 47
            else if Ascii.eqb e "b" then simple 8
            else if Ascii.eqb e "f" then simple 12
            else if Ascii.eqb e "n" then simple 10
            else if Ascii.eqb e "r" then simple 13
            else if Ascii.eqb e "t" then simple 9
            else if Ascii.eqb e "u" then
              '(r0, r2) ← scan_hex4 r1;
              let paired :=
                if is_surrogate r0 then
                  match r2 with
                  | String b1 (String u1 r3) =>
                      if Ascii.eqb b1 backslash && Ascii.eqb u1 "u" then
                        match scan_hex4 r3 with
                        | Some (r1', r4) =>
                            if (55296 <=? r0) && (r0 <? 56320)
                               && (56320 <=? r1') && (r1' <? 57344)
                            then Some ((r0 - 55296) * 1024 + (r1' - 56320) + 65536, r4)
                            else None
                        | None => None
                        end
                      else None
                  | _ => None
                  end
                else None in
              let '(rune, rest) :=
                match paired with
                | Some p => p
                | None => (if is_surrogate r0 then replacement_char else r0, r2)
                end in
              '(t, rest') ← scan_string fuel' rest;
              Some (utf8_encode rune +:+ t, rest')
            else None
        end
      else if byte c <? 128 then
        '(t, rest) ← scan_string fuel' r; Some (String c t, rest)
      else
        match utf8_decode s with
        | Some (bytes, after) =>
            '(t, rest) ← scan_string fuel' after; Some (bytes +:+ t, rest)
        | None =>
            '(t, rest) ← scan_string fuel' r;
            Some (utf8_encode replacement_char +:+ t, rest)
        end
  end.

(** JSON texts are written below with ' in place of the double quote. *)
Definition json_text (s : string) : string :=
  string_map (fun c => if Ascii.eqb c "'" then dquote else c) s.

Definition expect_literal (lit : string) (v : JSON) (s : string)
  : option (JSON * string) :=
  if has_prefix lit s
  then Some (v, String.substring (String.length lit)
                  (String.length s - String.length lit) s)
  else None.

(** One JSON value at the head of [s] (after white space) and the rest of
    the input; [depth] is the number of objects and arrays that are open.
    Later members of an object replace earlier ones with the same key, as
    assignments to a Go map do.  [None] is a non-nil error of
    [json.Unmarshal] into an [any]: a syntax error, an object or array
    nested deeper than [maxNestingDepth], or a number outside [float64]. *)
Fixpoint scan_value (fuel : nat) (depth : Z) (s : string)
  : option (JSON * string) :=
  match fuel with
  | O => None
  | S fuel' =>
      match skip_ws s with
      | "" => None
      | String c r =>
          if Ascii.eqb c "{" then
            if maxNestingDepth <=? depth then None
            else
              match skip_ws r with
              | String c1 r1 =>
                  if Ascii.eqb c1 "}" then Some (JObject ∅, r1)
                  else scan_members fuel' (depth + 1) (skip_ws r) ∅
              | "" => None
              end
          else if Ascii.eqb c "[" then
            if maxNestingDepth <=? depth then None
            else
              match skip_ws r with
              | String c1 r1 =>
                  if Ascii.eqb c1 "]" then Some (JArray [], r1)
                  else scan_items fuel' (depth + 1) (skip_ws r) []
              | "" => None
              end
          else if Ascii.eqb c dquote then
            '(t, rest) ← scan_string (String.length r) r; Some (JString t, rest)
          else if Ascii.eqb c "t" then expect_literal "true" (JBool true) (String c r)
          else if Ascii.eqb c "f" then expect_literal "false" (JBool false) (String c r)
          else if Ascii.eqb c "n" then expect_literal "null" JNull (String c r)
          else
            '(lit, rest) ← scan_number (String c r);
            if float64_out_of_range lit then None else Some (JNumber lit, rest)
      end
  end

with scan_members (fuel : nat) (depth : Z) (s : string) (acc : gmap string JSON)
  : option (JSON * string) :=
  match fuel with
  | O => None
  | S fuel' =>
      match skip_ws s with
      | "" => None
      | String c r =>
          if Ascii.eqb c dquote then
            '(key, r1) ← scan_string (String.length r) r;
            match skip_ws r1 with
            | String c2 r2 =>
                if Ascii.eqb c2 ":" then
                  '(v, r3) ← scan_value fuel' depth r2;
                  let acc' := <[key := v]> acc in
                  match skip_ws r3 with
                  | String c4 r4 =>
                      if Ascii.eqb c4 "," then scan_members fuel' depth r4 acc'
                      else if Ascii.eqb c4 "}" then Some (JObject acc', r4)
                      else None
                  | "" => None
                  end
                else None
            | "" => None
            end
          else None
      end
  end

with scan_items (fuel : nat) (depth : Z) (s : string) (acc : list JSON)
  : option (JSON * string) :=
  match fuel with
  | O => None
  | S fuel' =>
      '(v, r1) ← scan_value fuel' depth s;
      let acc' := (acc ++ [v])%list in
      match skip_ws r1 with
      | String c2 r2 =>
          if Ascii.eqb c2 "," then scan_items fuel' depth r2 acc'
          else if Ascii.eqb c2 "]" then Some (JArray acc', r2)
          else None
      | "" => None
      end
  end.

(** A whole JSON text: one value between optional white space. *)
Definition json_decode (data : string) : option JSON :=
  '(v, rest) ← scan_value (2 * String.length data + 2) 0 data;
  match skip_ws rest with
  | "" => Some v
  | _ => None
  end.

(** [json.Unmarshal(data, &m)] for a nil [m] of type [map[string]any]:
    [None] is a non-nil error (a syntax error, or a value that is neither an
    object nor null), [Some m] the map after a nil error; JSON null leaves
    the map nil, which reads like the empty map. *)
Definition json_Unmarshal_map (data : string) : option (gmap string JSON) :=
  match json_decode data with
  | Some (JObject m) => Some m
  | Some JNull => Some ∅
  | _ => None
  end.

(** [json.Unmarshal(data, &s)] for an empty [s] of type [string]: JSON null
    leaves [s] empty. *)
Definition json_Unmarshal_string (data : string) : option string :=
  match json_decode data with
  | Some (JString s) => Some s
  | Some JNull => Some ""
  | _ => None
  end.

(** The type assertion [v.(string)] on a map element. *)
Definition as_string (v : option JSON) : option string :=
  match v with
  | Some (JString s) => Some s
  | _ => None
  end.

(** ** req/v3 *)

(** Interface values ([any]): [None] is nil.  A request body is represented
    by its JSON text, a result pointer by a name for its target. *)
Definition any := option string.

(** [context.Context] values are opaque to the client. *)
Definition Context := nat.

(** What the client reads from a [*req.Response] that came without error:
    the status code, the header and the body ([r.Bytes()]). *)
Record req_Response := {
  StatusCode : Z;
  Header : gmap string (list string);
  Bytes : string }.

(** [r.IsSuccessState()] under req's default result-state check, which the
    client never replaces: a status code above 199 and below 300. *)
Definition IsSuccessState (r : req_Response) : bool :=
  (199 <? StatusCode r) && (StatusCode r <? 300).

Record req_Request := {
  Method : string;
  RawURL : string;
  QueryParams : gmap string (list string);
  Body : any;
  Result : any;
  ctx : option Context }.

Record retryOption := { MaxRetries : Z }.

Record req_Client := {
  Headers : gmap string (list string);
  Timeout : Z;
  BaseURL : string;
  DebugLog : bool;
  retry : option retryOption }.

Definition Second : Z := 1000000000.

(** [req.C()]. *)
Definition req_C : req_Client :=
  {| Headers := ∅; Timeout := 120 * Second; BaseURL := ""; DebugLog := false;
     retry := None |}.

Definition SetCommonHeader (key value : string) (c : req_Client) : req_Client :=
  {| Headers := Header_Set key value (Headers c); Timeout := Timeout c;
     BaseURL := BaseURL c; DebugLog := DebugLog c; retry := retry c |}.

Definition SetUserAgent (ua : string) : req_Client -> req_Client :=
  SetCommonHeader "User-Agent" ua.

Definition SetCommonBearerAuthToken (token : string) : req_Client -> req_Client :=
  SetCommonHeader "Authorization" ("Bearer " +:+ token).

Definition SetCommonContentType (ct : string) : req_Client -> req_Client :=
  SetCommonHeader "Content-Type" ct.

Definition SetTimeout (d : Z) (c : req_Client) : req_Client :=
  {| Headers := Headers c; Timeout := d; BaseURL := BaseURL c;
     DebugLog := DebugLog c; retry := retry c |}.

Definition SetBaseURL (u : string) (c : req_Client) : req_Client :=
  {| Headers := Headers c; Timeout := Timeout c; BaseURL := u;
     DebugLog := DebugLog c; retry := retry c |}.

Definition EnableDebugLog (c : req_Client) : req_Client :=
  {| Headers := Headers c; Timeout := Timeout c; BaseURL := BaseURL c;
     DebugLog := true; retry := retry c |}.

(** [c.getRetryOption().MaxRetries = count]. *)
Definition SetCommonRetryCount (count : Z) (c : req_Client) : req_Client :=
  {| Headers := Headers c; Timeout := Timeout c; BaseURL := BaseURL c;
     DebugLog := DebugLog c; retry := Some {| MaxRetries := count |} |}.

(** [c.R()]: a fresh request. *)
Definition R : req_Request :=
  {| Method := ""; RawURL := ""; QueryParams := ∅; Body := None;
     Result := None; ctx := None |}.

Definition SetContext (x : Context) (r : req_Request) : req_Request :=
  {| Method := Method r; RawURL := RawURL r; QueryParams := QueryParams r;
     Body := Body r; Result := Result r; ctx := Some x |}.

(** [r.SetSuccessResult(result)]; a nil result is ignored. *)
Definition SetSuccessResult (result : any) (r : req_Request) : req_Request :=
  match result with
  | None => r
  | Some _ =>
      {| Method := Method r; RawURL := RawURL r; QueryParams := QueryParams r;
         Body := Body r; Result := result; ctx := ctx r |}
  end.

Definition SetBodyJsonMarshal (body : any) (r : req_Request) : req_Request :=
  {| Method := Method r; RawURL := RawURL r; QueryParams := QueryParams r;
     Body := body; Result := Result r; ctx := ctx r |}.

(** [r.SetQueryParam(key, value)], that is [r.QueryParams.Set(key, value)]. *)
Definition SetQueryParam (key value : string) (r : req_Request) : req_Request :=
  {| Method := Method r; RawURL := RawURL r;
     QueryParams := <[key := [value]]> (QueryParams r);
     Body := Body r; Result := Result r; ctx := ctx r |}.

(** The request as [r.Get(url)], [r.Post(url)], ... send it. *)
Definition with_target (method url : string) (r : req_Request) : req_Request :=
  {| Method := method; RawURL := url; QueryParams := QueryParams r;
     Body := Body r; Result := Result r; ctx := ctx r |}.

(** ** The client *)

Definition defaultBaseURL : string := "https://gitness.com/".
Definition apiVersionPath : string := "api/v1".
Definition userAgent : string := "go-gitness".

(** Addresses of [Client] values. *)
Definition loc := positive.

Inductive ServiceKind :=
  | AdminK | AuditK | AuthK | ChecksK | CiCacheK | ConnectorsK | GitspacesK
  | InfraProvidersK | PipelinesK | PrincipalsK | PluginsK | PullRequestsK
  | RepositoriesK | ResourceK | SecretsK | SpacesK | SystemK | TemplatesK
  | UploadK | UsersK | WebhooksK.

(** Each service type is a struct with the single field [client *Client]. *)
Record Service (k : ServiceKind) := { svc_client : loc }.
Arguments svc_client {k} _.

Definition AdminService := Service AdminK.
Definition AuditService := Service AuditK.
Definition AuthService := Service AuthK.
Definition ChecksService := Service ChecksK.
Definition CiCacheService := Service CiCacheK.
Definition ConnectorsService := Service ConnectorsK.
Definition GitspacesService := Service GitspacesK.
Definition InfraProvidersService := Service InfraProvidersK.
Definition PipelinesService := Service PipelinesK.
Definition PrincipalsService := Service PrincipalsK.
Definition PluginsService := Service PluginsK.
Definition PullRequestsService := Service PullRequestsK.
Definition RepositoriesService := Service RepositoriesK.
Definition ResourceService := Service ResourceK.
Definition SecretsService := Service SecretsK.
Definition SpacesService := Service SpacesK.
Definition SystemService := Service SystemK.
Definition TemplatesService := Service TemplatesK.
Definition UploadService := Service UploadK.
Definition UsersService := Service UsersK.
Definition WebhooksService := Service WebhooksK.

(** The struct [Client].  The req client it points to is owned by it alone
    and is kept by value; a service pointer is [None] when nil. *)
Record Client := {
  client : req_Client;
  baseURL : string;
  token : string;
  Admin : option AdminService;
  Audit : option AuditService;
  Auth : option AuthService;
  Checks : option ChecksService;
  CiCache : option CiCacheService;
  Connectors : option ConnectorsService;
  Gitspaces : option GitspacesService;
  InfraProviders : option InfraProvidersService;
  Pipelines : option PipelinesService;
  Principals : option PrincipalsService;
  Plugins : option PluginsService;
  PullRequests : option PullRequestsService;
  Repositories : option RepositoriesService;
  Resource : option ResourceService;
  Secrets : option SecretsService;
  Spaces : option SpacesService;
  System : option SystemService;
  Templates : option TemplatesService;
  Upload : option UploadService;
  Users : option UsersService;
  Webhooks : option WebhooksService }.

Module Response.
(** [Response]: the req response and the pagination fields. *)
Record t := {
  Response : option req_Response;
  Page : option Z;
  PerPage : option Z;
  NextPage : option Z;
  Total : option Z;
  TotalPages : option Z }.

(** [&Response{Response: resp}]. *)
Definition of_resp (resp : option req_Response) : t :=
  {| Response := resp; Page := None; PerPage := None; NextPage := None;
     Total := None; TotalPages := None |}.
End Response.

Module ErrorResponse.
Record t := {
  Response : option req_Response;
  Message : string;
  Details : string }.
End ErrorResponse.

Module ListOptions.
Record t := {
  Page : option Z;
  Limit : option Z;
  Sort : option string;
  Order : option string;
  Query : option string }.
End ListOptions.

(** Go [error] values met by the client: an [*ErrorResponse], or an error
    of another package, known by its text. *)
Inductive error :=
  | ErrorResponse_error (e : ErrorResponse.t)
  | other_error (msg : string).

(** The heap of [Client] values. *)
Abbreviation Store := (gmap loc Client).

(** Computations that read and write the heap; [None] is a panic. *)
Definition M (A : Type) : Type := Store -> option (A * Store).

Definition ret {A} (a : A) : M A := fun σ => Some (a, σ).

Definition bind {A B} (m : M A) (k : A -> M B) : M B :=
  fun σ => match m σ with
           | Some (a, σ') => k a σ'
           | None => None
           end.

Definition panic {A} : M A := fun _ => None.

(** [*c] for reading; a nil or dangling [c] panics. *)
Definition deref (c : loc) : M Client :=
  fun σ => match σ !! c with
           | Some cl => Some (cl, σ)
           | None => None
           end.

Definition lift_option {A} (o : option A) : M A :=
  match o with
  | Some a => ret a
  | None => panic
  end.

Declare Scope M_scope.
Delimit Scope M_scope with M.
Notation "'let*' x ':=' m 'in' k" := (bind m (fun x => k))
  (at level 10, x name, m at level 100, k at level 200) : M_scope.

(** [ClientOptionFunc], [func(c *Client) error]: what an option does to the
    client it is handed, and the error it returns (options are applied
    before the client is shared, so its fields are all they can reach). *)
Definition ClientOptionFunc := Client -> Client * option error.

Definition set_client (f : req_Client -> req_Client) (c : Client) : Client :=
  {| client := f (client c); baseURL := baseURL c; token := token c;
     Admin := Admin c; Audit := Audit c; Auth := Auth c; Checks := Checks c;
     CiCache := CiCache c; Connectors := Connectors c;
     Gitspaces := Gitspaces c; InfraProviders := InfraProviders c;
     Pipelines := Pipelines c; Principals := Principals c;
     Plugins := Plugins c; PullRequests := PullRequests c;
     Repositories := Repositories c; Resource := Resource c;
     Secrets := Secrets c; Spaces := Spaces c; System := System c;
     Templates := Templates c; Upload := Upload c; Users := Users c;
     Webhooks := Webhooks c |}.

Definition set_baseURL (u : string) (c : Client) : Client :=
  {| client := client c; baseURL := u; token := token c;
     Admin := Admin c; Audit := Audit c; Auth := Auth c; Checks := Checks c;
     CiCache := CiCache c; Connectors := Connectors c;
     Gitspaces := Gitspaces c; InfraProviders := InfraProviders c;
     Pipelines := Pipelines c; Principals := Principals c;
     Plugins := Plugins c; PullRequests := PullRequests c;
     Repositories := Repositories c; Resource := Resource c;
     Secrets := Secrets c; Spaces := Spaces c; System := System c;
     Templates := Templates c; Upload := Upload c; Users := Users c;
     Webhooks := Webhooks c |}.

(** The assignments [c.Admin = &AdminService{client: c}] ...
    [c.Webhooks = &WebhooksService{client: c}] for the client at [c]. *)
Definition init_services (c : loc) (cl : Client) : Client :=
  {| client := client cl; baseURL := baseURL cl; token := token cl;
     Admin := Some {| svc_client := c |};
     Audit := Some {| svc_client := c |};
     Auth := Some {| svc_client := c |};
     Checks := Some {| svc_client := c |};
     CiCache := Some {| svc_client := c |};
     Connectors := Some {| svc_client := c |};
     Gitspaces := Some {| svc_client := c |};
     InfraProviders := Some {| svc_client := c |};
     Pipelines := Some {| svc_client := c |};
     Principals := Some {| svc_client := c |};
     Plugins := Some {| svc_client := c |};
     PullRequests := Some {| svc_client := c |};
     Repositories := Some {| svc_client := c |};
     Resource := Some {| svc_client := c |};
     Secrets := Some {| svc_client := c |};
     Spaces := Some {| svc_client := c |};
     System := Some {| svc_client := c |};
     Templates := Some {| svc_client := c |};
     Upload := Some {| svc_client := c |};
     Users := Some {| svc_client := c |};
     Webhooks := Some {| svc_client := c |} |}.

(** The loop [for _, option := range options] of [NewClient]. *)
Fixpoint apply_options (options : list ClientOptionFunc) (c : Client)
  : Client * option error :=
  match options with
  | [] => (c, None)
  | option :: rest =>
      match option c with
      | (c', None) => apply_options rest c'
      | (c', Some err) => (c', Some err)
      end
  end.

(** The req client [NewClient] configures before the options run. *)
Definition new_reqClient (token : string) : req_Client :=
  SetCommonContentType "application/json"
    (SetCommonBearerAuthToken token
       (SetTimeout (10 * Second) (SetUserAgent userAgent req_C))).

(** [&Client{client: reqClient, baseURL: baseURL, token: token}]: every
    service pointer is nil. *)
Definition new_Client (token : string) : Client :=
  {| client := new_reqClient token; baseURL := defaultBaseURL; token := token;
     Admin := None; Audit := None; Auth := None; Checks := None;
     CiCache := None; Connectors := None; Gitspaces := None;
     InfraProviders := None; Pipelines := None; Principals := None;
     Plugins := None; PullRequests := None; Repositories := None;
     Resource := None; Secrets := None; Spaces := None; System := None;
     Templates := None; Upload := None; Users := None; Webhooks := None |}.

(** [NewClient(token, options...)]: the pointer and error it returns, and
    the heap with the new client in it. *)
Definition NewClient (token : string) (options : list ClientOptionFunc)
  (σ : Store) : (option loc * option error) * Store :=
  let c : loc := fresh (dom σ) in
  match apply_options options (new_Client token) with
  | (c1, Some err) => ((None, Some err), <[c := c1]> σ)
  | (c1, None) =>
      let apiURL := baseURL c1 +:+ apiVersionPath in
      let c2 := set_client (SetBaseURL apiURL) c1 in
      ((Some c, None), <[c := init_services c c2]> σ)
  end.

Definition WithBaseURL (baseURL : string) : ClientOptionFunc :=
  fun c =>
    match url_Parse baseURL with
    | None => (c, Some (other_error "parse"))
    | Some u => (set_baseURL (URL_String u) c, None)
    end.

(** [WithHTTPClient] ignores its argument. *)
Definition WithHTTPClient : ClientOptionFunc := fun c => (c, None).

Definition WithTimeout (timeout : Z) : ClientOptionFunc :=
  fun c => (set_client (SetTimeout timeout) c, None).

Definition WithDebug : ClientOptionFunc :=
  fun c => (set_client EnableDebugLog c, None).

Definition WithRetry (retryCount : Z) : ClientOptionFunc :=
  fun c =>
    (if 0 <? retryCount then set_client (SetCommonRetryCount retryCount) c else c,
     None).

(** [c.checkResponse(r)]; the receiver is not used. *)
Definition checkResponse (r : req_Response) : option error :=
  if IsSuccessState r then None
  else
    let errorResponse :=
      {| ErrorResponse.Response := Some r; ErrorResponse.Message := "";
         ErrorResponse.Details := "" |} in
    let errorResponse :=
      match json_Unmarshal_map (Bytes r) with
      | Some errorBody =>
          let e1 :=
            match as_string (errorBody !! "message") with
            | Some message =>
                {| ErrorResponse.Response := ErrorResponse.Response errorResponse;
                   ErrorResponse.Message := message;
                   ErrorResponse.Details := ErrorResponse.Details errorResponse |}
            | None => errorResponse
            end in
          match as_string (errorBody !! "details") with
          | Some details =>
              {| ErrorResponse.Response := ErrorResponse.Response e1;
                 ErrorResponse.Message := ErrorResponse.Message e1;
                 ErrorResponse.Details := details |}
          | None => e1
          end
      | None => errorResponse
      end in
    let errorResponse :=
      if String.eqb (ErrorResponse.Message errorResponse) "" then
        {| ErrorResponse.Response := ErrorResponse.Response errorResponse;
           ErrorResponse.Message :=
             "HTTP " +:+ format_int (StatusCode r) +:+ ": "
             +:+ StatusText (StatusCode r);
           ErrorResponse.Details := ErrorResponse.Details errorResponse |}
      else errorResponse in
    Some (ErrorResponse_error errorResponse).

(** [&url.URL{Path: path}]. *)
Definition path_ref (path : string) : URL :=
  {| Scheme := ""; Opaque := ""; User := None; Host := ""; Path := path;
     RawPath := ""; OmitHost := false; ForceQuery := false; RawQuery := "";
     Fragment := ""; RawFragment := "" |}.

(** [c.buildFullURL(path)]; [None] is the panic of [ResolveReference] on
    the nil URL that a failed [url.Parse] returns. *)
Definition buildFullURL (c : Client) (path : string) : option string :=
  baseURL ← url_Parse (baseURL c +:+ apiVersionPath +:+ "/");
  let fullURL := ResolveReference baseURL (path_ref path) in
  Some (URL_String fullURL).

(** [buildQueryParams(req, opt)]: the request after the call. *)
Definition buildQueryParams (req : req_Request) (opt : option ListOptions.t)
  : req_Request :=
  match opt with
  | None => req
  | Some opt =>
      let req :=
        match ListOptions.Page opt with
        | Some page => SetQueryParam "page" (format_int page) req
        | None => req
        end in
      let req :=
        match ListOptions.Limit opt with
        | Some limit => SetQueryParam "limit" (format_int limit) req
        | None => req
        end in
      let req :=
        match ListOptions.Sort opt with
        | Some sort => SetQueryParam "sort" sort req
        | None => req
        end in
      let req :=
        match ListOptions.Order opt with
        | Some order => SetQueryParam "order" order req
        | None => req
        end in
      match ListOptions.Query opt with
      | Some query => SetQueryParam "query" query req
      | None => req
      end
  end.

(** One of the five header blocks of [parsePaginationHeaders]: the new
    value of a field that held [old]. *)
Definition parse_header_int (headers : gmap string (list string))
  (key : string) (old : option Z) : option Z :=
  let v := Header_Get headers key in
  if string_nonempty v then
    match Atoi v with
    | Some val => Some val
    | None => old
    end
  else old.

(** [c.parsePaginationHeaders(response)]: the response after the call. *)
Definition parsePaginationHeaders (response : Response.t) : Response.t :=
  match Response.Response response with
  | None => response
  | Some resp =>
      let headers := Header resp in
      {| Response.Response := Response.Response response;
         Response.Page :=
           parse_header_int headers "x-page" (Response.Page response);
         Response.PerPage :=
           parse_header_int headers "x-per-page" (Response.PerPage response);
         Response.NextPage :=
           parse_header_int headers "x-next-page" (Response.NextPage response);
         Response.Total :=
           parse_header_int headers "x-total" (Response.Total response);
         Response.TotalPages :=
           parse_header_int headers "x-total-pages"
             (Response.TotalPages response) |}
  end.

(** What [r.Get(url)] and the other verbs of a req request return: a
    response without error, or an error (with the response req hands back
    next to it). *)
Inductive outcome :=
  | Done (resp : req_Response)
  | Failed (resp : option req_Response) (err : error).

Definition if_non_nil (v : any) (f : req_Request -> req_Request)
  (r : req_Request) : req_Request :=
  match v with
  | Some _ => f r
  | None => r
  end.

(** The request each helper hands to req, for the client value [cl]. *)
Definition Get_request (cl : Client) (x : Context) (path : string)
  (result : any) : option req_Request :=
  fullURL ← buildFullURL cl path;
  Some (with_target "GET" fullURL (SetSuccessResult result (SetContext x R))).

Definition body_request (method : string) (cl : Client) (x : Context)
  (path : string) (body result : any) : option req_Request :=
  fullURL ← buildFullURL cl path;
  let req := SetContext x R in
  let req := if_non_nil body (SetBodyJsonMarshal body) req in
  let req := if_non_nil result (SetSuccessResult result) req in
  Some (with_target method fullURL req).

Definition performListRequest_request (cl : Client) (x : Context)
  (path : string) (opt : option ListOptions.t) (result : any)
  : option req_Request :=
  fullURL ← buildFullURL cl path;
  let req := SetContext x R in
  let req := SetSuccessResult result req in
  let req := buildQueryParams req opt in
  Some (with_target "GET" fullURL req).

Section Helpers.

(** The network as seen through req: what sending a request with the
    settings of a req client returns. *)
Variable roundTrip : req_Client -> req_Request -> outcome.

(** The tail shared by [Post], [Put], [Patch], [Delete] and
    [DeleteWithResponse]. *)
Definition checked (o : outcome) : option Response.t * option error :=
  match o with
  | Failed _ err => (None, Some err)
  | Done resp =>
      match checkResponse resp with
      | Some err => (Some (Response.of_resp (Some resp)), Some err)
      | None => (Some (Response.of_resp (Some resp)), None)
      end
  end.

Definition Get (c : loc) (x : Context) (path : string) (result : any)
  : M (option Response.t * option error) :=
  (let* cl := deref c in
   let* req := lift_option (Get_request cl x path result) in
   match roundTrip (client cl) req with
   | Failed _ err => ret (None, Some err)
   | Done resp =>
       match checkResponse resp with
       | Some err => ret (Some (Response.of_resp (Some resp)), Some err)
       | None =>
           let response := Response.of_resp (Some resp) in
           ret (Some (parsePaginationHeaders response), None)
       end
   end)%M.

Definition Post (c : loc) (x : Context) (path : string) (body result : any)
  : M (option Response.t * option error) :=
  (let* cl := deref c in
   let* req := lift_option (body_request "POST" cl x path body result) in
   ret (checked (roundTrip (client cl) req)))%M.

Definition Put (c : loc) (x : Context) (path : string) (body result : any)
  : M (option Response.t * option error) :=
  (let* cl := deref c in
   let* req := lift_option (body_request "PUT" cl x path body result) in
   ret (checked (roundTrip (client cl) req)))%M.

Definition Patch (c : loc) (x : Context) (path : string) (body result : any)
  : M (option Response.t * option error) :=
  (let* cl := deref c in
   let* req := lift_option (body_request "PATCH" cl x path body result) in
   ret (checked (roundTrip (client cl) req)))%M.

Definition Delete (c : loc) (x : Context) (path : string) (body : any)
  : M (option Response.t * option error) :=
  (let* cl := deref c in
   let* req := lift_option (body_request "DELETE" cl x path body None) in
   ret (checked (roundTrip (client cl) req)))%M.

Definition DeleteWithResponse (c : loc) (x : Context) (path : string)
  (body result : any) : M (option Response.t * option error) :=
  (let* cl := deref c in
   let* req := lift_option (body_request "DELETE" cl x path body result) in
   ret (checked (roundTrip (client cl) req)))%M.

Definition performListRequest (c : loc) (x : Context) (path : string)
  (opt : option ListOptions.t) (result : any)
  : M (option Response.t * option error) :=
  (let* cl := deref c in
   let* req := lift_option (performListRequest_request cl x path opt result) in
   match roundTrip (client cl) req with
   | Failed resp err => ret (Some (Response.of_resp resp), Some err)
   | Done resp =>
       match checkResponse resp with
       | Some err => ret (Some (Response.of_resp (Some resp)), Some err)
       | None =>
           let response := Response.of_resp (Some resp) in
           ret (Some (parsePaginationHeaders response), None)
       end
   end)%M.

(** *** Service methods (repositories.go, users.go)

    The decoded payload is written by req into the result pointer and is
    not represented; the methods are followed up to the response and the
    error. *)

Definition ListBranches_path (repoPath : string) : string :=
  "repos/" +:+ repoPath +:+ "/branches".

Definition GetBranch_path (repoPath branchName : string) : string :=
  "repos/" +:+ repoPath +:+ "/branches/" +:+ branchName.

Definition GetUser_path (userUID : string) : string :=
  "users/" +:+ PathEscape userUID.

Definition ListBranches (s : RepositoriesService) (x : Context)
  (repoPath : string) (opt : option ListOptions.t)
  : M (option Response.t * option error) :=
  performListRequest (svc_client s) x (ListBranches_path repoPath) opt
    (Some "branches").

Definition GetBranch (s : RepositoriesService) (x : Context)
  (repoPath branchName : string) : M (option Response.t * option error) :=
  Get (svc_client s) x (GetBranch_path repoPath branchName) (Some "branch").

Definition GetUser (s : UsersService) (x : Context) (userUID : string)
  : M (option Response.t * option error) :=
  Get (svc_client s) x (GetUser_path userUID) (Some "user").

End Helpers.

(** ** time

    A [time.Time] is kept through what RFC 3339 shows of it: the instant
    (seconds since the Unix epoch and nanoseconds within the second) and the
    offset east of UTC, in seconds, of the zone in effect at that instant.
    The name of the location and the monotonic clock reading are not
    represented. *)
Record time_Time := { unix : Z; nsec : Z; offset : Z }.

(** [type Time time.Time]. *)
Definition Time := time_Time.

Definition secondsPerDay : Z := 86400.

Definition isLeap (year : Z) : bool :=
  (year mod 4 =? 0) && (negb (year mod 100 =? 0) || (year mod 400 =? 0)).

Definition daysIn (month year : Z) : Z :=
  if (month =? 2) && isLeap year then 29
  else if month =? 2 then 28
  else if (month =? 4) || (month =? 6) || (month =? 9) || (month =? 11) then 30
  else 31.

(** The date of the proleptic Gregorian calendar that lies [z] days after
    1970-01-01, computed on years that begin in March. *)
Definition civil_from_days (z : Z) : Z * Z * Z :=
  let z := z + 719468 in
  let era := z / 146097 in
  let doe := z mod 146097 in
  let yoe := (doe - doe / 1460 + doe / 36524 - doe / 146096) / 365 in
  let doy := doe - (365 * yoe + yoe / 4 - yoe / 100) in
  let mp := (5 * doy + 2) / 153 in
  let d := doy - (153 * mp + 2) / 5 + 1 in
  let m := if mp <? 10 then mp + 3 else mp - 9 in
  (yoe + era * 400 + (if m <=? 2 then 1 else 0), m, d).

(** The number of days from 1970-01-01 to a date. *)
Definition days_from_civil (y m d : Z) : Z :=
  let y := if m <=? 2 then y - 1 else y in
  let era := y / 400 in
  let yoe := y mod 400 in
  let doy := (153 * (if 2 <? m then m - 3 else m + 9) + 2) / 5 + d - 1 in
  let doe := yoe * 365 + yoe / 4 - yoe / 100 + doy in
  era * 146097 + doe - 719468.

(** [time.Date(year, month, day, hour, min, sec, nsec, time.UTC)] for
    arguments within their ranges. *)
Definition Date (year month day hour min sec ns : Z) : time_Time :=
  {| unix := days_from_civil year month day * secondsPerDay
             + hour * 3600 + min * 60 + sec;
     nsec := ns; offset := 0 |}.

Fixpoint zeros (n : nat) : string :=
  match n with
  | O => ""
  | S n' => String "0" (zeros n')
  end.

(** [appendInt(b, x, width)]: the decimal digits of [x], zero-padded to
    [width] digits, after a minus sign when [x] is negative. *)
Definition appendInt (x : Z) (width : nat) : string :=
  let digits := format_uint (Z.abs x) in
  (if x <? 0 then "-" else "")
  +:+ zeros (width - String.length digits) +:+ digits.

(** The zone of the layout element Z07:00 for an offset in seconds: Z for
    UTC, otherwise the sign, the hours and the minutes. *)
Definition zone_RFC3339 (offset : Z) : string :=
  if offset =? 0 then "Z"
  else
    let zone := Z.quot offset 60 in
    (if zone <? 0 then "-" else "+")
    +:+ appendInt (Z.abs zone / 60) 2 +:+ ":" +:+ appendInt (Z.abs zone mod 60) 2.

(** [t.Format(time.RFC3339)], the layout 2006-01-02T15:04:05Z07:00. *)
Definition Format_RFC3339 (t : time_Time) : string :=
  let abs := unix t + offset t in
  let '(year, month, day) := civil_from_days (abs / secondsPerDay) in
  let sod := abs mod secondsPerDay in
  appendInt year 4 +:+ "-" +:+ appendInt month 2 +:+ "-" +:+ appendInt day 2
  +:+ "T" +:+ appendInt (sod / 3600) 2 +:+ ":"
  +:+ appendInt (sod mod 3600 / 60) 2 +:+ ":" +:+ appendInt (sod mod 60) 2
  +:+ zone_RFC3339 (offset t).

Fixpoint str_take (n : nat) (s : string) : string :=
  match n, s with
  | S n', String c s' => String c (str_take n' s')
  | _, _ => ""
  end.

Fixpoint str_drop (n : nat) (s : string) : string :=
  match n, s with
  | S n', String _ s' => str_drop n' s'
  | _, _ => s
  end.

(** [s[i:j]]. *)
Definition slice (i j : nat) (s : string) : string :=
  str_take (j - i) (str_drop i s).

(** Whether [s[i]] is the byte [c]. *)
Definition byte_at (i : nat) (c : ascii) (s : string) : bool :=
  match str_drop i s with
  | String x _ => Ascii.eqb x c
  | "" => false
  end.

(** The closure [parseUint] of [parseRFC3339]: decimal digits only, the
    value within [min, max]. *)
Definition parseUint (s : string) (min max : Z) : option Z :=
  match parse_digits 0 s with
  | Some x => if (min <=? x) && (x <=? max) then Some x else None
  | None => None
  end.

(** [parseNanoseconds] on the digits after the period: the first nine
    count, scaled to nanoseconds. *)
Definition parseNanoseconds (digits : string) : Z :=
  let d := str_take 9 digits in
  match parse_digits 0 (d +:+ zeros (9 - String.length d)) with
  | Some ns => ns
  | None => 0
  end.

(** The fractional second of [parseRFC3339]: a period and digits, if
    present, give the nanoseconds; the rest of the input follows. *)
Definition parse_fraction (s : string) : Z * string :=
  match s with
  | String c0 (String c1 r) =>
      if Ascii.eqb c0 "." && is_digit c1 then
        let '(digits, rest) := span_digits (String c1 r) in
        (parseNanoseconds digits, rest)
      else (0, s)
  | _ => (0, s)
  end.

(** The time zone of [parseRFC3339]: Z, or a sign, two digits of hours, a
    colon and two digits of minutes; [t] is the date and time read so far,
    as a UTC time. *)
Definition parse_zone (t : time_Time) (s : string) : option time_Time :=
  if String.eqb s "Z" then Some t
  else if negb (String.length s =? 6)%nat then None
  else
    hr ← parseUint (slice 1 3 s) 0 23;
    mm ← parseUint (slice 4 6 s) 0 59;
    if negb ((byte_at 0 "-" s || byte_at 0 "+" s) && byte_at 3 ":" s)
    then None
    else
      let zoneOffset :=
        if byte_at 0 "-" s then - ((hr * 60 + mm) * 60)
        else (hr * 60 + mm) * 60 in
      Some {| unix := unix t - zoneOffset; nsec := nsec t;
              offset := zoneOffset |}.

(** [parseRFC3339]: the strict parser that [time.Parse] tries first for the
    layout RFC3339. *)
Definition parseRFC3339 (s : string) : option time_Time :=
  if (String.length s <? 19)%nat then None
  else
    year ← parseUint (slice 0 4 s) 0 9999;
    month ← parseUint (slice 5 7 s) 1 12;
    day ← parseUint (slice 8 10 s) 1 (daysIn month year);
    hour ← parseUint (slice 11 13 s) 0 23;
    min ← parseUint (slice 14 16 s) 0 59;
    sec ← parseUint (slice 17 19 s) 0 59;
    if negb (byte_at 4 "-" s && byte_at 7 "-" s && byte_at 10 "T" s
             && byte_at 13 ":" s && byte_at 16 ":" s)
    then None
    else
      let '(ns, rest) := parse_fraction (str_drop 19 s) in
      parse_zone (Date year month day hour min sec ns) rest.

(** [json.Marshal] of a string: the bytes between double quotes, with the
    quote, the backslash, control characters and the HTML characters
    escaped, ill-formed UTF-8 written as \ufffd and the separators U+2028
    and U+2029 as \u2028 and \u2029. *)
Definition hex_digit (d : Z) : ascii :=
  if d <? 10 then chr (48 + d) else chr (87 + d).

(** A byte below 0x80. *)
Definition json_escape_byte (c : ascii) : string :=
  if Ascii.eqb c dquote then String backslash (str1 dquote)
  else if Ascii.eqb c backslash then String backslash (str1 backslash)
  else if byte c =? 8 then String backslash "b"
  else if byte c =? 12 then String backslash "f"
  else if byte c =? 10 then String backslash "n"
  else if byte c =? 13 then String backslash "r"
  else if byte c =? 9 then String backslash "t"
  else if (byte c <? 32) || char_in c "<>&" then
    String backslash
      ("u00" +:+ String (hex_digit (byte c / 16)) (str1 (hex_digit (byte c mod 16))))
  else str1 c.

Definition line_separator : string :=
  String (chr 226) (String (chr 128) (str1 (chr 168))).

Definition paragraph_separator : string :=
  String (chr 226) (String (chr 128) (str1 (chr 169))).

(** The loop of [appendString]; each turn takes at least one byte, so the
    length of the input is fuel enough. *)
Fixpoint json_escape_from (fuel : nat) (s : string) : string :=
  match fuel, s with
  | S fuel', String c r =>
      if byte c <? 128 then json_escape_byte c +:+ json_escape_from fuel' r
      else
        match utf8_decode s with
        | None => String backslash "ufffd" +:+ json_escape_from fuel' r
        | Some (bytes, after) =>
            (if String.eqb bytes line_separator then String backslash "u2028"
             else if String.eqb bytes paragraph_separator
                  then String backslash "u2029"
                  else bytes)
            +:+ json_escape_from fuel' after
        end
  | _, _ => ""
  end.

Definition json_escape (s : string) : string :=
  json_escape_from (String.length s) s.

Definition json_Marshal_string (s : string) : string :=
  String dquote (json_escape s +:+ str1 dquote).

Section TimeJSON.

(** The layout-driven parser that [time.Parse] falls back on when the
    strict one refuses; it is not modelled. *)
Variable parse_fallback : string -> option time_Time.



End TimeJSON.

(** [t.MarshalJSON()]. *)
Definition MarshalJSON (t : Time) : string * option error :=
  (json_Marshal_string (Format_RFC3339 t), None).

(** [t.String()]. *)
Definition Time_String (t : Time) : string := Format_RFC3339 t.

(** ** Notions used to state the properties *)

(** The pagination field [field] follows the header stored under the
    canonical key [key]: it holds the integer the first value of the header
    parses to, and is nil when the header is absent. *)
Definition follows_header (resp : req_Response) (key : string)
  (field : option Z) : Prop :=
  (forall v rest n,
     Header resp !! key = Some (v :: rest) -> Atoi v = Some n ->
     field = Some n)
  /\ (Header resp !! key = None -> field = None).

(** The value [buildQueryParams] is expected to give the query parameter
    [key], if any. *)
Definition expected_param (opt : ListOptions.t) (key : string) : option string :=
  if String.eqb key "page" then format_int <$> ListOptions.Page opt
  else if String.eqb key "limit" then format_int <$> ListOptions.Limit opt
  else if String.eqb key "sort" then ListOptions.Sort opt
  else if String.eqb key "order" then ListOptions.Order opt
  else if String.eqb key "query" then ListOptions.Query opt
  else None.

(** The failures of a round trip. *)
Definition request_failed (o : outcome) : Prop :=
  match o with
  | Failed _ _ => True
  | Done _ => False
  end.

Definition status_of (o : outcome) : option Z :=
  match o with
  | Done resp => Some (StatusCode resp)
  | Failed _ _ => None
  end.

Definition is_2xx (code : Z) : Prop := 200 <= code <= 299.

(** An operation run on the heap [σ] returns, leaves the heap alone, and
    its error is non-nil exactly when the round trip [o] failed or came
    back with a status outside 2xx. *)
Definition errs_iff_failed_or_non_2xx
  (op : M (option Response.t * option error)) (o : outcome) (σ : Store) : Prop :=
  exists resp err,
    op σ = Some ((resp, err), σ)
    /\ (err <> None <->
        request_failed o \/ exists code, status_of o = Some code /\ ~ is_2xx code).

(** Every service field of the client value [cl] is non-nil and points to
    a service whose [client] is the address [c]. *)
Definition all_services_share (c : loc) (cl : Client) : Prop :=
  Admin cl = Some {| svc_client := c |}
  /\ Audit cl = Some {| svc_client := c |}
  /\ Auth cl = Some {| svc_client := c |}
  /\ Checks cl = Some {| svc_client := c |}
  /\ CiCache cl = Some {| svc_client := c |}
  /\ Connectors cl = Some {| svc_client := c |}
  /\ Gitspaces cl = Some {| svc_client := c |}
  /\ InfraProviders cl = Some {| svc_client := c |}
  /\ Pipelines cl = Some {| svc_client := c |}
  /\ Principals cl = Some {| svc_client := c |}
  /\ Plugins cl = Some {| svc_client := c |}
  /\ PullRequests cl = Some {| svc_client := c |}
  /\ Repositories cl = Some {| svc_client := c |}
  /\ Resource cl = Some {| svc_client := c |}
  /\ Secrets cl = Some {| svc_client := c |}
  /\ Spaces cl = Some {| svc_client := c |}
  /\ System cl = Some {| svc_client := c |}
  /\ Templates cl = Some {| svc_client := c |}
  /\ Upload cl = Some {| svc_client := c |}
  /\ Users cl = Some {| svc_client := c |}
  /\ Webhooks cl = Some {| svc_client := c |}.



Definition not_dot (seg : string) : bool := negb (is_dot seg || is_dotdot seg).

(** No segment of the path [p] is "." or "..". *)
Definition no_dot_segments (p : string) : bool :=
  forallb not_dot (split "/" p).

(** What [u.String()] writes before the path of a URL without opaque
    part: the scheme and the authority. *)
Definition authority_text (u : URL) : string :=
  (if string_nonempty (Scheme u) then Scheme u +:+ ":" else "")
  +:+ (if string_nonempty (Scheme u) || string_nonempty (Host u) || has_user u then
         if OmitHost u && negb (string_nonempty (Host u)) && negb (has_user u)
         then ""
         else
           "//"
           +:+ match User u with
               | Some ui => Userinfo_String ui +:+ "@"
               | None => ""
               end
           +:+ (if string_nonempty (Host u) then escape (Host u) encodeHost else "")
       else "").

(** A base URL of the usual shape: scheme or host with a path, no opaque
    part, no query and no fragment, the host not omitted, and an escaped
    path that starts and ends with a slash and has no dot segment. *)
Definition plain_base (u : URL) : bool :=
  negb (string_nonempty (Opaque u)) && negb (string_nonempty (RawQuery u))
  && negb (ForceQuery u) && negb (string_nonempty (Fragment u))
  && negb (OmitHost u)
  && has_prefix "/" (EscapedPath u)
  && bool_decide (last_char (EscapedPath u) = Some "/"%char)
  && no_dot_segments (EscapedPath u).

(** The year a time falls in, in its own zone. *)
Definition year_of (t : time_Time) : Z :=
  fst (fst (civil_from_days ((unix t + offset t) / secondsPerDay))).

(** A time with whole-second precision that RFC 3339 can write: a year of
    four digits and a zone offset of whole minutes, less than a day. *)
Definition representable (t : time_Time) : Prop :=
  nsec t = 0 /\ 0 <= year_of t <= 9999
  /\ offset t mod 60 = 0 /\ -86400 < offset t < 86400.


(** *** Checks over a finite range *)

(** [p] holds of the [n] integers from [i] on. *)
Fixpoint all_below (n : nat) (i : Z) (p : Z -> bool) : bool :=
  match n with
  | O => true
  | S n' => if p i then all_below n' (i + 1) p else false
  end.

(** For the day [doe] of a 400-year cycle that starts on 1 March:
    [civil_from_days] yields a month and a day of that month, and
    [days_from_civil] leads back to [doe]. *)
Definition civil_check (doe : Z) : bool :=
  let yoe := (doe - doe / 1460 + doe / 36524 - doe / 146096) / 365 in
  let doy := doe - (365 * yoe + yoe / 4 - yoe / 100) in
  let mp := (5 * doy + 2) / 153 in
  let d := doy - (153 * mp + 2) / 5 + 1 in
  let m := if mp <? 10 then mp + 3 else mp - 9 in
  let y := yoe + (if m <=? 2 then 1 else 0) in
  (0 <=? yoe) && (yoe <=? 399) && (1 <=? m) && (m <=? 12) && (1 <=? d)
  && (d <=? daysIn m y)
  && (yoe * 365 + yoe / 4 - yoe / 100
      + ((153 * (if 2 <? m then m - 3 else m + 9) + 2) / 5 + d - 1) =? doe).

(** The fixed-width decimal fields that [appendInt] writes for small
    numbers. *)
Definition two_digits (x : Z) : string :=
  String (digit_chr (x / 10)) (String (digit_chr (x mod 10)) "").

Definition four_digits (x : Z) : string :=
  String (digit_chr (x / 1000))
    (String (digit_chr (x / 100 mod 10)) (two_digits (x mod 100))).

(** ** Sample values: the replies of the repository's test servers *)

(** [TestErrorHandling]: status 400 with a message and details. *)
Definition bad_request : req_Response :=
  {| StatusCode := 400;
     Header := Header_Set "Content-Type" "application/json" ∅;
     Bytes := json_text
       "{'details':'Invalid input provided','message':'Bad Request'}" |}.

(** [TestRetryMechanism]: status 500 with an empty body. *)
Definition internal_error : req_Response :=
  {| StatusCode := 500; Header := ∅; Bytes := "" |}.

(** A 400 reply whose message is the empty string. *)
Definition empty_message : req_Response :=
  {| StatusCode := 400;
     Header := Header_Set "Content-Type" "application/json" ∅;
     Bytes := json_text "{'message':''}" |}.

(** The headers of [TestAllListMethodsPagination]: x-next-page is absent. *)
Definition test_headers : gmap string (list string) :=
  Header_Set "x-total-pages" "5"
    (Header_Set "x-total" "50"
       (Header_Set "x-per-page" "10" (Header_Set "x-page" "1" ∅))).

(** The client [NewClient("test-token")] builds on an empty heap. *)
Definition test_store : Store := snd (NewClient "test-token" [] ∅).
Definition test_client : loc := fresh (dom (∅ : Store)).
Definition test_Client : Client :=
  init_services test_client
    (set_client (SetBaseURL "https://gitness.com/api/v1") (new_Client "test-token")).

(** The options of [TestNewClientWithOptions]. *)
Definition test_options : list ClientOptionFunc :=
  [WithBaseURL "https://custom.gitness.com/"; WithTimeout (30 * Second);
   WithDebug; WithRetry 3].

(** 2024-02-29T06:30:00-05:30, and the zero [Time]. *)
Definition leap_day : Time := {| unix := 1709208000; nsec := 0; offset := -19800 |}.

(** [n] arrays inside each other around the number 1. *)
Fixpoint repeat_before (n : nat) (c : ascii) (tail : string) : string :=
  match n with
  | O => tail
  | S n' => String c (repeat_before n' c tail)
  end.

Definition nested_arrays (n : Z) : string :=
  repeat_before (Z.to_nat n) "[" (String "1" (repeat_before (Z.to_nat n) "]" "")).


(** ** Service methods that build their request by hand

    [ListCommits] and [ListPaths] (repositories.go) and [ListTags] do not
    go through [performListRequest]: they take a fresh request from the req
    client, set the query parameters themselves and hand req the relative
    path, which req joins to the base URL of the req client. *)

(** [fmt.Sprintf("%t", b)]. *)
Definition format_bool (b : bool) : string := if b then "true" else "false".

Module ListCommitsOptions.
Record t := {
  ListOptions : ListOptions.t;
  GitRef : option string;
  After : option string;
  Since : option Time;
  Until : option Time;
  Path : option string }.
End ListCommitsOptions.

Module ListPathsOptions.
Record t := {
  GitRef : option string;
  Path : option string;
  IncludeCommit : option bool }.
End ListPathsOptions.

(** [ListTagsOptions] embeds [ListOptions] and declares [Query], [Sort] and
    [Order] again: [opt.Sort] is the outer field, [opt.ListOptions.Sort]
    the embedded one. *)
Module ListTagsOptions.
Record t := {
  ListOptions : ListOptions.t;
  Query : option string;
  Sort : option string;
  Order : option string;
  IncludeCommit : option bool }.
End ListTagsOptions.

(** The tail of these methods: the response and the error they return for
    what req returned. *)
Definition paginated (o : outcome) : option Response.t * option error :=
  match o with
  | Failed resp err => (Some (Response.of_resp resp), Some err)
  | Done resp =>
      match checkResponse resp with
      | Some err => (Some (Response.of_resp (Some resp)), Some err)
      | None =>
          let response := Response.of_resp (Some resp) in
          (Some (parsePaginationHeaders response), None)
      end
  end.

(** The request [ListCommits] hands to req. *)
Definition ListCommits_request (x : Context) (repoPath : string)
  (opt : option ListCommitsOptions.t) : req_Request :=
  let path := "repos/" +:+ repoPath +:+ "/commits" in
  let req := SetContext x R in
  let req :=
    match opt with
    | None => req
    | Some opt =>
        let req := buildQueryParams req (Some (ListCommitsOptions.ListOptions opt)) in
        let req :=
          match ListCommitsOptions.GitRef opt with
          | Some v => SetQueryParam "git_ref" v req
          | None => req
          end in
        let req :=
          match ListCommitsOptions.After opt with
          | Some v => SetQueryParam "after" v req
          | None => req
          end in
        let req :=
          match ListCommitsOptions.Since opt with
          | Some t => SetQueryParam "since" (Time_String t) req
          | None => req
          end in
        let req :=
          match ListCommitsOptions.Until opt with
          | Some t => SetQueryParam "until" (Time_String t) req
          | None => req
          end in
        match ListCommitsOptions.Path opt with
        | Some v => SetQueryParam "path" v req
        | None => req
        end
    end in
  let req := SetSuccessResult (Some "commits") req in
  with_target "GET" path req.

(** The request [ListPaths] hands to req, for options that are not nil. *)
Definition ListPaths_request (x : Context) (repoPath : string)
  (opt : ListPathsOptions.t) : req_Request :=
  let path := "repos/" +:+ repoPath +:+ "/paths" in
  let req := SetContext x R in
  let req :=
    match ListPathsOptions.GitRef opt with
    | Some v => SetQueryParam "git_ref" v req
    | None => req
    end in
  let req :=
    match ListPathsOptions.Path opt with
    | Some v => SetQueryParam "path" v req
    | None => req
    end in
  let req :=
    match ListPathsOptions.IncludeCommit opt with
    | Some b => SetQueryParam "include_commit" (format_bool b) req
    | None => req
    end in
  let req := SetSuccessResult (Some "nodes") req in
  with_target "GET" path req.

(** The request [ListTags] hands to req. *)
Definition ListTags_request (x : Context) (repoPath : string)
  (opt : option ListTagsOptions.t) : req_Request :=
  let path := "repos/" +:+ repoPath +:+ "/tags" in
  let req := SetContext x R in
  let req :=
    match opt with
    | None => req
    | Some opt =>
        let req := buildQueryParams req (Some (ListTagsOptions.ListOptions opt)) in
        let req :=
          match ListTagsOptions.Query opt with
          | Some v => SetQueryParam "query" v req
          | None => req
          end in
        let req :=
          match ListTagsOptions.Sort opt with
          | Some v => SetQueryParam "sort" v req
          | None => req
          end in
        let req :=
          match ListTagsOptions.Order opt with
          | Some v => SetQueryParam "order" v req
          | None => req
          end in
        match ListTagsOptions.IncludeCommit opt with
        | Some b => SetQueryParam "include_commit" (format_bool b) req
        | None => req
        end
    end in
  let req := SetSuccessResult (Some "tags") req in
  with_target "GET" path req.

Section DirectRequests.

Variable roundTrip : req_Client -> req_Request -> outcome.

Definition ListCommits (s : RepositoriesService) (x : Context)
  (repoPath : string) (opt : option ListCommitsOptions.t)
  : M (option Response.t * option error) :=
  (let* cl := deref (svc_client s) in
   ret (paginated (roundTrip (client cl) (ListCommits_request x repoPath opt))))%M.

(** [ListPaths] reads [opt.GitRef] without a nil check: a nil [opt]
    panics. *)
Definition ListPaths (s : RepositoriesService) (x : Context)
  (repoPath : string) (opt : option ListPathsOptions.t)
  : M (option Response.t * option error) :=
  (let* cl := deref (svc_client s) in
   let* opt := lift_option opt in
   ret (paginated (roundTrip (client cl) (ListPaths_request x repoPath opt))))%M.

Definition ListTags (s : RepositoriesService) (x : Context)
  (repoPath : string) (opt : option ListTagsOptions.t)
  : M (option Response.t * option error) :=
  (let* cl := deref (svc_client s) in
   ret (paginated (roundTrip (client cl) (ListTags_request x repoPath opt))))%M.

End DirectRequests.

(** ** Further notions *)

(** A time that the layout RFC 3339 can write: a year of four digits and a
    zone offset of whole minutes, less than a day. *)
Definition formattable (t : time_Time) : Prop :=
  0 <= year_of t <= 9999 /\ offset t mod 60 = 0 /\ -86400 < offset t < 86400.

(** The time without its fraction of a second. *)
Definition whole_second (t : time_Time) : time_Time :=
  {| unix := unix t; nsec := 0; offset := offset t |}.

(** The options this package exports. *)
Inductive package_option : ClientOptionFunc -> Prop :=
  | package_WithBaseURL (u : string) : package_option (WithBaseURL u)
  | package_WithHTTPClient : package_option WithHTTPClient
  | package_WithTimeout (d : Z) : package_option (WithTimeout d)
  | package_WithDebug : package_option WithDebug
  | package_WithRetry (n : Z) : package_option (WithRetry n).

(** An ASCII control byte, as [stringContainsCTLByte] tests it. *)
Definition is_CTL (c : ascii) : bool := (byte c <? 32) || (byte c =? 127).

(** Bytes of a host name: letters, digits, dots and dashes. *)
Definition host_byte (c : ascii) : bool := is_alnum c || char_in c "-.".

(** An operation run on the heap [σ] returns and leaves the heap alone; the
    [*Response] it returns is nil exactly when the round trip [o] failed,
    and wraps the reply of a round trip that did not. *)
Definition nil_response_iff_failed
  (op : M (option Response.t * option error)) (o : outcome) (σ : Store) : Prop :=
  exists resp err,
    op σ = Some ((resp, err), σ)
    /\ (resp = None <-> request_failed o)
    /\ (forall reply, o = Done reply ->
        Response.Response <$> resp = Some (Some reply)).

(** An operation run on the heap [σ] returns, leaves the heap alone and
    returns a [*Response] that is not nil, which wraps what req returned
    for the round trip [o]. *)
Definition response_never_nil
  (op : M (option Response.t * option error)) (o : outcome) (σ : Store) : Prop :=
  exists resp err,
    op σ = Some ((Some resp, err), σ)
    /\ Response.Response resp =
         match o with
         | Done reply => Some reply
         | Failed reply _ => reply
         end.

(** The pagination field [field] is nil when the header stored under the
    canonical key [key] is there but its first value is not an integer that
    [strconv.Atoi] accepts, or when it has no value at all. *)
Definition nil_on_non_integer (resp : req_Response) (key : string)
  (field : option Z) : Prop :=
  (forall v rest,
     Header resp !! key = Some (v :: rest) -> Atoi v = None -> field = None)
  /\ (Header resp !! key = Some [] -> field = None).

(** * Properties *)

#[local] Arguments String.append : simpl nomatch.

(** ** The model on sample inputs, among them those of the repository's tests *)

Example format_int_zero : format_int 0 = "0".
Proof. reflexivity. Qed.

Example format_int_negative : format_int (-120) = "-120".
Proof. reflexivity. Qed.

Example format_int_max : format_int maxInt = "9223372036854775807".
Proof. reflexivity. Qed.

Example Atoi_plus_sign : Atoi "+12" = Some 12.
Proof. reflexivity. Qed.

Example Atoi_out_of_range : Atoi "9223372036854775808" = None.
Proof. reflexivity. Qed.

Example Atoi_min : Atoi "-9223372036854775808" = Some minInt.
Proof. reflexivity. Qed.

Example split_empty_segments : split "/" "a//b/" = ["a"; ""; "b"; ""].
Proof. reflexivity. Qed.

Example url_default_base :
  URL_String <$> url_Parse "https://gitness.com/" = Some "https://gitness.com/".
Proof. reflexivity. Qed.

Example url_test_server :
  URL_String <$> url_Parse "http://127.0.0.1:4321/" = Some "http://127.0.0.1:4321/".
Proof. reflexivity. Qed.

Example url_space_in_path :
  URL_String <$> url_Parse "http://u:p@h.x:80/a%2Fb/c d?x=1#f"
  = Some "http://u:p@h.x:80/a/b/c%20d?x=1#f".
Proof. reflexivity. Qed.

Example url_raw_path_kept :
  URL_String <$> url_Parse "http://u:p@h.x:80/a%2Fb/c?x=1#f"
  = Some "http://u:p@h.x:80/a%2Fb/c?x=1#f".
Proof. reflexivity. Qed.

(** A base URL with a port and no final slash: what [buildFullURL] hands to
    [url.Parse] has an invalid port. *)
Example url_port_without_slash : url_Parse "http://localhost:3000api/v1/" = None.
Proof. reflexivity. Qed.

Example url_bracketed_host :
  URL_String <$> url_Parse "http://[::1]:3000/api/v1/"
  = Some "http://[::1]:3000/api/v1/"
  /\ Host <$> url_Parse "http://[fe80::1%25en0]:80/" = Some "[fe80::1%en0]:80"
  /\ url_Parse "http://[::1]x/" = None
  /\ url_Parse "http://[::1/" = None.
Proof. repeat split; reflexivity. Qed.

Example buildFullURL_bracketed_host :
  buildFullURL (set_baseURL "http://[::1]:3000/" test_Client) "repos/demo"
  = Some "http://[::1]:3000/api/v1/repos/demo".
Proof. reflexivity. Qed.

Example url_omitted_host :
  URL_String <$> url_Parse "http:/x/api/v1/" = Some "http:/x/api/v1/"
  /\ buildFullURL (set_baseURL "http:/x/" test_Client) "user"
     = Some "http:///x/api/v1/user".
Proof. split; reflexivity. Qed.

Example resolvePath_dots : resolvePath "/a/b/c" "../d/./e/.." = "/a/d/".
Proof. reflexivity. Qed.

Example resolvePath_keeps_empty_segments :
  resolvePath "/api/v1/" "repos/x//y/" = "/api/v1/repos/x//y/".
Proof. reflexivity. Qed.

Example resolvePath_above_root : resolvePath "/a/b" "../../../x" = "/x".
Proof. reflexivity. Qed.

Example PathEscape_slash : PathEscape "ci/demo" = "ci%2Fdemo".
Proof. reflexivity. Qed.

Example json_error_body :
  json_Unmarshal_map
    (json_text "{'message': 'Bad Request', 'details':'Invalid input provided'}")
  = Some (<["details" := JString "Invalid input provided"]>
            {["message" := JString "Bad Request"]}).
Proof. vm_compute. reflexivity. Qed.

Example json_all_kinds :
  json_decode
    (json_text " [1, -2.5e+3, true, null, {'a':{}} , 'x\u00e9\n\ud83d\ude00'] ")
  = Some (JArray
            [JNumber "1"; JNumber "-2.5e+3"; JBool true; JNull;
             JObject {["a" := JObject ∅]};
             JString
               ("x" +:+ String (chr 195) (String (chr 169) (String (chr 10)
                  (String (chr 240) (String (chr 159) (String (chr 152)
                     (String (chr 128) "")))))))]).
Proof. vm_compute. reflexivity. Qed.

Example json_array_into_map : json_Unmarshal_map "[1]" = None.
Proof. reflexivity. Qed.

Example json_null_into_map : json_Unmarshal_map "null" = Some ∅.
Proof. reflexivity. Qed.

Example json_trailing_comma : json_Unmarshal_map (json_text "{'a':1,}") = None.
Proof. reflexivity. Qed.

Example json_empty_input : json_Unmarshal_map "" = None.
Proof. reflexivity. Qed.

Example json_leading_zero : json_Unmarshal_map (json_text "{'a':01}") = None.
Proof. reflexivity. Qed.

Example json_repeated_key :
  json_Unmarshal_map (json_text "{'a':1, 'a':2} ") = Some {["a" := JNumber "2"]}.
Proof. vm_compute. reflexivity. Qed.

Example json_trailing_text : json_Unmarshal_map (json_text "{'a':1} x") = None.
Proof. reflexivity. Qed.

Example json_number_out_of_range :
  json_Unmarshal_map (json_text "{'message':'boom','n':1e999}") = None
  /\ json_Unmarshal_map (json_text "{'n':[-1.7976931348623159e308]}") = None
  /\ json_Unmarshal_map (json_text "{'n':1.7976931348623158e308}")
     = Some {[ "n" := JNumber "1.7976931348623158e308" ]}
  /\ json_Unmarshal_map (json_text "{'n':1e-999}")
     = Some {[ "n" := JNumber "1e-999" ]}.
Proof. repeat split; vm_compute; reflexivity. Qed.

Example json_nesting_limit :
  is_Some (json_decode (nested_arrays 10000))
  /\ json_decode (nested_arrays 10001) = None
  /\ json_Unmarshal_map (json_text "{'message':'deep','a':" +:+ nested_arrays 10000 +:+ "}")
     = None.
Proof.
  split; [|split].
  - assert (match json_decode (nested_arrays 10000) with
            | Some _ => true
            | None => false
            end = true) as H by (vm_compute; reflexivity).
    destruct (json_decode (nested_arrays 10000)); [eexists; reflexivity | discriminate H].
  - vm_compute. reflexivity.
  - vm_compute. reflexivity.
Qed.

Example json_ill_formed_utf8 :
  json_Unmarshal_map
    (json_text "{'message':'a" +:+ String (chr 233) (json_text "b'}"))
  = Some {[ "message" :=
              JString (String "a" (String (chr 239) (String (chr 191)
                         (String (chr 189) "b")))) ]}
  /\ json_Unmarshal_map
       (json_text "{'message':'a"
        +:+ String (chr 195) (String (chr 169) (json_text "b'}")))
     = Some {[ "message" :=
                 JString (String "a" (String (chr 195) (String (chr 169) "b"))) ]}.
Proof. split; vm_compute; reflexivity. Qed.

Example json_string_value :
  json_Unmarshal_string (json_text "'2024-01-02T03:04:05Z'")
  = Some "2024-01-02T03:04:05Z".
Proof. reflexivity. Qed.

(** [TestNewClientWithOptions] and [TestNewClientWithReqV3]. *)
Example NewClient_custom_base :
  baseURL <$> snd (NewClient "test-token" test_options ∅) !! test_client
  = Some "https://custom.gitness.com/".
Proof. vm_compute. reflexivity. Qed.

Example NewClient_defaults :
  token <$> test_store !! test_client = Some "test-token"
  /\ baseURL <$> test_store !! test_client = Some defaultBaseURL.
Proof. vm_compute. split; reflexivity. Qed.

Example civil_epoch : civil_from_days 0 = (1970, 1, 1).
Proof. reflexivity. Qed.

Example civil_leap_day : civil_from_days 19782 = (2024, 2, 29).
Proof. reflexivity. Qed.

Example civil_year_zero : civil_from_days (-719528) = (0, 1, 1).
Proof. reflexivity. Qed.

Example days_march_2000 : days_from_civil 2000 3 1 = 11017.
Proof. reflexivity. Qed.

Example Format_utc :
  Format_RFC3339 {| unix := 1709208000; nsec := 0; offset := 0 |}
  = "2024-02-29T12:00:00Z".
Proof. reflexivity. Qed.

Example Format_west : Format_RFC3339 leap_day = "2024-02-29T06:30:00-05:30".
Proof. reflexivity. Qed.

Example Format_year_10000 :
  Format_RFC3339 {| unix := 253402300800; nsec := 0; offset := 0 |}
  = "10000-01-01T00:00:00Z".
Proof. reflexivity. Qed.

Example Format_year_before_zero :
  Format_RFC3339 {| unix := -62198755200; nsec := 0; offset := 0 |}
  = "-0001-01-01T00:00:00Z".
Proof. reflexivity. Qed.

Example parse_west : parseRFC3339 "2024-02-29T06:30:00-05:30" = Some leap_day.
Proof. reflexivity. Qed.

Example parse_no_leap_day : parseRFC3339 "2023-02-29T06:30:00Z" = None.
Proof. reflexivity. Qed.

Example parse_fraction_truncated :
  parseRFC3339 "2024-02-29T06:30:00.1234567891Z"
  = Some {| unix := 1709188200; nsec := 123456789; offset := 0 |}.
Proof. reflexivity. Qed.

Example MarshalJSON_east :
  fst (MarshalJSON {| unix := 0; nsec := 0; offset := 3600 |})
  = json_text "'1970-01-01T01:00:00+01:00'".
Proof. reflexivity. Qed.

(** ** Decimal rendering and parsing *)

Lemma digit_val_chr (d : Z) : 0 <= d <= 9 -> digit_val (digit_chr d) = Some d.
Proof.
  intros H.
  assert (d = 0 \/ d = 1 \/ d = 2 \/ d = 3 \/ d = 4 \/ d = 5 \/ d = 6
          \/ d = 7 \/ d = 8 \/ d = 9) as Hd by lia.
  repeat destruct Hd as [-> | Hd]; try subst d; reflexivity.
Qed.

Lemma is_digit_chr (d : Z) : 0 <= d <= 9 -> is_digit (digit_chr d) = true.
Proof.
  intros H. pose proof (digit_val_chr d H) as Hv.
  unfold digit_val in Hv. destruct (is_digit (digit_chr d)); congruence.
Qed.

Lemma is_digit_not_sign (c : ascii) :
  is_digit c = true -> Ascii.eqb c "-" = false /\ Ascii.eqb c "+" = false.
Proof.
  destruct c as [[] [] [] [] [] [] [] []]; vm_compute; intros; split; congruence.
Qed.

Lemma parse_digits_format_aux (fuel : nat) :
  forall n acc, 0 <= n < 2 ^ Z.of_nat fuel ->
    parse_digits 0 (format_uint_aux fuel n acc) = parse_digits n acc.
Proof.
  induction fuel as [|fuel IH]; intros n acc Hn.
  - simpl in *. assert (n = 0) as -> by lia. reflexivity.
  - cbn [format_uint_aux].
    assert (0 <= n mod 10 <= 9) as Hd by (pose proof (Z.mod_pos_bound n 10); lia).
    assert (n = 10 * (n / 10) + n mod 10) as Hdm by (apply Z.div_mod; lia).
    destruct (Z.eqb_spec (n / 10) 0) as [Hz | Hnz].
    + cbn [parse_digits]. rewrite digit_val_chr by exact Hd.
      f_equal. lia.
    + rewrite IH.
      * cbn [parse_digits]. rewrite digit_val_chr by exact Hd. f_equal. lia.
      * rewrite Nat2Z.inj_succ, Z.pow_succ_r in Hn by lia.
        assert (0 <= n / 10) by (apply Z.div_pos; lia). lia.
Qed.

Lemma format_aux_digits (fuel : nat) :
  forall n acc, 0 <= n -> string_forall is_digit acc = true ->
    string_forall is_digit (format_uint_aux fuel n acc) = true.
Proof.
  induction fuel as [|fuel IH]; intros n acc Hn Hacc; [exact Hacc|].
  cbn [format_uint_aux].
  assert (string_forall is_digit (String (digit_chr (n mod 10)) acc) = true) as H.
  { cbn [string_forall]. rewrite Hacc, is_digit_chr; [reflexivity|].
    pose proof (Z.mod_pos_bound n 10). lia. }
  destruct (n / 10 =? 0); [exact H|].
  apply IH; [apply Z.div_pos; lia | exact H].
Qed.

Lemma format_aux_nonempty (fuel : nat) :
  forall n acc, format_uint_aux (S fuel) n acc <> "".
Proof.
  induction fuel as [|fuel IH]; intros n acc.
  - cbn. destruct (n / 10 =? 0); discriminate.
  - cbn [format_uint_aux]. destruct (n / 10 =? 0); [discriminate|].
    apply IH.
Qed.

Lemma parse_digits_format_uint (n : Z) :
  0 <= n -> parse_digits 0 (format_uint n) = Some n.
Proof.
  intros Hn. unfold format_uint.
  rewrite parse_digits_format_aux; [reflexivity|].
  split; [exact Hn|].
  rewrite Nat2Z.inj_succ, Z2Nat.id by apply Z.log2_nonneg.
  destruct (Z.eq_dec n 0) as [-> | Hnz]; [reflexivity|].
  apply Z.log2_spec. lia.
Qed.

(** [strconv.Atoi] reads back what [%d] prints, for every value of [int]. *)
Lemma Atoi_format_int (n : Z) :
  minInt <= n <= maxInt -> Atoi (format_int n) = Some n.
Proof.
  intros Hr. unfold format_int.
  destruct (Z.ltb_spec n 0) as [Hneg | Hpos].
  - unfold Atoi. cbn [Ascii.eqb Bool.eqb orb].
    replace (Ascii.eqb "-" "-") with true by reflexivity. cbn [orb].
    pose proof (format_aux_nonempty (Z.to_nat (Z.log2 (- n))) (- n) "") as Hne.
    fold (format_uint (- n)) in Hne.
    destruct (format_uint (- n)) as [|c s] eqn:E; [congruence|].
    rewrite <- E, parse_digits_format_uint by lia.
    rewrite Z.opp_involutive.
    destruct (Z.leb_spec minInt n), (Z.leb_spec n maxInt); try lia. reflexivity.
  - pose proof (format_aux_nonempty (Z.to_nat (Z.log2 n)) n "") as Hne.
    pose proof (format_aux_digits (S (Z.to_nat (Z.log2 n))) n "" Hpos eq_refl) as Hd.
    fold (format_uint n) in Hne, Hd.
    destruct (format_uint n) as [|c s] eqn:E; [congruence|].
    cbn [string_forall] in Hd. apply andb_prop in Hd as [Hc _].
    destruct (is_digit_not_sign c Hc) as [Hm Hp].
    unfold Atoi. rewrite Hm, Hp. cbn [orb].
    rewrite <- E, parse_digits_format_uint by lia.
    destruct (Z.leb_spec minInt n), (Z.leb_spec n maxInt); try lia. reflexivity.
Qed.

(** ** Pagination headers *)

Lemma parse_header_int_present (h : gmap string (list string)) key v rest n old :
  h !! CanonicalMIMEHeaderKey key = Some (v :: rest) -> Atoi v = Some n ->
  parse_header_int h key old = Some n.
Proof.
  intros Hh Hv. unfold parse_header_int, Header_Get. rewrite Hh.
  destruct v as [|c v]; [discriminate Hv|]. cbn [string_nonempty].
  rewrite Hv. reflexivity.
Qed.

Lemma parse_header_int_absent (h : gmap string (list string)) key old :
  h !! CanonicalMIMEHeaderKey key = None -> parse_header_int h key old = old.
Proof.
  intros Hh. unfold parse_header_int, Header_Get. rewrite Hh. reflexivity.
Qed.

Lemma parse_header_int_follows resp key :
  follows_header resp (CanonicalMIMEHeaderKey key)
    (parse_header_int (Header resp) key None).
Proof.
  split.
  - intros v rest n Hh Hv. exact (parse_header_int_present _ _ _ _ _ _ Hh Hv).
  - intros Hh. exact (parse_header_int_absent _ _ _ Hh).
Qed.

(** C2. On the response that [Get] and [performListRequest] build for a
    successful reply, [parsePaginationHeaders] makes [Page], [PerPage],
    [NextPage], [Total] and [TotalPages] follow the headers x-page,
    x-per-page, x-next-page, x-total and x-total-pages (stored by net/http
    under their canonical keys): each field holds the integer that the
    header's first value parses to with [strconv.Atoi], and stays nil when
    the header is absent. *)
Theorem parsePaginationHeaders_fields (resp : req_Response) :
  let r := parsePaginationHeaders (Response.of_resp (Some resp)) in
  Response.Response r = Some resp
  /\ follows_header resp "X-Page" (Response.Page r)
  /\ follows_header resp "X-Per-Page" (Response.PerPage r)
  /\ follows_header resp "X-Next-Page" (Response.NextPage r)
  /\ follows_header resp "X-Total" (Response.Total r)
  /\ follows_header resp "X-Total-Pages" (Response.TotalPages r).
Proof.
  cbn zeta. unfold parsePaginationHeaders. cbn [Response.of_resp Response.Response
    Response.Page Response.PerPage Response.NextPage Response.Total
    Response.TotalPages].
  split; [reflexivity|].
  repeat split.
  all: try (intros v rest n Hh Hv;
            eapply parse_header_int_present; [exact Hh | exact Hv]).
  all: intros Hh; eapply (parse_header_int_absent _ _ None); exact Hh.
Qed.

Lemma parsePaginationHeaders_fields_witness :
  let resp := {| StatusCode := 200; Header := test_headers; Bytes := "[]" |} in
  let r := parsePaginationHeaders (Response.of_resp (Some resp)) in
  Response.Page r = Some 1 /\ Response.PerPage r = Some 10
  /\ Response.NextPage r = None /\ Response.Total r = Some 50
  /\ Response.TotalPages r = Some 5.
Proof.
  intros resp r.
  destruct (parsePaginationHeaders_fields resp)
    as (_ & [P1 _] & [P2 _] & [_ P3] & [P4 _] & [P5 _]).
  refine (conj _ (conj _ (conj _ (conj _ _)))).
  - exact (P1 "1" [] 1 eq_refl eq_refl).
  - exact (P2 "10" [] 10 eq_refl eq_refl).
  - exact (P3 eq_refl).
  - exact (P4 "50" [] 50 eq_refl eq_refl).
  - exact (P5 "5" [] 5 eq_refl eq_refl).
Defined.

Section PaginationOfHelpers.

Variable roundTrip : req_Client -> req_Request -> outcome.

(** [Get] and [performListRequest] return, for a reply in the success
    state, the response that [parsePaginationHeaders] filled in. *)
Lemma Get_success_response (c : loc) (cl : Client) (σ : Store) x path result
  req resp :
  σ !! c = Some cl -> Get_request cl x path result = Some req ->
  roundTrip (client cl) req = Done resp -> IsSuccessState resp = true ->
  Get roundTrip c x path result σ
  = Some ((Some (parsePaginationHeaders (Response.of_resp (Some resp))), None), σ).
Proof.
  intros Hc Hreq Hrt Hok. unfold Get, bind, deref.
  rewrite Hc, Hreq. cbn [lift_option ret]. rewrite Hrt.
  unfold checkResponse. rewrite Hok. reflexivity.
Qed.

Lemma performListRequest_success_response (c : loc) (cl : Client) (σ : Store)
  x path opt result req resp :
  σ !! c = Some cl ->
  performListRequest_request cl x path opt result = Some req ->
  roundTrip (client cl) req = Done resp -> IsSuccessState resp = true ->
  performListRequest roundTrip c x path opt result σ
  = Some ((Some (parsePaginationHeaders (Response.of_resp (Some resp))), None), σ).
Proof.
  intros Hc Hreq Hrt Hok. unfold performListRequest, bind, deref.
  rewrite Hc, Hreq. cbn [lift_option ret]. rewrite Hrt.
  unfold checkResponse. rewrite Hok. reflexivity.
Qed.

End PaginationOfHelpers.

(** ** Query parameters *)

Lemma buildQueryParams_lookup (req : req_Request) (opt : ListOptions.t)
  (key : string) :
  QueryParams (buildQueryParams req (Some opt)) !! key =
    match expected_param opt key with
    | Some v => Some [v]
    | None => QueryParams req !! key
    end.
Proof.
  destruct opt as [[p|] [l|] [s|] [o|] [q|]];
    unfold expected_param;
    cbn [buildQueryParams ListOptions.Page ListOptions.Limit ListOptions.Sort
         ListOptions.Order ListOptions.Query SetQueryParam QueryParams fmap
         option_fmap option_map];
    repeat match goal with
           | |- context [String.eqb key ?k] =>
               destruct (String.eqb_spec key k) as [-> | ?]
           end;
    simplify_map_eq; reflexivity.
Qed.

(** C6. [buildQueryParams] leaves the request alone for a nil [ListOptions];
    otherwise every query parameter [key] of the request afterwards is the
    one expected from the options (page and limit in decimal, sort, order
    and query as given, each only when its field is non-nil), any other
    parameter is as it was before, and nothing else of the request
    changes; on a fresh request the parameters are exactly the expected
    ones. *)
Theorem buildQueryParams_sets_exactly (req : req_Request) (opt : ListOptions.t)
  (key : string) :
  buildQueryParams req None = req
  /\ QueryParams (buildQueryParams req (Some opt)) !! key =
       match expected_param opt key with
       | Some v => Some [v]
       | None => QueryParams req !! key
       end
  /\ QueryParams (buildQueryParams R (Some opt)) !! key
     = (fun v => [v]) <$> expected_param opt key
  /\ Method (buildQueryParams req (Some opt)) = Method req
  /\ RawURL (buildQueryParams req (Some opt)) = RawURL req
  /\ Body (buildQueryParams req (Some opt)) = Body req
  /\ Result (buildQueryParams req (Some opt)) = Result req
  /\ ctx (buildQueryParams req (Some opt)) = ctx req.
Proof.
  split; [reflexivity|].
  split; [apply buildQueryParams_lookup|].
  split.
  - rewrite buildQueryParams_lookup.
    destruct (expected_param opt key); [reflexivity|].
    cbn [R QueryParams fmap option_fmap option_map]. apply lookup_empty.
  - destruct opt as [[p|] [l|] [s|] [o|] [q|]]; repeat split; reflexivity.
Qed.

(** ** Error responses *)

Lemma IsSuccessState_2xx (r : req_Response) :
  IsSuccessState r = true <-> is_2xx (StatusCode r).
Proof.
  unfold IsSuccessState, is_2xx.
  rewrite andb_true_iff, !Z.ltb_lt. lia.
Qed.

Lemma checkResponse_success (r : req_Response) :
  IsSuccessState r = true -> checkResponse r = None.
Proof. intros H. unfold checkResponse. rewrite H. reflexivity. Qed.

(** The fields of the error built for a response that is not a success. *)
Lemma checkResponse_failure (r : req_Response) :
  IsSuccessState r = false ->
  exists e,
    checkResponse r = Some (ErrorResponse_error e)
    /\ ErrorResponse.Response e = Some r
    /\ ErrorResponse.Message e =
         (let m := default "" (body ← json_Unmarshal_map (Bytes r);
                               as_string (body !! "message")) in
          if String.eqb m "" then
            "HTTP " +:+ format_int (StatusCode r) +:+ ": "
            +:+ StatusText (StatusCode r)
          else m)
    /\ ErrorResponse.Details e =
         default "" (body ← json_Unmarshal_map (Bytes r);
                     as_string (body !! "details")).
Proof.
  intros H. unfold checkResponse. rewrite H.
  destruct (json_Unmarshal_map (Bytes r)) as [body|];
    cbn [mbind option_bind default from_option id].
  - destruct (as_string (body !! "message")) as [m|],
             (as_string (body !! "details")) as [d|];
      cbn [ErrorResponse.Message ErrorResponse.Details ErrorResponse.Response
           default from_option id];
      try destruct (String.eqb m "");
      eexists; repeat split; reflexivity.
  - eexists. repeat split; reflexivity.
Qed.

Lemma checkResponse_none_iff (r : req_Response) :
  checkResponse r = None <-> is_2xx (StatusCode r).
Proof.
  rewrite <- IsSuccessState_2xx.
  destruct (IsSuccessState r) eqn:E.
  - rewrite checkResponse_success by exact E. tauto.
  - destruct (checkResponse_failure r E) as (e & -> & _). split; discriminate.
Qed.

Lemma as_string_Some (v : option JSON) (s : string) :
  v = Some (JString s) -> as_string v = Some s.
Proof. intros ->. reflexivity. Qed.

Lemma checked_error_iff (o : outcome) :
  snd (checked o) <> None <->
  request_failed o \/ exists code, status_of o = Some code /\ ~ is_2xx code.
Proof.
  destruct o as [resp | resp err]; cbn [checked request_failed status_of].
  - pose proof (checkResponse_none_iff resp) as Hn.
    destruct (checkResponse resp) as [e|]; cbn [snd].
    + split; [intros _ | discriminate].
      right. exists (StatusCode resp). split; [reflexivity|].
      intros H2. apply Hn in H2. discriminate.
    + split; [congruence|]. intros [[] | (code & [= <-] & Hc)].
      exfalso. apply Hc, Hn. reflexivity.
  - cbn [snd]. split; [intros _; left; exact I | discriminate].
Qed.

Section ErrorSignalling.

Variable roundTrip : req_Client -> req_Request -> outcome.

Lemma Get_errs (c : loc) (cl : Client) (σ : Store) x path result req :
  σ !! c = Some cl -> Get_request cl x path result = Some req ->
  errs_iff_failed_or_non_2xx (Get roundTrip c x path result)
    (roundTrip (client cl) req) σ.
Proof.
  intros Hc Hreq. unfold errs_iff_failed_or_non_2xx, Get, bind, deref.
  rewrite Hc, Hreq. cbn [lift_option ret].
  pose proof (checked_error_iff (roundTrip (client cl) req)) as Hiff.
  destruct (roundTrip (client cl) req) as [resp | resp err];
    cbn [checked snd] in Hiff.
  - destruct (checkResponse resp) as [e|]; cbn [snd] in Hiff;
      eexists _, _; (split; [reflexivity | exact Hiff]).
  - eexists _, _. split; [reflexivity | exact Hiff].
Qed.

Lemma body_request_errs (op : loc -> Context -> string -> M _) method
  (c : loc) (cl : Client) (σ : Store) x path body result req :
  (forall σ, op c x path σ =
     (let* cl := deref c in
      let* req := lift_option (body_request method cl x path body result) in
      ret (checked (roundTrip (client cl) req)))%M σ) ->
  σ !! c = Some cl -> body_request method cl x path body result = Some req ->
  errs_iff_failed_or_non_2xx (op c x path) (roundTrip (client cl) req) σ.
Proof.
  intros Hop Hc Hreq. unfold errs_iff_failed_or_non_2xx.
  rewrite Hop. unfold bind, deref. rewrite Hc, Hreq. cbn [lift_option ret].
  destruct (checked (roundTrip (client cl) req)) as [resp err] eqn:E.
  exists resp, err. split; [reflexivity|].
  rewrite <- checked_error_iff, E. reflexivity.
Qed.

(** C1 (as amended). [checkResponse] returns nil for a response in the
    success state.  For any other response it returns an [ErrorResponse]
    that carries the response; when [json.Unmarshal] accepts the body as a
    map, its [Message] is the string under the key message when that
    string is not empty and the status line (HTTP, the code, a colon and
    the status text) when it is empty, and its [Details] is the string
    under the key details.  [Get], [Post], [Put], [Patch] and [Delete], run
    on an allocated client whose base URL parses, return, and return a
    non-nil error exactly when the round trip fails or its status is
    outside 2xx. *)
Theorem checkResponse_error_fields (r : req_Response) (c : loc) (cl : Client)
  (σ : Store) (x : Context) (path : string) (body result : any) :
  (IsSuccessState r = true -> checkResponse r = None)
  /\ (IsSuccessState r = false ->
      exists e,
        checkResponse r = Some (ErrorResponse_error e)
        /\ ErrorResponse.Response e = Some r
        /\ (forall errorBody m,
              json_Unmarshal_map (Bytes r) = Some errorBody ->
              errorBody !! "message" = Some (JString m) -> m <> "" ->
              ErrorResponse.Message e = m)
        /\ (forall errorBody,
              json_Unmarshal_map (Bytes r) = Some errorBody ->
              errorBody !! "message" = Some (JString "") ->
              ErrorResponse.Message e =
                "HTTP " +:+ format_int (StatusCode r) +:+ ": "
                +:+ StatusText (StatusCode r))
        /\ (forall errorBody d,
              json_Unmarshal_map (Bytes r) = Some errorBody ->
              errorBody !! "details" = Some (JString d) ->
              ErrorResponse.Details e = d))
  /\ (σ !! c = Some cl ->
      (forall req, Get_request cl x path result = Some req ->
         errs_iff_failed_or_non_2xx (Get roundTrip c x path result)
           (roundTrip (client cl) req) σ)
      /\ (forall req, body_request "POST" cl x path body result = Some req ->
            errs_iff_failed_or_non_2xx (Post roundTrip c x path body result)
              (roundTrip (client cl) req) σ)
      /\ (forall req, body_request "PUT" cl x path body result = Some req ->
            errs_iff_failed_or_non_2xx (Put roundTrip c x path body result)
              (roundTrip (client cl) req) σ)
      /\ (forall req, body_request "PATCH" cl x path body result = Some req ->
            errs_iff_failed_or_non_2xx (Patch roundTrip c x path body result)
              (roundTrip (client cl) req) σ)
      /\ (forall req, body_request "DELETE" cl x path body None = Some req ->
            errs_iff_failed_or_non_2xx (Delete roundTrip c x path body)
              (roundTrip (client cl) req) σ)).
Proof.
  split; [apply checkResponse_success|]. split.
  - intros Hf. destruct (checkResponse_failure r Hf) as (e & He & Hr & Hm & Hd).
    exists e. split; [exact He|]. split; [exact Hr|]. split; [|split].
    + intros errorBody m Hb Hk Hne. rewrite Hm, Hb. cbn [mbind option_bind].
      rewrite (as_string_Some _ _ Hk). cbn [default from_option id].
      destruct (String.eqb_spec m ""); [contradiction | reflexivity].
    + intros errorBody Hb Hk. rewrite Hm, Hb. cbn [mbind option_bind].
      rewrite (as_string_Some _ _ Hk). reflexivity.
    + intros errorBody d Hb Hk. rewrite Hd, Hb. cbn [mbind option_bind].
      rewrite (as_string_Some _ _ Hk). reflexivity.
  - intros Hc. split; [intros req Hreq; eapply Get_errs; eassumption|].
    repeat split; intros req Hreq.
    + eapply (body_request_errs (fun c x p => Post roundTrip c x p body result));
        [reflexivity | eassumption | eassumption].
    + eapply (body_request_errs (fun c x p => Put roundTrip c x p body result));
        [reflexivity | eassumption | eassumption].
    + eapply (body_request_errs (fun c x p => Patch roundTrip c x p body result));
        [reflexivity | eassumption | eassumption].
    + eapply (body_request_errs (fun c x p => Delete roundTrip c x p body));
        [reflexivity | eassumption | eassumption].
Qed.

End ErrorSignalling.

(** C1, the claim as it was stated, fails: for a 400 reply whose JSON body
    holds the empty string under message, the [Message] of the error is not
    that string but the status line. *)
Lemma checkResponse_message_counterexample :
  IsSuccessState empty_message = false
  /\ json_Unmarshal_map (Bytes empty_message) = Some {[ "message" := JString "" ]}
  /\ exists e,
       checkResponse empty_message = Some (ErrorResponse_error e)
       /\ ErrorResponse.Message e = "HTTP 400: Bad Request"
       /\ ErrorResponse.Message e <> "".
Proof.
  split; [reflexivity|]. split; [vm_compute; reflexivity|].
  eexists. split; [vm_compute; reflexivity|].
  split; [reflexivity | discriminate].
Qed.

Lemma test_store_lookup :
  test_store !! test_client = Some test_Client.
Proof. vm_compute. reflexivity. Qed.

Lemma checkResponse_error_fields_witness :
  (exists e,
     checkResponse bad_request = Some (ErrorResponse_error e)
     /\ ErrorResponse.Message e = "Bad Request"
     /\ ErrorResponse.Details e = "Invalid input provided")
  /\ (exists resp err,
        Get (fun _ _ => Done bad_request) test_client 0%nat "test" None test_store
        = Some ((resp, err), test_store)
        /\ err <> None).
Proof.
  destruct (checkResponse_error_fields (fun _ _ => Done bad_request) bad_request
              test_client test_Client test_store 0%nat "test" None None)
    as (_ & Hfail & Hops).
  split.
  - destruct (Hfail eq_refl) as (e & He & _ & Hm & _ & Hd).
    exists e. split; [exact He|]. split.
    + apply (Hm (<["message" := JString "Bad Request"]>
                   {["details" := JString "Invalid input provided"]}));
        [vm_compute; reflexivity | reflexivity | discriminate].
    + apply (Hd (<["message" := JString "Bad Request"]>
                   {["details" := JString "Invalid input provided"]}));
        [vm_compute; reflexivity | reflexivity].
  - destruct (Hops test_store_lookup) as (HGet & _).
    destruct (HGet _ eq_refl) as (resp & err & Hrun & Hiff).
    exists resp, err. split; [exact Hrun|].
    apply Hiff. right. exists 400. split; [reflexivity|].
    unfold is_2xx. lia.
Defined.

(** C8. For a response that is not a success, [checkResponse] returns an
    [ErrorResponse] whose [Message] is never empty, and is the text
    HTTP, the status code, a colon and the standard status text whenever
    the body does not decode to a JSON object with a string under message. *)
Theorem checkResponse_fallback_message (r : req_Response) :
  IsSuccessState r = false ->
  exists e,
    checkResponse r = Some (ErrorResponse_error e)
    /\ ErrorResponse.Message e <> ""
    /\ ((forall errorBody m,
           json_Unmarshal_map (Bytes r) = Some errorBody ->
           errorBody !! "message" <> Some (JString m)) ->
        ErrorResponse.Message e =
          "HTTP " +:+ format_int (StatusCode r) +:+ ": "
          +:+ StatusText (StatusCode r)).
Proof.
  intros Hf. destruct (checkResponse_failure r Hf) as (e & He & _ & Hm & _).
  exists e. split; [exact He|]. cbn zeta in Hm. split.
  - rewrite Hm.
    destruct (String.eqb_spec
                (default "" (json_Unmarshal_map (Bytes r)
                             ≫= λ body, as_string (body !! "message"))) "")
      as [_ | Hne]; [discriminate | exact Hne].
  - intros Hno. rewrite Hm.
    destruct (json_Unmarshal_map (Bytes r)) as [errorBody|] eqn:Hb;
      cbn [mbind option_bind default from_option id]; [|reflexivity].
    destruct (errorBody !! "message") as [[| | | m | |]|] eqn:Hk;
      cbn [as_string from_option id]; try reflexivity.
    exfalso. exact (Hno errorBody m eq_refl Hk).
Qed.

Lemma checkResponse_fallback_message_witness :
  exists e,
    checkResponse internal_error = Some (ErrorResponse_error e)
    /\ ErrorResponse.Message e = "HTTP 500: Internal Server Error".
Proof.
  destruct (checkResponse_fallback_message internal_error eq_refl)
    as (e & He & _ & Hm).
  exists e. split; [exact He|].
  rewrite Hm; [reflexivity|].
  intros errorBody m Hb. vm_compute in Hb. discriminate Hb.
Defined.

(** ** Construction of the client *)

Lemma init_services_share (c : loc) (cl : Client) :
  all_services_share c (init_services c cl).
Proof. unfold all_services_share. repeat split; reflexivity. Qed.

Lemma fresh_loc_unused (σ : Store) : σ !! (fresh (dom σ) : loc) = None.
Proof. apply not_elem_of_dom, is_fresh. Qed.

(** C5. When every option succeeds, [NewClient] returns a client at an
    address that was not in use, with no error, and all twenty-one service
    fields of that client are non-nil and hold the address of the client
    itself as their [client]. *)
Theorem NewClient_services (token : string) (options : list ClientOptionFunc)
  (σ : Store) :
  snd (apply_options options (new_Client token)) = None ->
  exists c cl,
    NewClient token options σ = ((Some c, None), <[c := cl]> σ)
    /\ σ !! c = None
    /\ all_services_share c cl.
Proof.
  intros Hok. unfold NewClient.
  destruct (apply_options options (new_Client token)) as [c1 [err|]];
    [discriminate Hok|].
  eexists _, _. split; [reflexivity|]. split.
  - apply fresh_loc_unused.
  - apply init_services_share.
Qed.

Lemma NewClient_services_witness :
  exists c cl,
    NewClient "test-token" test_options ∅ = ((Some c, None), {[c := cl]})
    /\ Repositories cl = Some {| svc_client := c |}
    /\ Users cl = Some {| svc_client := c |}.
Proof.
  destruct (NewClient_services "test-token" test_options ∅ eq_refl)
    as (c & cl & Hnew & _ & Hall).
  exists c, cl. rewrite insert_empty in Hnew.
  split; [exact Hnew|].
  unfold all_services_share in Hall. tauto.
Defined.

(** ** The helpers do not write to the client *)

Section Frame.

Variable roundTrip : req_Client -> req_Request -> outcome.





End Frame.


(** ** WithRetry *)

Lemma apply_options_skip (option : ClientOptionFunc) (pre post : list ClientOptionFunc) :
  (forall cl, option cl = (cl, None)) ->
  forall cl, apply_options (pre ++ option :: post) cl = apply_options (pre ++ post) cl.
Proof.
  intros Hnoop. induction pre as [|o pre IH]; intros cl.
  - cbn [app apply_options]. rewrite Hnoop. reflexivity.
  - cbn [app apply_options]. destruct (o cl) as [cl' [err|]]; [reflexivity|].
    apply IH.
Qed.

(** C10. For [n <= 0] the option [WithRetry(n)] returns no error and leaves
    the client as it is, so [NewClient] with the option anywhere among its
    options returns what it returns without it; for [n > 0] the option
    returns no error and sets the common retry count of the req client to
    [n], changing nothing else. *)
Theorem WithRetry_nonpositive_noop (n : Z) (cl : Client) :
  (n <= 0 ->
   WithRetry n cl = (cl, None)
   /\ forall token pre post σ,
        NewClient token (pre ++ WithRetry n :: post) σ
        = NewClient token (pre ++ post) σ)
  /\ (0 < n ->
      WithRetry n cl = (set_client (SetCommonRetryCount n) cl, None)
      /\ retry (client (fst (WithRetry n cl))) = Some {| MaxRetries := n |}).
Proof.
  split; intros Hn.
  - assert (forall cl', WithRetry n cl' = (cl', None)) as Hnoop.
    { intros cl'. unfold WithRetry.
      destruct (Z.ltb_spec 0 n); [lia | reflexivity]. }
    split; [apply Hnoop|].
    intros token pre post σ. unfold NewClient.
    rewrite (apply_options_skip _ pre post Hnoop). reflexivity.
  - unfold WithRetry. destruct (Z.ltb_spec 0 n); [|lia].
    split; reflexivity.
Qed.

Lemma WithRetry_nonpositive_noop_witness :
  NewClient "test-token" [WithDebug; WithRetry 0] ∅
  = NewClient "test-token" [WithDebug] ∅
  /\ NewClient "test-token" [WithRetry (-1)] ∅ = NewClient "test-token" [] ∅
  /\ retry (client (fst (WithRetry 3 (new_Client "test-token"))))
     = Some {| MaxRetries := 3 |}.
Proof.
  split; [|split].
  - exact (proj2 (proj1 (WithRetry_nonpositive_noop 0 (new_Client "test-token"))
                    ltac:(lia)) "test-token" [WithDebug] [] ∅).
  - exact (proj2 (proj1 (WithRetry_nonpositive_noop (-1) (new_Client "test-token"))
                    ltac:(lia)) "test-token" [] [] ∅).
  - exact (proj2 (proj2 (WithRetry_nonpositive_noop 3 (new_Client "test-token"))
                    ltac:(lia))).
Defined.

(** ** Strings: cutting and joining *)

Lemma append_nil_r (s : string) : s +:+ "" = s.
Proof. induction s as [|c s IH]; simpl; [reflexivity | rewrite IH; reflexivity]. Qed.

Lemma append_assoc (a b c : string) : (a +:+ b) +:+ c = a +:+ (b +:+ c).
Proof. induction a as [|x a IH]; simpl; [reflexivity | rewrite IH; reflexivity]. Qed.

Lemma split_nonempty (sep : ascii) (s : string) : split sep s <> [].
Proof.
  destruct s as [|c s]; cbn; [discriminate|].
  destruct (Ascii.eqb c sep); [discriminate|].
  destruct (split sep s); discriminate.
Qed.

Lemma join_cons (sep : ascii) (seg : string) (segs : list string) :
  segs <> [] -> join sep (seg :: segs) = seg +:+ String sep (join sep segs).
Proof. destruct segs; [congruence | reflexivity]. Qed.

Lemma join_split (sep : ascii) (s : string) : join sep (split sep s) = s.
Proof.
  induction s as [|c s IH]; [reflexivity|].
  cbn [split]. destruct (Ascii.eqb_spec c sep) as [-> | Hne].
  - rewrite join_cons by apply split_nonempty. rewrite IH. reflexivity.
  - pose proof (split_nonempty sep s) as Hs.
    destruct (split sep s) as [|seg segs]; [congruence|].
    destruct segs as [|seg' segs].
    + cbn [join] in *. rewrite IH. reflexivity.
    + change (String c (join sep (seg :: seg' :: segs)) = String c s).
      rewrite IH. reflexivity.
Qed.

(** Text without the separator merges into the first segment. *)
Lemma split_app_plain (sep : ascii) (w r : string) :
  contains_char sep w = false ->
  split sep (w +:+ r) =
    match split sep r with
    | seg :: segs => (w +:+ seg) :: segs
    | [] => [w]
    end.
Proof.
  induction w as [|c w IH]; intros Hw.
  - cbn. pose proof (split_nonempty sep r).
    destruct (split sep r); [congruence | reflexivity].
  - cbn in Hw. apply orb_false_iff in Hw as [Hc Hw].
    cbn [append split]. rewrite Ascii.eqb_sym, Hc, IH by exact Hw.
    destruct (split sep r); reflexivity.
Qed.

Lemma split_app_sep (sep : ascii) (a b : string) :
  split sep (a +:+ String sep b) = (split sep a ++ split sep b)%list.
Proof.
  induction a as [|c a IH].
  - cbn. rewrite Ascii.eqb_refl. reflexivity.
  - cbn [append split]. rewrite IH.
    destruct (Ascii.eqb c sep); [reflexivity|].
    pose proof (split_nonempty sep a) as Ha.
    destruct (split sep a); [congruence | reflexivity].
Qed.

Lemma last_char_slash (s : string) (c : ascii) :
  last_char s = Some c -> exists a, s = a +:+ str1 c.
Proof.
  induction s as [|x s IH]; [discriminate|].
  destruct s as [|y s].
  - intros [= ->]. exists "". reflexivity.
  - intros H. destruct (IH H) as [a Ha]. exists (String x a).
    cbn [append]. rewrite <- Ha. reflexivity.
Qed.

Lemma contains_char_app_sep (sep : ascii) (a b : string) :
  contains_char sep (a +:+ String sep b) = true.
Proof.
  induction a as [|c a IH]; cbn.
  - rewrite Ascii.eqb_refl. reflexivity.
  - unfold contains_char in IH. rewrite IH. apply orb_true_r.
Qed.

Lemma upto_last_app_sep (sep : ascii) (a : string) :
  upto_last sep (a +:+ str1 sep) = a +:+ str1 sep.
Proof.
  induction a as [|c a IH]; cbn [append upto_last str1].
  - cbn. rewrite Ascii.eqb_refl. reflexivity.
  - unfold str1 in *. rewrite contains_char_app_sep, IH. reflexivity.
Qed.

(** ** The loop of resolvePath on a path without dot segments *)

Lemma last_default (l : list string) (d d' : string) :
  l <> [] -> List.last l d = List.last l d'.
Proof.
  induction l as [|x l IH]; [congruence|]. intros _.
  destruct l as [|y l]; [reflexivity|].
  change (List.last (y :: l) d = List.last (y :: l) d').
  apply IH. discriminate.
Qed.

Lemma resolve_fold_plain (segs : list string) :
  forall dst elem0,
    forallb not_dot segs = true ->
    fold_left resolve_step segs (dst, false, elem0)
    = (fold_left (fun d seg => (d +:+ "/") +:+ seg) segs dst, false,
       List.last segs elem0).
Proof.
  induction segs as [|seg segs IH]; intros dst elem0 Hnd; [reflexivity|].
  cbn [forallb] in Hnd. apply andb_true_iff in Hnd as [Hseg Hrest].
  cbn [fold_left]. unfold resolve_step at 2. unfold not_dot in Hseg.
  apply negb_true_iff, orb_false_iff in Hseg as [Hd Hdd]. rewrite Hd, Hdd.
  rewrite IH by exact Hrest.
  f_equal. destruct segs as [|s segs]; [reflexivity|].
  change (List.last (seg :: s :: segs) elem0) with (List.last (s :: segs) elem0).
  apply last_default. discriminate.
Qed.

Lemma fold_join (sep : ascii) (segs : list string) :
  forall dst,
    fold_left (fun d seg => (d +:+ str1 sep) +:+ seg) segs dst
    = dst +:+ match segs with
              | [] => ""
              | _ => String sep (join sep segs)
              end.
Proof.
  induction segs as [|seg segs IH]; intros dst.
  - cbn. rewrite append_nil_r. reflexivity.
  - cbn [fold_left]. rewrite IH. rewrite !append_assoc. f_equal.
    destruct segs as [|seg' segs]; cbn [str1 append join].
    + rewrite append_nil_r. reflexivity.
    + reflexivity.
Qed.

Lemma last_not_dot (segs : list string) (d : string) :
  segs <> [] -> forallb not_dot segs = true -> not_dot (List.last segs d) = true.
Proof.
  induction segs as [|seg segs IH]; [congruence|]. intros _ H.
  cbn [forallb] in H. apply andb_true_iff in H as [Hs Hr].
  destruct segs as [|seg' segs]; [exact Hs|].
  apply IH; [discriminate | exact Hr].
Qed.

(** A rooted path without dot segments is already resolved. *)
Lemma resolve_rooted_plain (full : string) :
  no_dot_segments (String "/" full) = true ->
  (let '(dst, _, elem) :=
     fold_left resolve_step (split "/" (String "/" full)) ("/", true, "") in
   let r := if is_dot elem || is_dotdot elem then dst +:+ "/" else dst in
   match r with
   | String _ (String c _) => if Ascii.eqb c "/" then drop1 r else r
   | _ => r
   end) = String "/" full.
Proof.
  unfold no_dot_segments. cbn [split]. rewrite Ascii.eqb_refl.
  cbn [forallb fold_left]. intros Hnd. apply andb_true_iff in Hnd as [_ Hnd].
  change (resolve_step ("/", true, "") "") with ("/", false, "").
  fold not_dot in Hnd. rewrite resolve_fold_plain by exact Hnd.
  change (fun d seg => (d +:+ "/") +:+ seg)
    with (fun d seg => (d +:+ str1 "/") +:+ seg).
  rewrite fold_join.
  pose proof (split_nonempty "/" full) as Hne.
  pose proof (last_not_dot _ "" Hne Hnd) as Hl. unfold not_dot in Hl.
  apply negb_true_iff in Hl. rewrite Hl.
  destruct (split "/" full) as [|seg segs] eqn:E; [congruence|].
  rewrite <- E, join_split. reflexivity.
Qed.

Lemma resolvePath_plain (a ref : string) :
  has_prefix "/" (a +:+ "/") = true ->
  no_dot_segments (a +:+ "/") = true ->
  has_prefix "/" ref = false -> no_dot_segments ref = true ->
  resolvePath (a +:+ "/") ref = a +:+ "/" +:+ ref.
Proof.
  intros Hroot Hbase Hrel Href. unfold resolvePath.
  assert ((match ref with
           | "" => a +:+ "/"
           | String c _ =>
               if Ascii.eqb c "/" then ref else upto_last "/" (a +:+ "/") +:+ ref
           end) = a +:+ "/" +:+ ref) as ->.
  { destruct ref as [|c ref]; [rewrite append_nil_r; reflexivity|].
    destruct (Ascii.eqb_spec c "/") as [-> | Hne].
    - cbn [has_prefix] in Hrel. rewrite Ascii.eqb_refl in Hrel. discriminate.
    - change "/" with (str1 "/"). rewrite upto_last_app_sep.
      rewrite append_assoc. reflexivity. }
  assert (exists rest, a +:+ "/" +:+ ref = String "/" rest) as [rest Hrest].
  { destruct a as [|c a]; cbn [has_prefix append] in *; [eexists; reflexivity|].
    destruct (Ascii.eqb_spec "/" c) as [<- | Hne]; [eexists; reflexivity|].
    discriminate Hroot. }
  rewrite Hrest. apply resolve_rooted_plain.
  rewrite <- Hrest. unfold no_dot_segments in *.
  change ("/" +:+ ref) with (String "/" ref).
  rewrite split_app_sep.
  rewrite split_app_sep in Hbase. rewrite forallb_app in *.
  apply andb_true_iff in Hbase as [Ha _]. rewrite Ha, Href. reflexivity.
Qed.

(** ** Path escaping *)

Lemma escape_app (a b : string) (mode : encoding) :
  escape (a +:+ b) mode = escape a mode +:+ escape b mode.
Proof.
  induction a as [|c a IH]; [reflexivity|].
  cbn [append escape]. rewrite IH, append_assoc. reflexivity.
Qed.

Lemma unescape_ok_escape_byte (c : ascii) (s : string) :
  unescape_ok (escape_byte encodePath c +:+ s) encodePath
  = unescape_ok s encodePath.
Proof. destruct c as [[] [] [] [] [] [] [] []]; reflexivity. Qed.

Lemma unescape_bytes_escape_byte (c : ascii) (s : string) :
  unescape_bytes (escape_byte encodePath c +:+ s) encodePath
  = String c (unescape_bytes s encodePath).
Proof. destruct c as [[] [] [] [] [] [] [] []]; reflexivity. Qed.

Lemma escape_byte_slash (c : ascii) :
  contains_char "/" (escape_byte encodePath c) = Ascii.eqb "/" c.
Proof. destruct c as [[] [] [] [] [] [] [] []]; reflexivity. Qed.

Lemma escape_byte_prefix_slash (c : ascii) (s : string) :
  has_prefix "/" (escape_byte encodePath c +:+ s) = Ascii.eqb "/" c.
Proof. destruct c as [[] [] [] [] [] [] [] []]; reflexivity. Qed.

Lemma escape_byte_valid (c : ascii) (s : string) :
  validEncoded (escape_byte encodePath c +:+ s) encodePath
  = validEncoded s encodePath.
Proof. destruct c as [[] [] [] [] [] [] [] []]; reflexivity. Qed.

Lemma unescape_ok_escape (p : string) :
  unescape_ok (escape p encodePath) encodePath = true.
Proof.
  induction p as [|c p IH]; [reflexivity|].
  cbn [escape]. rewrite unescape_ok_escape_byte. exact IH.
Qed.

Lemma unescape_bytes_escape (p : string) :
  unescape_bytes (escape p encodePath) encodePath = p.
Proof.
  induction p as [|c p IH]; [reflexivity|].
  cbn [escape]. rewrite unescape_bytes_escape_byte, IH. reflexivity.
Qed.

(** Unescaping undoes path escaping. *)
Lemma unescape_escape (p : string) :
  unescape (escape p encodePath) encodePath = Some p.
Proof.
  unfold unescape. rewrite unescape_ok_escape, unescape_bytes_escape.
  reflexivity.
Qed.

Lemma validEncoded_escape (p : string) :
  validEncoded (escape p encodePath) encodePath = true.
Proof.
  induction p as [|c p IH]; [reflexivity|].
  cbn [escape]. rewrite escape_byte_valid. exact IH.
Qed.

Lemma has_prefix_slash_escape (p : string) :
  has_prefix "/" (escape p encodePath) = has_prefix "/" p.
Proof.
  destruct p as [|c p]; [reflexivity|].
  cbn [escape]. rewrite escape_byte_prefix_slash.
  cbn [has_prefix]. rewrite andb_true_r. reflexivity.
Qed.

Lemma split_escape (p : string) :
  split "/" (escape p encodePath)
  = map (fun seg => escape seg encodePath) (split "/" p).
Proof.
  induction p as [|c p IH]; [reflexivity|].
  cbn [escape split]. destruct (Ascii.eqb_spec c "/") as [-> | Hne].
  - change (escape_byte encodePath "/") with "/".
    change ("/" +:+ escape p encodePath) with (String "/" (escape p encodePath)).
    cbn [split]. rewrite Ascii.eqb_refl, IH. reflexivity.
  - rewrite split_app_plain.
    + rewrite IH. pose proof (split_nonempty "/" p) as Hs.
      destruct (split "/" p) as [|seg segs]; [congruence|]. reflexivity.
    + rewrite escape_byte_slash. apply Ascii.eqb_neq. congruence.
Qed.

Lemma not_dot_escape (seg : string) :
  not_dot (escape seg encodePath) = not_dot seg.
Proof.
  unfold not_dot, is_dot, is_dotdot. f_equal.
  assert (forall t, String.eqb (escape seg encodePath) t
                    = String.eqb seg (unescape_bytes t encodePath)
                      && String.eqb (escape seg encodePath) t) as Hinj.
  { intros t. destruct (String.eqb_spec (escape seg encodePath) t) as [<- | Hne].
    - rewrite unescape_bytes_escape, String.eqb_refl. reflexivity.
    - rewrite andb_false_r. reflexivity. }
  rewrite (Hinj "."), (Hinj "..").
  change (unescape_bytes "." encodePath) with ".".
  change (unescape_bytes ".." encodePath) with "..".
  destruct (String.eqb_spec seg ".") as [-> | H1]; [reflexivity|].
  destruct (String.eqb_spec seg "..") as [-> | H2]; reflexivity.
Qed.

Lemma no_dot_segments_escape (p : string) :
  no_dot_segments (escape p encodePath) = no_dot_segments p.
Proof.
  unfold no_dot_segments. rewrite split_escape. fold not_dot.
  induction (split "/" p) as [|seg segs IH]; [reflexivity|].
  cbn [map forallb]. rewrite not_dot_escape, IH. reflexivity.
Qed.

(** ** Unescaping a concatenation *)

Lemma unescape_app_aux (n : nat) :
  forall a b mode,
    (String.length a <= n)%nat -> unescape_ok a mode = true ->
    unescape_ok (a +:+ b) mode = unescape_ok b mode
    /\ unescape_bytes (a +:+ b) mode
       = unescape_bytes a mode +:+ unescape_bytes b mode.
Proof.
  induction n as [|n IH]; intros a b mode Hlen Hok.
  - destruct a; [split; reflexivity | cbn in Hlen; lia].
  - destruct a as [|c a]; [split; reflexivity|].
    cbn [append unescape_ok unescape_bytes] in *.
    destruct (Ascii.eqb c "%").
    + destruct a as [|h1 [|h2 a]]; try discriminate Hok.
      cbn [append].
      apply andb_true_iff in Hok as [Hok Hrest].
      apply andb_true_iff in Hok as [Hok HD].
      apply andb_true_iff in Hok as [Hok HC].
      apply andb_true_iff in Hok as [HA HB].
      destruct (IH a b mode) as [Hr1 Hr2];
        [cbn in Hlen; lia | exact Hrest |].
      rewrite Hr1, Hr2, HA, HB, HC, HD. split; reflexivity.
    + apply andb_true_iff in Hok as [Hc Hok].
      destruct (IH a b mode) as [Hr1 Hr2]; [cbn in Hlen; lia | assumption |].
      rewrite Hr1, Hr2, Hc. split; [reflexivity|].
      destruct (Ascii.eqb c "+" && encoding_eqb mode encodeQueryComponent);
        reflexivity.
Qed.

Lemma unescape_app (a b x y : string) (mode : encoding) :
  unescape a mode = Some x -> unescape b mode = Some y ->
  unescape (a +:+ b) mode = Some (x +:+ y).
Proof.
  unfold unescape. intros Ha Hb.
  destruct (unescape_ok a mode) eqn:Ea; [|discriminate].
  destruct (unescape_ok b mode) eqn:Eb; [|discriminate].
  destruct (unescape_app_aux (String.length a) a b mode (le_n _) Ea) as [H1 H2].
  rewrite H1, Eb, H2. congruence.
Qed.

Lemma validEncoded_app (a b : string) (mode : encoding) :
  validEncoded (a +:+ b) mode = validEncoded a mode && validEncoded b mode.
Proof.
  unfold validEncoded. induction a as [|c a IH]; [reflexivity|].
  cbn [append string_forall]. rewrite IH, andb_assoc. reflexivity.
Qed.

(** ** The escaped path of a URL *)

Lemma EscapedPath_valid (u : URL) : validEncoded (EscapedPath u) encodePath = true.
Proof.
  unfold EscapedPath.
  destruct (string_nonempty (RawPath u) && validEncoded (RawPath u) encodePath
            && _) eqn:E.
  - apply andb_true_iff in E as [E _]. apply andb_true_iff in E as [_ E].
    exact E.
  - destruct (String.eqb (Path u) "*"); [reflexivity | apply validEncoded_escape].
Qed.

Lemma EscapedPath_unescape (u : URL) :
  unescape (EscapedPath u) encodePath = Some (Path u).
Proof.
  unfold EscapedPath.
  destruct (string_nonempty (RawPath u) && validEncoded (RawPath u) encodePath
            && _) eqn:E.
  - apply andb_true_iff in E as [_ E].
    destruct (unescape (RawPath u) encodePath) as [p|]; [|discriminate].
    apply String.eqb_eq in E. congruence.
  - destruct (String.eqb_spec (Path u) "*") as [-> | _];
      [reflexivity | apply unescape_escape].
Qed.

Lemma unescape_rooted (s x : string) (mode : encoding) :
  has_prefix "/" s = true -> unescape s mode = Some x -> has_prefix "/" x = true.
Proof.
  destruct s as [|c s]; [discriminate|]. cbn [has_prefix].
  rewrite andb_true_r. intros Hc. apply Ascii.eqb_eq in Hc. subst c.
  unfold unescape. destruct (unescape_ok _ _); [|discriminate].
  intros [= <-]. cbn [unescape_bytes]. 
  change (Ascii.eqb "/" "%") with false. change (Ascii.eqb "/" "+") with false.
  reflexivity.
Qed.

Lemma rooted_nonempty (s : string) :
  has_prefix "/" s = true -> string_nonempty s = true.
Proof. destruct s; [discriminate | reflexivity]. Qed.

Lemma rooted_not_star (s : string) :
  has_prefix "/" s = true -> String.eqb s "*" = false.
Proof.
  intros H. apply eqb_neq. intros ->. discriminate H.
Qed.

(** After [setPath] with a valid rooted path, [EscapedPath] gives that very
    path back, and only [Path] and [RawPath] have changed. *)
Lemma setPath_EscapedPath (url url' : URL) (full : string) :
  setPath url full = Some url' ->
  validEncoded full encodePath = true -> has_prefix "/" full = true ->
  EscapedPath url' = full
  /\ has_prefix "/" (Path url') = true
  /\ Scheme url' = Scheme url /\ Opaque url' = Opaque url
  /\ User url' = User url /\ Host url' = Host url
  /\ OmitHost url' = OmitHost url /\ ForceQuery url' = ForceQuery url
  /\ RawQuery url' = RawQuery url /\ Fragment url' = Fragment url.
Proof.
  unfold setPath. intros Hset Hvalid Hroot.
  destruct (unescape full encodePath) as [path|] eqn:Hun; [|discriminate].
  cbn [mbind option_bind] in Hset. injection Hset as <-.
  pose proof (unescape_rooted _ _ _ Hroot Hun) as Hpath.
  split; [|repeat split; try reflexivity; exact Hpath].
  unfold EscapedPath. cbn [RawPath Path].
  destruct (String.eqb_spec full (escape path encodePath)) as [Heq | Hne].
  - cbn [string_nonempty andb]. rewrite rooted_not_star by exact Hpath.
    congruence.
  - rewrite rooted_nonempty, Hvalid, Hun, String.eqb_refl by exact Hroot.
    reflexivity.
Qed.

Lemma path_ref_EscapedPath (p : string) :
  EscapedPath (path_ref p) = if String.eqb p "*" then "*" else escape p encodePath.
Proof. reflexivity. Qed.

Lemma path_ref_relative (p : string) :
  has_prefix "/" p = false -> has_prefix "/" (EscapedPath (path_ref p)) = false.
Proof.
  intros H. rewrite path_ref_EscapedPath.
  destruct (String.eqb p "*"); [reflexivity|].
  rewrite has_prefix_slash_escape. exact H.
Qed.

Lemma path_ref_no_dots (p : string) :
  no_dot_segments p = true -> no_dot_segments (EscapedPath (path_ref p)) = true.
Proof.
  intros H. rewrite path_ref_EscapedPath.
  destruct (String.eqb p "*"); [reflexivity|].
  rewrite no_dot_segments_escape. exact H.
Qed.

Lemma has_prefix_app (pre a b : string) :
  has_prefix pre a = true -> has_prefix pre (a +:+ b) = true.
Proof.
  revert a. induction pre as [|c pre IH]; intros a H; [reflexivity|].
  destruct a as [|x a]; [discriminate|]. cbn [has_prefix append] in *.
  apply andb_true_iff in H as [-> H]. rewrite IH by exact H. reflexivity.
Qed.

(** Resolving a relative path without dot segments against a plain base
    appends the escaped path to the escaped path of the base and keeps
    scheme, user and host. *)
Lemma ResolveReference_plain (u : URL) (p : string) :
  plain_base u = true -> has_prefix "/" p = false -> no_dot_segments p = true ->
  let url := ResolveReference u (path_ref p) in
  EscapedPath url = EscapedPath u +:+ EscapedPath (path_ref p)
  /\ has_prefix "/" (Path url) = true
  /\ Scheme url = Scheme u /\ Opaque url = "" /\ User url = User u
  /\ Host url = Host u /\ OmitHost url = false /\ ForceQuery url = false
  /\ RawQuery url = "" /\ Fragment url = "".
Proof.
  unfold plain_base. intros Hplain Hrel Hnd.
  apply andb_true_iff in Hplain as [Hplain Hbnd].
  apply andb_true_iff in Hplain as [Hplain Hlast].
  apply andb_true_iff in Hplain as [Hplain Hbroot].
  apply andb_true_iff in Hplain as [Hplain Homit].
  apply andb_true_iff in Hplain as [Hplain Hfrag].
  apply andb_true_iff in Hplain as [Hplain Hfq].
  apply andb_true_iff in Hplain as [Hopq Hrq].
  apply negb_true_iff in Hopq, Hrq, Hfq, Hfrag, Homit.
  apply bool_decide_eq_true in Hlast.
  destruct (last_char_slash _ _ Hlast) as [a Ha].
  unfold str1 in Ha.
  set (e := EscapedPath (path_ref p)).
  assert (resolvePath (EscapedPath u) e = EscapedPath u +:+ e) as Hres.
  { rewrite Ha, append_assoc.
    apply resolvePath_plain.
    - rewrite <- Ha. assumption.
    - rewrite <- Ha. assumption.
    - apply path_ref_relative, Hrel.
    - apply path_ref_no_dots, Hnd. }
  assert (unescape (EscapedPath u +:+ e) encodePath = Some (Path u +:+ p)) as Hun.
  { apply unescape_app; [apply EscapedPath_unescape|].
    apply (EscapedPath_unescape (path_ref p)). }
  cbn zeta. unfold ResolveReference.
  cbn [path_ref Scheme Opaque User Host Path RawPath OmitHost ForceQuery
       RawQuery Fragment RawFragment string_nonempty has_user orb negb andb].
  rewrite Hopq.
  replace (negb (string_nonempty p) && false) with false
    by (destruct (string_nonempty p); reflexivity).
  fold (path_ref p). fold e.
  match goal with
  | |- context [with_path_of ?url0 ?full] =>
      remember url0 as url0' eqn:Hurl0;
      assert (exists url', setPath url0' full = Some url') as [url' Hset]
  end.
  { rewrite Hres. unfold setPath. rewrite Hun. eexists. reflexivity. }
  unfold with_path_of. rewrite Hset.
  rewrite Hres in Hset.
  destruct (setPath_EscapedPath _ _ _ Hset)
    as (E1 & E2 & E3 & E4 & E5 & E6 & E7 & E8 & E9 & E10).
  { rewrite validEncoded_app, EscapedPath_valid.
    apply (EscapedPath_valid (path_ref p)). }
  { apply has_prefix_app. assumption. }
  subst url0'.
  cbn [Scheme Opaque User Host OmitHost ForceQuery RawQuery Fragment] in *.
  repeat split; try assumption.
  - rewrite E9. destruct (string_nonempty p); [reflexivity|].
    cbn [negb andb]. destruct (RawQuery u); [reflexivity | discriminate].
  - rewrite E10. destruct (string_nonempty p); [reflexivity|].
    cbn [negb andb]. destruct (Fragment u); [reflexivity | discriminate].
Qed.

(** ** The text of a plain URL *)

Lemma URL_String_plain (u : URL) :
  string_nonempty (Opaque u) = false -> string_nonempty (RawQuery u) = false ->
  ForceQuery u = false -> string_nonempty (Fragment u) = false ->
  has_prefix "/" (EscapedPath u) = true -> has_prefix "/" (Path u) = true ->
  URL_String u = authority_text u +:+ EscapedPath u.
Proof.
  intros Hopq Hrq Hfq Hfrag Hroot Hpath.
  unfold URL_String, authority_text.
  rewrite Hopq, Hrq, Hfq, Hfrag, (rooted_nonempty _ Hpath).
  cbn [orb]. rewrite orb_true_r. cbn [orb].
  destruct (EscapedPath u) as [|c rest] eqn:E; [discriminate Hroot|].
  cbn [has_prefix] in Hroot. rewrite andb_true_r in Hroot.
  apply Ascii.eqb_eq in Hroot. subst c.
  cbn [string_nonempty has_prefix cut fst negb andb].
  rewrite Ascii.eqb_refl. cbn [andb negb fst contains_char string_exists].
  rewrite !andb_false_r, !append_nil_r.
  rewrite !append_assoc. reflexivity.
Qed.

Lemma authority_text_ext (u v : URL) :
  Scheme v = Scheme u -> User v = User u -> Host v = Host u ->
  OmitHost v = OmitHost u -> authority_text v = authority_text u.
Proof.
  intros Hs Hu Hh Ho. unfold authority_text, has_user.
  rewrite Hs, Hu, Hh, Ho. reflexivity.
Qed.

(** ** buildFullURL *)

(** C4 (as amended). When the base URL of the client followed by api/v1/
    parses to a plain URL [u] (no opaque part, query or fragment, a host
    that is not omitted, as it is for a scheme followed by a single slash,
    and a path that starts and ends with a slash and has no dot segment),
    then for
    every path [p] that does not start with a slash and has no "." or ".."
    segment, [buildFullURL(p)] is the text of [u] followed by the escaped
    form of [p], and unescaping that form gives [p] back; with the default
    base URL the text of [u] is https://gitness.com/api/v1/. *)
Theorem buildFullURL_joins (cl : Client) (u : URL) (p : string) :
  url_Parse (baseURL cl +:+ apiVersionPath +:+ "/") = Some u ->
  plain_base u = true ->
  has_prefix "/" p = false -> no_dot_segments p = true ->
  buildFullURL cl p = Some (URL_String u +:+ EscapedPath (path_ref p))
  /\ unescape (EscapedPath (path_ref p)) encodePath = Some p
  /\ (baseURL cl = defaultBaseURL ->
      URL_String u = "https://gitness.com/api/v1/").
Proof.
  intros Hparse Hplain Hrel Hnd.
  split; [|split].
  - unfold buildFullURL. rewrite Hparse. cbn [mbind option_bind]. f_equal.
    destruct (ResolveReference_plain u p Hplain Hrel Hnd)
      as (E1 & E2 & E3 & E4 & E5 & E6 & E7 & E8 & E9 & E10).
    cbn zeta in *.
    unfold plain_base in Hplain.
    apply andb_true_iff in Hplain as [Hplain Hbnd].
    apply andb_true_iff in Hplain as [Hplain Hlast].
    apply andb_true_iff in Hplain as [Hplain Hbroot].
    apply andb_true_iff in Hplain as [Hplain Homit].
    apply andb_true_iff in Hplain as [Hplain Hfrag].
    apply andb_true_iff in Hplain as [Hplain Hfq].
    apply andb_true_iff in Hplain as [Hopq Hrq].
    apply negb_true_iff in Hopq, Hrq, Hfq, Hfrag, Homit.
    rewrite URL_String_plain; try assumption;
      try (rewrite ?E4, ?E9, ?E10; reflexivity).
    + rewrite (URL_String_plain u); try assumption.
      * rewrite E1, append_assoc. f_equal.
        apply authority_text_ext; congruence.
      * exact (unescape_rooted _ _ _ Hbroot (EscapedPath_unescape u)).
    + rewrite E1. apply has_prefix_app. exact Hbroot.
  - apply (EscapedPath_unescape (path_ref p)).
  - intros Hdefault. rewrite Hdefault in Hparse.
    vm_compute in Hparse. injection Hparse as <-. reflexivity.
Qed.

Lemma test_Client_base :
  url_Parse (baseURL test_Client +:+ apiVersionPath +:+ "/")
  = Some {| Scheme := "https"; Opaque := ""; User := None;
            Host := "gitness.com"; Path := "/api/v1/"; RawPath := "";
            OmitHost := false; ForceQuery := false; RawQuery := "";
            Fragment := ""; RawFragment := "" |}.
Proof. reflexivity. Qed.

Lemma buildFullURL_joins_witness :
  buildFullURL test_Client "repos/my repo/content/a?b"
  = Some "https://gitness.com/api/v1/repos/my%20repo/content/a%3Fb"
  /\ unescape "repos/my%20repo/content/a%3Fb" encodePath
     = Some "repos/my repo/content/a?b".
Proof.
  destruct (buildFullURL_joins test_Client _ "repos/my repo/content/a?b"
              test_Client_base eq_refl eq_refl eq_refl) as (Hurl & Hun & _).
  split; [exact Hurl | exact Hun].
Defined.

(** C4, the claim as it was stated, fails: a path with ".." segments, such
    as the one [ListBranches] builds for the repository path "../..", leaves
    the api/v1/ prefix, and a path that starts with a slash replaces the
    whole path of the base URL. *)
Lemma buildFullURL_dot_segments_counterexample :
  buildFullURL test_Client (ListBranches_path "../..")
  = Some "https://gitness.com/api/branches"
  /\ has_prefix "https://gitness.com/api/v1/" "https://gitness.com/api/branches"
     = false
  /\ buildFullURL test_Client "/user" = Some "https://gitness.com/user".
Proof. repeat split; reflexivity. Qed.

(** C3, the code at the failing input: for the repository path ci/demo of
    [TestURLEncodingForRepoPath] the URL that [ListBranches] and [GetBranch]
    hand to req has a plain slash inside the repository path and the branch
    name, so these take two path segments each; [GetUser], which calls
    [url.PathEscape] first, gets %2F. *)
Theorem ListBranches_slash_not_encoded :
  RawURL <$> performListRequest_request test_Client 0%nat
               (ListBranches_path "ci/demo") None (Some "branches")
  = Some "https://gitness.com/api/v1/repos/ci/demo/branches"
  /\ RawURL <$> Get_request test_Client 0%nat
                  (GetBranch_path "ci/demo" "feature/test-branch") (Some "branch")
     = Some "https://gitness.com/api/v1/repos/ci/demo/branches/feature/test-branch"
  /\ GetUser_path "ci/demo" = "users/ci%2Fdemo"
  /\ RawURL <$> Get_request test_Client 0%nat (GetUser_path "ci/demo") (Some "user")
     = Some "https://gitness.com/api/v1/users/ci%252Fdemo".
Proof. repeat split; reflexivity. Qed.

(** ** The calendar *)

Lemma all_below_spec (n : nat) (p : Z -> bool) :
  forall i, all_below n i p = true ->
  forall j, i <= j < i + Z.of_nat n -> p j = true.
Proof.
  induction n as [|n IH]; intros i H j Hj; [lia|].
  cbn [all_below] in H. destruct (p i) eqn:Hp; [|discriminate].
  destruct (Z.eq_dec j i) as [-> | Hne]; [exact Hp|].
  apply (IH (i + 1) H). lia.
Qed.

Lemma civil_check_cycle (doe : Z) : 0 <= doe < 146097 -> civil_check doe = true.
Proof.
  intros H. apply (all_below_spec (Z.to_nat 146097) civil_check 0).
  - vm_compute. reflexivity.
  - rewrite Z2Nat.id; lia.
Qed.

Lemma isLeap_cycle (y era : Z) : isLeap (y + era * 400) = isLeap y.
Proof.
  unfold isLeap.
  replace ((y + era * 400) mod 4) with (y mod 4)
    by (replace (y + era * 400) with (y + (era * 100) * 4) by ring;
        symmetry; apply Z_mod_plus_full).
  replace ((y + era * 400) mod 100) with (y mod 100)
    by (replace (y + era * 400) with (y + (era * 4) * 100) by ring;
        symmetry; apply Z_mod_plus_full).
  rewrite Z_mod_plus_full. reflexivity.
Qed.

Lemma daysIn_cycle (m y era : Z) : daysIn m (y + era * 400) = daysIn m y.
Proof. unfold daysIn. rewrite isLeap_cycle. reflexivity. Qed.

(** [civil_from_days] yields a valid date, and [days_from_civil] is its
    inverse. *)
Lemma civil_roundtrip (z y m d : Z) :
  civil_from_days z = (y, m, d) ->
  1 <= m <= 12 /\ 1 <= d <= daysIn m y /\ days_from_civil y m d = z.
Proof.
  unfold civil_from_days. cbn zeta.
  set (era := (z + 719468) / 146097).
  set (doe := (z + 719468) mod 146097).
  assert (0 <= doe < 146097) as Hdoe by (apply Z.mod_pos_bound; lia).
  assert (z + 719468 = 146097 * era + doe) as Hz by (apply Z.div_mod; lia).
  pose proof (civil_check_cycle doe Hdoe) as Hc. unfold civil_check in Hc.
  cbn zeta in Hc.
  set (yoe := (doe - doe / 1460 + doe / 36524 - doe / 146096) / 365) in *.
  set (doy := doe - (365 * yoe + yoe / 4 - yoe / 100)) in *.
  set (mp := (5 * doy + 2) / 153) in *.
  set (d0 := doy - (153 * mp + 2) / 5 + 1) in *.
  set (m0 := if mp <? 10 then mp + 3 else mp - 9) in *.
  intros [= <- <- <-].
  repeat (apply andb_true_iff in Hc as [Hc ?]).
  repeat match goal with
         | H : (_ <=? _) = true |- _ => apply Z.leb_le in H
         | H : (_ =? _) = true |- _ => apply Z.eqb_eq in H
         end.
  split; [lia|]. split.
  - replace (yoe + era * 400 + (if m0 <=? 2 then 1 else 0))
      with (yoe + (if m0 <=? 2 then 1 else 0) + era * 400) by ring.
    rewrite daysIn_cycle. lia.
  - unfold days_from_civil. cbn zeta.
    assert ((if m0 <=? 2
             then yoe + era * 400 + (if m0 <=? 2 then 1 else 0) - 1
             else yoe + era * 400 + (if m0 <=? 2 then 1 else 0))
            = yoe + era * 400) as ->.
    { destruct (m0 <=? 2); ring. }
    rewrite Z.div_add, Z_mod_plus_full by lia.
    rewrite Z.div_small, Z.mod_small by lia.
    lia.
Qed.

(** ** Fixed-width decimal fields *)

Lemma appendInt_2 (x : Z) : 0 <= x < 100 -> appendInt x 2 = two_digits x.
Proof.
  intros H.
  apply String.eqb_eq.
  apply (all_below_spec 100 (fun x => String.eqb (appendInt x 2) (two_digits x)) 0);
    [vm_compute; reflexivity | lia].
Qed.

Lemma appendInt_4 (x : Z) : 0 <= x < 10000 -> appendInt x 4 = four_digits x.
Proof.
  intros H.
  apply String.eqb_eq.
  apply (all_below_spec (Z.to_nat 10000)
           (fun x => String.eqb (appendInt x 4) (four_digits x)) 0);
    [vm_compute; reflexivity | rewrite Z2Nat.id; lia].
Qed.

Lemma parseUint_two_digits (x lo hi : Z) :
  0 <= x < 100 -> lo <= x <= hi -> parseUint (two_digits x) lo hi = Some x.
Proof.
  intros Hx Hr. unfold parseUint, two_digits. cbn [parse_digits].
  assert (0 <= x / 10 <= 9)
    by (assert (0 <= x / 10 < 10);
        [split; [apply Z.div_pos | apply Z.div_lt_upper_bound]; lia | lia]).
  assert (0 <= x mod 10 <= 9) by (pose proof (Z.mod_pos_bound x 10); lia).
  rewrite !digit_val_chr by assumption. cbn [parse_digits].
  replace ((0 * 10 + x / 10) * 10 + x mod 10) with x
    by (pose proof (Z.div_mod x 10); lia).
  destruct (Z.leb_spec lo x), (Z.leb_spec x hi); try lia. reflexivity.
Qed.

Lemma parseUint_four_digits (x : Z) :
  0 <= x <= 9999 -> parseUint (four_digits x) 0 9999 = Some x.
Proof.
  intros Hx. unfold parseUint, four_digits, two_digits. cbn [parse_digits].
  assert (0 <= x / 1000 <= 9)
    by (assert (0 <= x / 1000 < 10);
        [split; [apply Z.div_pos | apply Z.div_lt_upper_bound]; lia | lia]).
  assert (0 <= x / 100 mod 10 <= 9) by (pose proof (Z.mod_pos_bound (x / 100) 10); lia).
  assert (0 <= x mod 100 < 100) by (apply Z.mod_pos_bound; lia).
  assert (0 <= x mod 100 / 10 <= 9)
    by (assert (0 <= x mod 100 / 10 < 10);
        [split; [apply Z.div_pos | apply Z.div_lt_upper_bound]; lia | lia]).
  assert (0 <= x mod 100 mod 10 <= 9)
    by (pose proof (Z.mod_pos_bound (x mod 100) 10); lia).
  rewrite !digit_val_chr by assumption. cbn [parse_digits].
  replace ((((0 * 10 + x / 1000) * 10 + x / 100 mod 10) * 10 + x mod 100 / 10) * 10
           + x mod 100 mod 10) with x.
  - destruct (Z.leb_spec 0 x), (Z.leb_spec x 9999); try lia. reflexivity.
  - pose proof (Z.div_mod (x mod 100) 10 ltac:(lia)).
    pose proof (Z.div_mod x 100 ltac:(lia)).
    pose proof (Z.div_mod (x / 100) 10 ltac:(lia)).
    assert (x / 100 / 10 = x / 1000) by (rewrite Z.div_div by lia; reflexivity).
    lia.
Qed.

(** ** The strict parser on the output of Format *)

(** The zone that Format writes reads back as the offset. *)
Lemma parse_zone_RFC3339 (t : time_Time) (off : Z) :
  offset t = 0 -> off mod 60 = 0 -> -86400 < off < 86400 ->
  parse_fraction (zone_RFC3339 off) = (0, zone_RFC3339 off)
  /\ parse_zone t (zone_RFC3339 off)
     = Some {| unix := unix t - off; nsec := nsec t; offset := off |}.
Proof.
  intros Hutc Hmod Hrange. unfold zone_RFC3339.
  destruct (Z.eqb_spec off 0) as [-> | Hnz].
  - split; [reflexivity|]. cbn. rewrite Z.sub_0_r.
    destruct t; cbn in *; subst; reflexivity.
  - assert (off = 60 * Z.quot off 60) as Hq.
    { apply Z.quot_exact; [lia|]. apply Z.rem_mod_eq_0; [lia | exact Hmod]. }
    set (zone := Z.quot off 60) in *.
    assert (0 < Z.abs zone < 1440) as Hz by lia.
    assert (0 <= Z.abs zone / 60 < 24) as Hh
      by (split; [apply Z.div_pos | apply Z.div_lt_upper_bound]; lia).
    assert (0 <= Z.abs zone mod 60 < 60) as Hm by (apply Z.mod_pos_bound; lia).
    pose proof (Z.div_mod (Z.abs zone) 60 ltac:(lia)) as Hdm.
    rewrite !appendInt_2 by lia.
    destruct (Z.ltb_spec zone 0) as [Hneg | Hpos].
    + split; [reflexivity|].
      unfold parse_zone, two_digits.
      cbn [append String.eqb Ascii.eqb Bool.eqb String.length Nat.eqb negb slice
           Nat.sub str_drop str_take byte_at orb andb].
      change (String (digit_chr (Z.abs zone / 60 / 10))
                (String (digit_chr ((Z.abs zone / 60) mod 10)) ""))
        with (two_digits (Z.abs zone / 60)).
      change (String (digit_chr (Z.abs zone mod 60 / 10))
                (String (digit_chr ((Z.abs zone mod 60) mod 10)) ""))
        with (two_digits (Z.abs zone mod 60)).
      rewrite !parseUint_two_digits by lia.
      cbn [mbind option_bind]. do 2 f_equal; lia.
    + split; [reflexivity|].
      unfold parse_zone, two_digits.
      cbn [append String.eqb Ascii.eqb Bool.eqb String.length Nat.eqb negb slice
           Nat.sub str_drop str_take byte_at orb andb].
      change (String (digit_chr (Z.abs zone / 60 / 10))
                (String (digit_chr ((Z.abs zone / 60) mod 10)) ""))
        with (two_digits (Z.abs zone / 60)).
      change (String (digit_chr (Z.abs zone mod 60 / 10))
                (String (digit_chr ((Z.abs zone mod 60) mod 10)) ""))
        with (two_digits (Z.abs zone mod 60)).
      rewrite !parseUint_two_digits by lia.
      cbn [mbind option_bind]. do 2 f_equal; lia.
Qed.

Lemma parseRFC3339_fields (y m d h mi s : Z) (zone : string) :
  0 <= y <= 9999 -> 1 <= m <= 12 -> 1 <= d <= daysIn m y ->
  0 <= h <= 23 -> 0 <= mi <= 59 -> 0 <= s <= 59 ->
  parseRFC3339
    (four_digits y +:+ "-" +:+ two_digits m +:+ "-" +:+ two_digits d +:+ "T"
     +:+ two_digits h +:+ ":" +:+ two_digits mi +:+ ":" +:+ two_digits s
     +:+ zone)
  = (let '(ns, rest) := parse_fraction zone in
     parse_zone (Date y m d h mi s ns) rest).
Proof.
  intros Hy Hm Hd Hh Hmi Hs.
  assert (d <= 31) as Hd31.
  { unfold daysIn in Hd.
    destruct ((m =? 2) && isLeap y), (m =? 2),
      ((m =? 4) || (m =? 6) || (m =? 9) || (m =? 11)); lia. }
  unfold parseRFC3339, four_digits, two_digits.
  cbn [append String.length Nat.ltb Nat.leb slice Nat.sub str_drop str_take
       byte_at].
  change (String (digit_chr (y / 1000))
            (String (digit_chr ((y / 100) mod 10))
               (String (digit_chr (y mod 100 / 10))
                  (String (digit_chr ((y mod 100) mod 10)) ""))))
    with (four_digits y).
  repeat match goal with
         | |- context [String (digit_chr (?x / 10))
                         (String (digit_chr (?x mod 10)) "")] =>
             change (String (digit_chr (x / 10)) (String (digit_chr (x mod 10)) ""))
               with (two_digits x)
         end.
  rewrite parseUint_four_digits by lia. cbn [mbind option_bind].
  rewrite (parseUint_two_digits m) by lia. cbn [mbind option_bind].
  rewrite (parseUint_two_digits d) by lia. cbn [mbind option_bind].
  rewrite (parseUint_two_digits h) by lia. cbn [mbind option_bind].
  rewrite (parseUint_two_digits mi) by lia. cbn [mbind option_bind].
  rewrite (parseUint_two_digits s) by lia. cbn [mbind option_bind].
  rewrite !Ascii.eqb_refl. reflexivity.
Qed.

(** The strict parser reads back what Format writes for a representable
    time. *)
Lemma parseRFC3339_Format (t : time_Time) :
  representable t -> parseRFC3339 (Format_RFC3339 t) = Some t.
Proof.
  intros (Hns & Hyear & Hmod & Hoff).
  unfold Format_RFC3339, year_of, secondsPerDay in *.
  set (abs := unix t + offset t) in *.
  destruct (civil_from_days (abs / 86400)) as [[y m] d] eqn:Hciv.
  cbn [fst] in Hyear.
  destruct (civil_roundtrip _ _ _ _ Hciv) as (Hm & Hd & Hdays).
  assert (0 <= abs mod 86400 < 86400) as Hsod by (apply Z.mod_pos_bound; lia).
  set (sod := abs mod 86400) in *.
  assert (0 <= sod / 3600 <= 23) as Hh.
  { assert (0 <= sod / 3600 < 24);
      [split; [apply Z.div_pos | apply Z.div_lt_upper_bound]; lia | lia]. }
  assert (0 <= sod mod 3600 < 3600) as Hr by (apply Z.mod_pos_bound; lia).
  assert (0 <= sod mod 3600 / 60 <= 59) as Hmi.
  { assert (0 <= sod mod 3600 / 60 < 60);
      [split; [apply Z.div_pos | apply Z.div_lt_upper_bound]; lia | lia]. }
  assert (0 <= sod mod 60 <= 59) as Hs
    by (pose proof (Z.mod_pos_bound sod 60); lia).
  assert (d <= 31) as Hd31.
  { unfold daysIn in Hd.
    destruct ((m =? 2) && isLeap y), (m =? 2),
      ((m =? 4) || (m =? 6) || (m =? 9) || (m =? 11)); lia. }
  rewrite appendInt_4 by lia. rewrite !appendInt_2 by lia.
  rewrite parseRFC3339_fields by assumption.
  destruct (parse_zone_RFC3339 (Date y m d (sod / 3600) (sod mod 3600 / 60)
                                  (sod mod 60) 0) (offset t) eq_refl Hmod Hoff)
    as [Hfrac Hzone].
  rewrite Hfrac, Hzone. f_equal.
  destruct t as [u n o]. cbn [unix nsec offset Date] in *. subst n.
  f_equal. unfold secondsPerDay. rewrite Hdays.
  pose proof (Z.div_mod abs 86400 ltac:(lia)) as H1.
  pose proof (Z.div_mod sod 3600 ltac:(lia)) as H2.
  pose proof (Z.div_mod (sod mod 3600) 60 ltac:(lia)) as H3.
  assert ((sod mod 3600) mod 60 = sod mod 60) as H4.
  { apply Z.mod_mod_divide. exists 60. reflexivity. }
  fold sod in H1. unfold abs in *. cbn [unix offset] in *. lia.
Qed.

(** Whatever the nanoseconds, the text of a time reads back as the time cut
    to the whole second. *)
Lemma whole_second_representable (t : time_Time) :
  formattable t -> representable (whole_second t).
Proof. intros (Hy & Hm & Ho). split; [reflexivity|]. split; [exact Hy|]. tauto. Qed.

Lemma parseRFC3339_Format_whole (t : time_Time) :
  formattable t -> parseRFC3339 (Format_RFC3339 t) = Some (whole_second t).
Proof.
  intros Hf.
  change (Format_RFC3339 t) with (Format_RFC3339 (whole_second t)).
  apply parseRFC3339_Format, whole_second_representable, Hf.
Qed.

(** ** JSON strings of plain bytes *)





Lemma string_forall_app (p : ascii -> bool) (a b : string) :
  string_forall p (a +:+ b) = string_forall p a && string_forall p b.
Proof.
  induction a as [|c a IH]; [reflexivity|].
  cbn [append string_forall]. rewrite IH, andb_assoc. reflexivity.
Qed.

Lemma string_forall_impl (p q : ascii -> bool) (s : string) :
  (forall c, p c = true -> q c = true) ->
  string_forall p s = true -> string_forall q s = true.
Proof.
  intros Hpq. induction s as [|c s IH]; [reflexivity|].
  cbn [string_forall]. intros H. apply andb_true_iff in H as [Hc Hs].
  rewrite (Hpq c Hc), IH by exact Hs. reflexivity.
Qed.






(** ** What Format writes is plain *)





(** ** The JSON methods of Time *)

Section TimeJSONProperties.

Variable parse_fallback : string -> option time_Time.

(** The layout-driven parser refuses the empty string. *)
Hypothesis parse_fallback_empty : parse_fallback "" = None.


End TimeJSONProperties.

Lemma leap_day_representable : representable leap_day.
Proof.
  unfold representable. change (year_of leap_day) with 2024.
  cbn [nsec offset leap_day]. repeat split; try reflexivity; lia.
Qed.



(** ** The users service escapes its path segment *)

Lemma contains_char_app (c : ascii) (a b : string) :
  contains_char c (a +:+ b) = contains_char c a || contains_char c b.
Proof.
  unfold contains_char. induction a as [|x a IH]; [reflexivity|].
  cbn [append string_exists]. rewrite IH, orb_assoc. reflexivity.
Qed.

Lemma segment_byte_no_slash (c : ascii) :
  contains_char "/" (escape_byte encodePathSegment c) = false.
Proof. destruct c as [[] [] [] [] [] [] [] []]; reflexivity. Qed.

Lemma segment_byte_unescape_ok (c : ascii) (s : string) :
  unescape_ok (escape_byte encodePathSegment c +:+ s) encodePathSegment
  = unescape_ok s encodePathSegment.
Proof. destruct c as [[] [] [] [] [] [] [] []]; reflexivity. Qed.

Lemma segment_byte_unescape_bytes (c : ascii) (s : string) :
  unescape_bytes (escape_byte encodePathSegment c +:+ s) encodePathSegment
  = String c (unescape_bytes s encodePathSegment).
Proof. destruct c as [[] [] [] [] [] [] [] []]; reflexivity. Qed.

Lemma PathEscape_no_slash (s : string) : contains_char "/" (PathEscape s) = false.
Proof.
  unfold PathEscape. induction s as [|c s IH]; [reflexivity|].
  cbn [escape]. rewrite contains_char_app, segment_byte_no_slash, IH.
  reflexivity.
Qed.

Lemma PathEscape_unescape (s : string) :
  unescape (PathEscape s) encodePathSegment = Some s.
Proof.
  unfold unescape, PathEscape.
  assert (unescape_ok (escape s encodePathSegment) encodePathSegment = true
          /\ unescape_bytes (escape s encodePathSegment) encodePathSegment = s)
    as [-> ->]; [|reflexivity].
  induction s as [|c s [IH1 IH2]]; [split; reflexivity|].
  cbn [escape].
  rewrite segment_byte_unescape_ok, segment_byte_unescape_bytes, IH1, IH2.
  split; reflexivity.
Qed.

Lemma split_plain (sep : ascii) (w : string) :
  contains_char sep w = false -> split sep w = [w].
Proof.
  intros H. rewrite <- (append_nil_r w) at 1.
  rewrite (split_app_plain sep w "" H). cbn [split].
  rewrite append_nil_r. reflexivity.
Qed.

(** X1. For every user identifier, slashes included, the path that [GetUser]
    builds has exactly two segments: users and the escaped identifier, from
    which unescaping recovers the identifier. *)
Theorem GetUser_path_two_segments (userUID : string) :
  split "/" (GetUser_path userUID) = ["users"; PathEscape userUID]
  /\ unescape (PathEscape userUID) encodePathSegment = Some userUID.
Proof.
  split; [|apply PathEscape_unescape].
  unfold GetUser_path.
  change ("users/" +:+ PathEscape userUID)
    with ("users" +:+ String "/" (PathEscape userUID)).
  rewrite split_app_sep, (split_plain "/" (PathEscape userUID))
    by apply PathEscape_no_slash.
  reflexivity.
Qed.

(** ** Times lose their fraction of a second *)


Section TimeTruncation.

Variable parse_fallback : string -> option time_Time.


End TimeTruncation.


(** ** The methods that send their request themselves *)

Lemma paginated_never_nil (o : outcome) :
  exists resp,
    fst (paginated o) = Some resp
    /\ Response.Response resp =
         match o with
         | Done reply => Some reply
         | Failed reply _ => reply
         end.
Proof.
  destruct o as [reply | reply err]; cbn [paginated].
  - destruct (checkResponse reply); cbn [fst]; eexists; split; reflexivity.
  - eexists; split; reflexivity.
Qed.

Section DirectRequestProperties.

Variable roundTrip : req_Client -> req_Request -> outcome.

(** X3. [ListPaths] panics exactly when its options are nil or the client
    of the service is not allocated: it reads [opt.GitRef] without the nil
    check that [ListCommits] and [ListTags] make, and, sending the relative
    path itself, it does not depend on the base URL of the client. *)
Theorem ListPaths_panics_iff_nil (s : RepositoriesService) (x : Context)
  (repoPath : string) (opt : option ListPathsOptions.t) (σ : Store) :
  ListPaths roundTrip s x repoPath opt σ = None
  <-> opt = None \/ σ !! svc_client s = None.
Proof.
  unfold ListPaths, bind, deref.
  destruct (σ !! svc_client s) as [cl|] eqn:Hc.
  - destruct opt as [o|]; cbn [lift_option ret panic].
    + split; [discriminate | intros [H | H]; discriminate H].
    + split; [intros _; left; reflexivity | reflexivity].
  - split; [intros _; right; reflexivity | reflexivity].
Qed.

(** X4. On an allocated client [ListCommits] and [ListTags] return for every
    options pointer, nil included, leave the heap as it was and return a
    [*Response] that is never nil, also when the round trip fails; the
    request they send has the relative path of the resource as its URL,
    whatever the base URL of the client, and no query parameter when the
    options are nil. *)
Theorem ListCommits_response_never_nil (s : RepositoriesService) (cl : Client)
  (x : Context) (repoPath : string) (copt : option ListCommitsOptions.t)
  (topt : option ListTagsOptions.t) (σ : Store) :
  σ !! svc_client s = Some cl ->
  response_never_nil (ListCommits roundTrip s x repoPath copt)
    (roundTrip (client cl) (ListCommits_request x repoPath copt)) σ
  /\ response_never_nil (ListTags roundTrip s x repoPath topt)
       (roundTrip (client cl) (ListTags_request x repoPath topt)) σ
  /\ RawURL (ListCommits_request x repoPath copt)
     = "repos/" +:+ repoPath +:+ "/commits"
  /\ RawURL (ListTags_request x repoPath topt) = "repos/" +:+ repoPath +:+ "/tags"
  /\ QueryParams (ListCommits_request x repoPath None) = ∅
  /\ QueryParams (ListTags_request x repoPath None) = ∅.
Proof.
  intros Hc.
  split; [|split; [|repeat split]].
  - unfold response_never_nil, ListCommits, bind, deref. rewrite Hc.
    cbn [ret].
    destruct (paginated_never_nil
                (roundTrip (client cl) (ListCommits_request x repoPath copt)))
      as (resp & Hfst & Hresp).
    destruct (paginated _) as [r e]. cbn [fst] in Hfst. subst r.
    exists resp, e. split; [reflexivity | exact Hresp].
  - unfold response_never_nil, ListTags, bind, deref. rewrite Hc.
    cbn [ret].
    destruct (paginated_never_nil
                (roundTrip (client cl) (ListTags_request x repoPath topt)))
      as (resp & Hfst & Hresp).
    destruct (paginated _) as [r e]. cbn [fst] in Hfst. subst r.
    exists resp, e. split; [reflexivity | exact Hresp].
Qed.

End DirectRequestProperties.

Lemma ListCommits_response_never_nil_witness :
  response_never_nil
    (ListCommits (fun _ _ => Failed None (other_error "timeout"))
       {| svc_client := test_client |} 0%nat "ci/demo" None)
    (Failed None (other_error "timeout")) test_store.
Proof.
  exact (proj1 (ListCommits_response_never_nil
                  (fun _ _ => Failed None (other_error "timeout"))
                  {| svc_client := test_client |} test_Client 0%nat "ci/demo"
                  None None test_store test_store_lookup)).
Defined.

(** ** Query parameters of the hand-built requests *)

Lemma SetSuccessResult_params (result : any) (r : req_Request) :
  QueryParams (SetSuccessResult result r) = QueryParams r.
Proof. destruct result; reflexivity. Qed.

(** X5. [ListTags] applies the embedded [ListOptions] first and its own
    [Query], [Sort] and [Order] after them: each of the parameters query,
    sort and order carries the outer field when that is non-nil and the
    field of the embedded [ListOptions] otherwise, and is absent when both
    are nil; page and limit come from the embedded options alone. *)
Theorem ListTags_outer_fields_win (x : Context) (repoPath : string)
  (opt : ListTagsOptions.t) :
  let params := QueryParams (ListTags_request x repoPath (Some opt)) in
  let inner := ListTagsOptions.ListOptions opt in
  params !! "query"
  = (fun v => [v]) <$>
      (match ListTagsOptions.Query opt with
       | Some v => Some v
       | None => ListOptions.Query inner
       end)
  /\ params !! "sort"
     = (fun v => [v]) <$>
         (match ListTagsOptions.Sort opt with
          | Some v => Some v
          | None => ListOptions.Sort inner
          end)
  /\ params !! "order"
     = (fun v => [v]) <$>
         (match ListTagsOptions.Order opt with
          | Some v => Some v
          | None => ListOptions.Order inner
          end)
  /\ params !! "page" = (fun v => [format_int v]) <$> ListOptions.Page inner
  /\ params !! "limit" = (fun v => [format_int v]) <$> ListOptions.Limit inner.
Proof.
  cbn zeta. unfold ListTags_request. cbn [with_target QueryParams].
  rewrite SetSuccessResult_params.
  destruct opt as [inner [q|] [s|] [o|] [ic|]];
    cbn [ListTagsOptions.ListOptions ListTagsOptions.Query ListTagsOptions.Sort
         ListTagsOptions.Order ListTagsOptions.IncludeCommit SetQueryParam
         QueryParams];
    repeat split;
    simplify_map_eq;
    rewrite ?buildQueryParams_lookup;
    unfold expected_param; cbn [String.eqb Ascii.eqb Bool.eqb];
    repeat match goal with
           | |- context [ListOptions.Query inner] =>
               destruct (ListOptions.Query inner)
           | |- context [ListOptions.Sort inner] =>
               destruct (ListOptions.Sort inner)
           | |- context [ListOptions.Order inner] =>
               destruct (ListOptions.Order inner)
           | |- context [ListOptions.Page inner] =>
               destruct (ListOptions.Page inner)
           | |- context [ListOptions.Limit inner] =>
               destruct (ListOptions.Limit inner)
           end;
    reflexivity.
Qed.

(** X6. The since and until parameters of [ListCommits] are the times in
    the layout RFC 3339: for every non-nil [Since] and [Until] that the
    layout can write, the request has exactly one value under since and one
    under until, and [time.Parse] reads each back as the time cut down to
    the whole second. *)
Theorem ListCommits_since_until_parse_back (x : Context) (repoPath : string)
  (opt : ListCommitsOptions.t) (since until : Time) :
  ListCommitsOptions.Since opt = Some since ->
  ListCommitsOptions.Until opt = Some until ->
  formattable since -> formattable until ->
  exists vs vu,
    QueryParams (ListCommits_request x repoPath (Some opt)) !! "since" = Some [vs]
    /\ QueryParams (ListCommits_request x repoPath (Some opt)) !! "until" = Some [vu]
    /\ parseRFC3339 vs = Some (whole_second since)
    /\ parseRFC3339 vu = Some (whole_second until).
Proof.
  intros Hs Hu Hfs Hfu.
  exists (Time_String since), (Time_String until).
  split; [|split; [|split]].
  - unfold ListCommits_request. cbn [with_target QueryParams].
    rewrite SetSuccessResult_params, Hs, Hu.
    destruct (ListCommitsOptions.Path opt);
      cbn [SetQueryParam QueryParams]; simplify_map_eq; reflexivity.
  - unfold ListCommits_request. cbn [with_target QueryParams].
    rewrite SetSuccessResult_params, Hs, Hu.
    destruct (ListCommitsOptions.Path opt);
      cbn [SetQueryParam QueryParams]; simplify_map_eq; reflexivity.
  - apply parseRFC3339_Format_whole, Hfs.
  - apply parseRFC3339_Format_whole, Hfu.
Qed.

Lemma ListCommits_since_until_parse_back_witness :
  exists vs vu,
    QueryParams
      (ListCommits_request 0%nat "demo"
         (Some {| ListCommitsOptions.ListOptions :=
                    {| ListOptions.Page := None; ListOptions.Limit := None;
                       ListOptions.Sort := None; ListOptions.Order := None;
                       ListOptions.Query := None |};
                  ListCommitsOptions.GitRef := None;
                  ListCommitsOptions.After := None;
                  ListCommitsOptions.Since := Some leap_day;
                  ListCommitsOptions.Until := Some leap_day;
                  ListCommitsOptions.Path := None |})) !! "since" = Some [vs]
    /\ parseRFC3339 vs = Some leap_day
    /\ parseRFC3339 vu = Some leap_day.
Proof.
  destruct (ListCommits_since_until_parse_back 0%nat "demo"
              {| ListCommitsOptions.ListOptions :=
                   {| ListOptions.Page := None; ListOptions.Limit := None;
                      ListOptions.Sort := None; ListOptions.Order := None;
                      ListOptions.Query := None |};
                 ListCommitsOptions.GitRef := None;
                 ListCommitsOptions.After := None;
                 ListCommitsOptions.Since := Some leap_day;
                 ListCommitsOptions.Until := Some leap_day;
                 ListCommitsOptions.Path := None |}
              leap_day leap_day eq_refl eq_refl
              (proj2 leap_day_representable) (proj2 leap_day_representable))
    as (vs & vu & H1 & _ & H3 & H4).
  exists vs, vu. split; [exact H1|]. split; [exact H3 | exact H4].
Defined.

(** ** Pagination: what is sent and what is read back *)

Lemma parse_header_int_invalid (h : gmap string (list string)) key v rest :
  h !! CanonicalMIMEHeaderKey key = Some (v :: rest) -> Atoi v = None ->
  parse_header_int h key None = None.
Proof.
  intros Hh Hv. unfold parse_header_int, Header_Get. rewrite Hh, Hv.
  destruct (string_nonempty v); reflexivity.
Qed.

Lemma parse_header_int_no_value (h : gmap string (list string)) key :
  h !! CanonicalMIMEHeaderKey key = Some [] ->
  parse_header_int h key None = None.
Proof.
  intros Hh. unfold parse_header_int, Header_Get. rewrite Hh. reflexivity.
Qed.

Lemma parse_header_int_nil_on_non_integer resp key :
  nil_on_non_integer resp (CanonicalMIMEHeaderKey key)
    (parse_header_int (Header resp) key None).
Proof.
  split.
  - intros v rest Hh Hv. exact (parse_header_int_invalid _ _ _ _ Hh Hv).
  - intros Hh. exact (parse_header_int_no_value _ _ Hh).
Qed.

(** X7. The page and the limit that [buildQueryParams] writes into the
    query come back unchanged through [parsePaginationHeaders]: when the
    reply carries under X-Page and X-Per-Page the very values sent as page
    and limit, the fields [Page] and [PerPage] of the response hold the
    numbers of the options, for every value of [int], negative ones
    included. *)
Theorem pagination_roundtrip (opt : ListOptions.t) (resp : req_Response)
  (page limit : Z) :
  ListOptions.Page opt = Some page -> ListOptions.Limit opt = Some limit ->
  minInt <= page <= maxInt -> minInt <= limit <= maxInt ->
  Header resp !! "X-Page" = QueryParams (buildQueryParams R (Some opt)) !! "page" ->
  Header resp !! "X-Per-Page"
  = QueryParams (buildQueryParams R (Some opt)) !! "limit" ->
  let r := parsePaginationHeaders (Response.of_resp (Some resp)) in
  Response.Page r = Some page /\ Response.PerPage r = Some limit.
Proof.
  intros Hp Hl Hpr Hlr Hxp Hxl.
  rewrite buildQueryParams_lookup in Hxp, Hxl.
  unfold expected_param in Hxp, Hxl.
  cbn [String.eqb Ascii.eqb Bool.eqb] in Hxp, Hxl.
  rewrite Hp in Hxp. rewrite Hl in Hxl.
  cbn [fmap option_fmap option_map] in Hxp, Hxl.
  cbn zeta. unfold parsePaginationHeaders.
  cbn [Response.of_resp Response.Response Response.Page Response.PerPage].
  split.
  - eapply parse_header_int_present; [exact Hxp|].
    apply Atoi_format_int, Hpr.
  - eapply parse_header_int_present; [exact Hxl|].
    apply Atoi_format_int, Hlr.
Qed.

Lemma pagination_roundtrip_witness :
  let opt := {| ListOptions.Page := Some 2; ListOptions.Limit := Some (-5);
                ListOptions.Sort := None; ListOptions.Order := None;
                ListOptions.Query := None |} in
  let resp := {| StatusCode := 200;
                 Header := Header_Set "x-per-page" "-5" (Header_Set "x-page" "2" ∅);
                 Bytes := "[]" |} in
  let r := parsePaginationHeaders (Response.of_resp (Some resp)) in
  Response.Page r = Some 2 /\ Response.PerPage r = Some (-5).
Proof.
  intros opt resp.
  apply (pagination_roundtrip opt resp 2 (-5)); try reflexivity;
    unfold minInt, maxInt; lia.
Defined.

(** X8. A pagination header that is present but is not an integer of type
    [int] in decimal (text, a fraction, surrounding blanks, a number out of
    range, the empty string) is passed over in silence:
    [parsePaginationHeaders] leaves the field nil, as it does for an absent
    header, and reports nothing. *)
Theorem parsePaginationHeaders_skips_non_integers (resp : req_Response) :
  let r := parsePaginationHeaders (Response.of_resp (Some resp)) in
  nil_on_non_integer resp "X-Page" (Response.Page r)
  /\ nil_on_non_integer resp "X-Per-Page" (Response.PerPage r)
  /\ nil_on_non_integer resp "X-Next-Page" (Response.NextPage r)
  /\ nil_on_non_integer resp "X-Total" (Response.Total r)
  /\ nil_on_non_integer resp "X-Total-Pages" (Response.TotalPages r).
Proof.
  cbn zeta. unfold parsePaginationHeaders.
  cbn [Response.of_resp Response.Response Response.Page Response.PerPage
       Response.NextPage Response.Total Response.TotalPages].
  refine (conj _ (conj _ (conj _ (conj _ _)))).
  - exact (parse_header_int_nil_on_non_integer resp "x-page").
  - exact (parse_header_int_nil_on_non_integer resp "x-per-page").
  - exact (parse_header_int_nil_on_non_integer resp "x-next-page").
  - exact (parse_header_int_nil_on_non_integer resp "x-total").
  - exact (parse_header_int_nil_on_non_integer resp "x-total-pages").
Qed.

Lemma parsePaginationHeaders_skips_non_integers_witness :
  let resp :=
    {| StatusCode := 200;
       Header :=
         Header_Set "x-total-pages" ""
           (Header_Set "x-total" "9223372036854775808"
              (Header_Set "x-next-page" " 3"
                 (Header_Set "x-per-page" "1.5" (Header_Set "x-page" "two" ∅))));
       Bytes := "[]" |} in
  let r := parsePaginationHeaders (Response.of_resp (Some resp)) in
  Response.Page r = None /\ Response.PerPage r = None
  /\ Response.NextPage r = None /\ Response.Total r = None
  /\ Response.TotalPages r = None.
Proof.
  intros resp r.
  destruct (parsePaginationHeaders_skips_non_integers resp)
    as ([P1 _] & [P2 _] & [P3 _] & [P4 _] & [P5 _]).
  refine (conj _ (conj _ (conj _ (conj _ _)))).
  - exact (P1 "two" [] eq_refl eq_refl).
  - exact (P2 "1.5" [] eq_refl eq_refl).
  - exact (P3 " 3" [] eq_refl eq_refl).
  - exact (P4 "9223372036854775808" [] eq_refl eq_refl).
  - exact (P5 "" [] eq_refl eq_refl).
Defined.

(** ** The response next to the error *)

Section ResponseReturned.

Variable roundTrip : req_Client -> req_Request -> outcome.

Lemma checked_nil_iff (o : outcome) :
  (fst (checked o) = None <-> request_failed o)
  /\ (forall reply, o = Done reply ->
      Response.Response <$> fst (checked o) = Some (Some reply)).
Proof.
  destruct o as [reply | reply err]; cbn [checked request_failed].
  - destruct (checkResponse reply); cbn [fst]; split;
      try (split; [discriminate | intros []]);
      intros reply' [= <-]; reflexivity.
  - cbn [fst]. split; [split; [intros _; exact I | reflexivity]|].
    intros reply' H. discriminate H.
Qed.

Lemma body_helper_nil_iff method (c : loc) (cl : Client) (σ : Store) x path
  body result req :
  σ !! c = Some cl -> body_request method cl x path body result = Some req ->
  nil_response_iff_failed
    (let* cl := deref c in
     let* req := lift_option (body_request method cl x path body result) in
     ret (checked (roundTrip (client cl) req)))%M
    (roundTrip (client cl) req) σ.
Proof.
  intros Hc Hreq. unfold nil_response_iff_failed, bind, deref.
  rewrite Hc, Hreq. cbn [lift_option ret].
  destruct (checked_nil_iff (roundTrip (client cl) req)) as [Hnil Hrep].
  destruct (checked (roundTrip (client cl) req)) as [resp err].
  exists resp, err. split; [reflexivity|]. split; [exact Hnil | exact Hrep].
Qed.

(** X9. What a caller may dereference: on an allocated client whose base
    URL parses, [Get], [Post], [Put], [Patch], [Delete] and
    [DeleteWithResponse] return a nil [*Response] exactly when the round
    trip itself failed, and for a reply of any status, error statuses
    included, a response that wraps that reply; [performListRequest] never
    returns a nil [*Response], not even for a failed round trip, when it
    wraps what req handed back with the error. *)
Theorem helpers_nil_response_iff_transport_failure (c : loc) (cl : Client)
  (σ : Store) (x : Context) (path : string) (opt : option ListOptions.t)
  (body result : any) :
  σ !! c = Some cl ->
  (forall req, Get_request cl x path result = Some req ->
     nil_response_iff_failed (Get roundTrip c x path result)
       (roundTrip (client cl) req) σ)
  /\ (forall req, body_request "POST" cl x path body result = Some req ->
        nil_response_iff_failed (Post roundTrip c x path body result)
          (roundTrip (client cl) req) σ)
  /\ (forall req, body_request "PUT" cl x path body result = Some req ->
        nil_response_iff_failed (Put roundTrip c x path body result)
          (roundTrip (client cl) req) σ)
  /\ (forall req, body_request "PATCH" cl x path body result = Some req ->
        nil_response_iff_failed (Patch roundTrip c x path body result)
          (roundTrip (client cl) req) σ)
  /\ (forall req, body_request "DELETE" cl x path body None = Some req ->
        nil_response_iff_failed (Delete roundTrip c x path body)
          (roundTrip (client cl) req) σ)
  /\ (forall req, body_request "DELETE" cl x path body result = Some req ->
        nil_response_iff_failed (DeleteWithResponse roundTrip c x path body result)
          (roundTrip (client cl) req) σ)
  /\ (forall req, performListRequest_request cl x path opt result = Some req ->
        response_never_nil (performListRequest roundTrip c x path opt result)
          (roundTrip (client cl) req) σ).
Proof.
  intros Hc.
  split; [|split; [|split; [|split; [|split; [|split]]]]];
    intros req Hreq;
    try (eapply body_helper_nil_iff; eassumption).
  - unfold nil_response_iff_failed, Get, bind, deref.
    rewrite Hc, Hreq. cbn [lift_option ret].
    destruct (roundTrip (client cl) req) as [reply | reply err];
      [destruct (checkResponse reply)|];
      eexists _, _; (split; [reflexivity|]); cbn [request_failed];
      (split; [split; [try discriminate; intros _; exact I
                      | try reflexivity; intros []]|]);
      intros reply' [= <-]; reflexivity.
  - unfold response_never_nil, performListRequest, bind, deref.
    rewrite Hc, Hreq. cbn [lift_option ret].
    destruct (roundTrip (client cl) req) as [reply | reply err];
      [destruct (checkResponse reply)|];
      eexists _, _; split; reflexivity.
Qed.

End ResponseReturned.

Lemma helpers_nil_response_iff_transport_failure_witness :
  nil_response_iff_failed
    (Get (fun _ _ => Done bad_request) test_client 0%nat "test" None)
    (Done bad_request) test_store
  /\ response_never_nil
       (performListRequest (fun _ _ => Failed None (other_error "timeout"))
          test_client 0%nat "users" None (Some "users"))
       (Failed None (other_error "timeout")) test_store.
Proof.
  split.
  - exact (proj1 (helpers_nil_response_iff_transport_failure
                    (fun _ _ => Done bad_request) test_client test_Client
                    test_store 0%nat "test" None None None test_store_lookup)
             _ eq_refl).
  - exact (proj2 (proj2 (proj2 (proj2 (proj2 (proj2
             (helpers_nil_response_iff_transport_failure
                (fun _ _ => Failed None (other_error "timeout")) test_client
                test_Client test_store 0%nat "users" None None (Some "users")
                test_store_lookup)))))) _ eq_refl).
Defined.

(** ** Options of NewClient *)

Lemma apply_options_app (pre rest : list ClientOptionFunc) (cl : Client) :
  apply_options (pre ++ rest) cl =
    match apply_options pre cl with
    | (c1, None) => apply_options rest c1
    | (c1, Some err) => (c1, Some err)
    end.
Proof.
  revert cl. induction pre as [|o pre IH]; intros cl.
  - reflexivity.
  - cbn [app apply_options]. destruct (o cl) as [cl' [err|]]; [reflexivity|].
    apply IH.
Qed.

(** X10. [NewClient] stops at the first option that returns an error: when
    the options before it succeed, it returns a nil client together with
    the error of that option, and the options after it are never run, so
    the result is the same whatever they are. *)
Theorem NewClient_first_failing_option (token : string)
  (pre post : list ClientOptionFunc) (option : ClientOptionFunc)
  (c1 c2 : Client) (err : error) (σ : Store) :
  apply_options pre (new_Client token) = (c1, None) ->
  option c1 = (c2, Some err) ->
  fst (NewClient token (pre ++ option :: post) σ) = (None, Some err)
  /\ NewClient token (pre ++ option :: post) σ
     = NewClient token (pre ++ [option]) σ.
Proof.
  intros Hpre Hopt. unfold NewClient.
  rewrite !apply_options_app, Hpre. cbn [apply_options]. rewrite Hopt.
  split; reflexivity.
Qed.

Lemma NewClient_first_failing_option_witness :
  fst (NewClient "test-token"
         [WithDebug; WithBaseURL "://missing-scheme"; WithTimeout Second] ∅)
  = (None, Some (other_error "parse")).
Proof.
  exact (proj1 (NewClient_first_failing_option "test-token" [WithDebug]
                  [WithTimeout Second] (WithBaseURL "://missing-scheme")
                  _ _ _ ∅ eq_refl eq_refl)).
Defined.

(** ** Base URLs that url.Parse refuses *)

Lemma cut_app_plain (sep : ascii) (a s : string) :
  contains_char sep a = false ->
  cut sep (a +:+ s) = let '(b, r, f) := cut sep s in (a +:+ b, r, f).
Proof.
  induction a as [|c a IH]; intros Ha.
  - cbn [append]. destruct (cut sep s) as [[b r] f]. reflexivity.
  - cbn [contains_char string_exists] in Ha.
    apply orb_false_iff in Ha as [Hc Ha].
    cbn [append cut]. rewrite Ascii.eqb_sym, Hc.
    rewrite (IH Ha). destruct (cut sep s) as [[b r] f]. reflexivity.
Qed.

Lemma string_exists_app (p : ascii -> bool) (a b : string) :
  string_exists p (a +:+ b) = string_exists p a || string_exists p b.
Proof.
  induction a as [|c a IH]; [reflexivity|].
  cbn [append string_exists]. rewrite IH, orb_assoc. reflexivity.
Qed.

Lemma is_CTL_not_hash (c : ascii) : is_CTL c = true -> Ascii.eqb c "#" = false.
Proof.
  destruct c as [[] [] [] [] [] [] [] []]; vm_compute; congruence.
Qed.

Lemma url_Parse_control_byte (a b : string) (c : ascii) :
  contains_char "#" a = false -> is_CTL c = true ->
  url_Parse (a +:+ String c b) = None.
Proof.
  intros Ha Hc. unfold url_Parse.
  rewrite (cut_app_plain "#" a (String c b) Ha).
  cbn [cut]. rewrite (is_CTL_not_hash c Hc).
  destruct (cut "#" b) as [[b1 r] f].
  unfold parse, stringContainsCTLByte.
  rewrite string_exists_app. cbn [string_exists].
  fold (is_CTL c). rewrite Hc, orb_true_r. reflexivity.
Qed.

(** X11. [WithBaseURL] refuses a base URL with an ASCII control byte (a
    newline, a tab, DEL) before any fragment mark: the option returns an
    error and leaves the client as it was, and [NewClient] returns a nil
    client with that error. *)
Theorem WithBaseURL_rejects_control_byte (a b : string) (c : ascii)
  (cl : Client) (token : string) (σ : Store) :
  contains_char "#" a = false -> is_CTL c = true ->
  exists err,
    WithBaseURL (a +:+ String c b) cl = (cl, Some err)
    /\ fst (NewClient token [WithBaseURL (a +:+ String c b)] σ)
       = (None, Some err).
Proof.
  intros Ha Hc. exists (other_error "parse").
  unfold NewClient. cbn [apply_options]. unfold WithBaseURL.
  rewrite (url_Parse_control_byte a b c Ha Hc). split; reflexivity.
Qed.

Lemma WithBaseURL_rejects_control_byte_witness :
  exists err,
    fst (NewClient "test-token"
           [WithBaseURL ("https://gitness.com/" +:+ String (chr 10) "")] ∅)
    = (None, Some err).
Proof.
  destruct (WithBaseURL_rejects_control_byte "https://gitness.com/" ""
              (chr 10) (new_Client "test-token") "test-token" ∅
              eq_refl eq_refl) as (err & _ & H).
  exists err. exact H.
Defined.

(** ** What the options of the package leave alone *)

Lemma package_option_keeps (option : ClientOptionFunc) (cl : Client) :
  package_option option ->
  Headers (client (fst (option cl))) = Headers (client cl)
  /\ token (fst (option cl)) = token cl.
Proof.
  intros [u | | d | | n].
  - unfold WithBaseURL. destruct (url_Parse u); split; reflexivity.
  - split; reflexivity.
  - split; reflexivity.
  - split; reflexivity.
  - unfold WithRetry. destruct (0 <? n); split; reflexivity.
Qed.

Lemma apply_options_keeps (options : list ClientOptionFunc) (cl : Client) :
  Forall package_option options ->
  Headers (client (fst (apply_options options cl))) = Headers (client cl)
  /\ token (fst (apply_options options cl)) = token cl.
Proof.
  intros Hall. revert cl.
  induction Hall as [|o options Ho Hall IH]; intros cl.
  - split; reflexivity.
  - cbn [apply_options].
    destruct (package_option_keeps o cl Ho) as [Hh Ht].
    destruct (o cl) as [cl' [err|]]; cbn [fst] in *.
    + split; assumption.
    + destruct (IH cl') as [Hh' Ht']. rewrite Hh', Ht'. split; assumption.
Qed.

Lemma new_reqClient_headers (token : string) :
  Header_Get (Headers (new_reqClient token)) "Authorization" = "Bearer " +:+ token
  /\ Header_Get (Headers (new_reqClient token)) "User-Agent" = userAgent
  /\ Header_Get (Headers (new_reqClient token)) "Content-Type" = "application/json".
Proof.
  unfold new_reqClient, SetCommonContentType, SetCommonBearerAuthToken,
    SetUserAgent, SetCommonHeader, SetTimeout, Header_Get, Header_Set.
  cbn [Headers req_C].
  change (CanonicalMIMEHeaderKey "Authorization") with "Authorization".
  change (CanonicalMIMEHeaderKey "User-Agent") with "User-Agent".
  change (CanonicalMIMEHeaderKey "Content-Type") with "Content-Type".
  repeat split; simplify_map_eq; reflexivity.
Qed.

(** X12. Whatever options of this package are given ([WithBaseURL],
    [WithHTTPClient], [WithTimeout], [WithDebug], [WithRetry], in any number
    and order), the client that [NewClient] returns keeps the token, sends
    the headers Authorization: Bearer followed by the token, User-Agent:
    go-gitness and Content-Type: application/json, and has as base URL of
    its req client its own base URL followed by api/v1. *)
Theorem NewClient_headers_survive_options (tok : string)
  (options : list ClientOptionFunc) (σ : Store) (c : loc) :
  Forall package_option options ->
  fst (fst (NewClient tok options σ)) = Some c ->
  exists cl,
    snd (NewClient tok options σ) !! c = Some cl
    /\ token cl = tok
    /\ Header_Get (Headers (client cl)) "Authorization" = "Bearer " +:+ tok
    /\ Header_Get (Headers (client cl)) "User-Agent" = "go-gitness"
    /\ Header_Get (Headers (client cl)) "Content-Type" = "application/json"
    /\ BaseURL (client cl) = baseURL cl +:+ "api/v1".
Proof.
  intros Hall Hc. unfold NewClient in *.
  destruct (apply_options_keeps options (new_Client tok) Hall) as [Hh Ht].
  destruct (apply_options options (new_Client tok)) as [c1 [err|]];
    cbn [fst snd] in *; [discriminate Hc|].
  injection Hc as <-.
  eexists. split; [apply lookup_insert_eq|].
  cbn [init_services set_client client token baseURL SetBaseURL Headers BaseURL].
  rewrite Hh.
  destruct (new_reqClient_headers tok) as (H1 & H2 & H3).
  cbn [new_Client client]. 
  repeat split; assumption.
Qed.

Lemma NewClient_headers_survive_options_witness :
  exists cl,
    snd (NewClient "test-token" test_options ∅) !! test_client = Some cl
    /\ Header_Get (Headers (client cl)) "Authorization" = "Bearer test-token"
    /\ BaseURL (client cl) = baseURL cl +:+ "api/v1".
Proof.
  destruct (NewClient_headers_survive_options "test-token" test_options ∅
              test_client
              ltac:(repeat constructor) eq_refl)
    as (cl & Hl & _ & Ha & _ & _ & Hb).
  exists cl. split; [exact Hl|]. split; [exact Ha | exact Hb].
Defined.

(** ** The URL of GetUser *)

Lemma buildFullURL_plain (cl : Client) (u : URL) (p : string) :
  url_Parse (baseURL cl +:+ apiVersionPath +:+ "/") = Some u ->
  plain_base u = true ->
  has_prefix "/" p = false -> no_dot_segments p = true ->
  buildFullURL cl p = Some (URL_String u +:+ EscapedPath (path_ref p)).
Proof.
  intros Hparse Hplain Hrel Hnd.
  unfold buildFullURL. rewrite Hparse. cbn [mbind option_bind]. f_equal.
  destruct (ResolveReference_plain u p Hplain Hrel Hnd)
    as (E1 & E2 & E3 & E4 & E5 & E6 & E7 & E8 & E9 & E10).
  cbn zeta in *.
  unfold plain_base in Hplain.
  apply andb_true_iff in Hplain as [Hplain Hbnd].
  apply andb_true_iff in Hplain as [Hplain Hlast].
  apply andb_true_iff in Hplain as [Hplain Hbroot].
  apply andb_true_iff in Hplain as [Hplain Homit].
  apply andb_true_iff in Hplain as [Hplain Hfrag].
  apply andb_true_iff in Hplain as [Hplain Hfq].
  apply andb_true_iff in Hplain as [Hopq Hrq].
  apply negb_true_iff in Hopq, Hrq, Hfq, Hfrag, Homit.
  rewrite URL_String_plain; try assumption;
    try (rewrite ?E4, ?E9, ?E10; reflexivity).
  - rewrite (URL_String_plain u); try assumption.
    + rewrite E1, append_assoc. f_equal.
      apply authority_text_ext; congruence.
    + exact (unescape_rooted _ _ _ Hbroot (EscapedPath_unescape u)).
  - rewrite E1. apply has_prefix_app. exact Hbroot.
Qed.

Lemma PathEscape_not_dot (s : string) :
  s <> "." -> s <> ".." -> not_dot (PathEscape s) = true.
Proof.
  intros H1 H2. pose proof (PathEscape_unescape s) as Hun.
  unfold not_dot, is_dot, is_dotdot.
  destruct (String.eqb_spec (PathEscape s) ".") as [E | _].
  - rewrite E in Hun. vm_compute in Hun. congruence.
  - destruct (String.eqb_spec (PathEscape s) "..") as [E | _]; [|reflexivity].
    rewrite E in Hun. vm_compute in Hun. congruence.
Qed.

Lemma GetUser_path_no_dots (userUID : string) :
  userUID <> "." -> userUID <> ".." ->
  no_dot_segments (GetUser_path userUID) = true.
Proof.
  intros H1 H2. unfold no_dot_segments, GetUser_path.
  change ("users/" +:+ PathEscape userUID)
    with ("users" +:+ String "/" (PathEscape userUID)).
  rewrite split_app_sep, (split_plain "/" (PathEscape userUID))
    by apply PathEscape_no_slash.
  change (split "/" "users") with ["users"].
  cbn [app forallb].
  rewrite (PathEscape_not_dot userUID H1 H2). reflexivity.
Qed.

(** X13. [GetUser] escapes the identifier twice: [url.PathEscape] escapes it
    once and [buildFullURL], which takes its argument for an unescaped
    path, escapes the percent signs again.  For a base URL of the usual
    shape and every identifier other than "." and "..", the URL requested
    is the base followed by users/ and the doubly escaped identifier; one
    unescaping, which is what the server does, gives the escaped
    identifier, and that is not the identifier when it has a slash. *)
Theorem GetUser_escapes_identifier_twice (cl : Client) (u : URL)
  (userUID : string) :
  url_Parse (baseURL cl +:+ apiVersionPath +:+ "/") = Some u ->
  plain_base u = true ->
  userUID <> "." -> userUID <> ".." ->
  buildFullURL cl (GetUser_path userUID)
  = Some (URL_String u +:+ "users/"
          +:+ escape (PathEscape userUID) encodePath)
  /\ unescape (escape (PathEscape userUID) encodePath) encodePath
     = Some (PathEscape userUID)
  /\ (contains_char "/" userUID = true -> PathEscape userUID <> userUID).
Proof.
  intros Hparse Hplain H1 H2.
  split; [|split].
  - rewrite (buildFullURL_plain cl u (GetUser_path userUID) Hparse Hplain
               eq_refl (GetUser_path_no_dots userUID H1 H2)).
    rewrite path_ref_EscapedPath.
    unfold GetUser_path.
    change (String.eqb ("users/" +:+ PathEscape userUID) "*") with false.
    cbv beta iota.
    rewrite escape_app. reflexivity.
  - apply unescape_escape.
  - intros Hs E. pose proof (PathEscape_no_slash userUID) as Hn.
    rewrite E in Hn. congruence.
Qed.

Lemma GetUser_escapes_identifier_twice_witness :
  buildFullURL test_Client (GetUser_path "ci/demo")
  = Some "https://gitness.com/api/v1/users/ci%252Fdemo"
  /\ unescape "ci%252Fdemo" encodePath = Some "ci%2Fdemo".
Proof.
  destruct (GetUser_escapes_identifier_twice test_Client _ "ci/demo"
              test_Client_base eq_refl ltac:(discriminate) ltac:(discriminate))
    as (Hurl & Hun & _).
  split; [exact Hurl | exact Hun].
Defined.

(** ** A base URL with a port and no slash at its end *)

Lemma cut_plain (sep : ascii) (s : string) :
  contains_char sep s = false -> cut sep s = (s, "", false).
Proof.
  intros H. pose proof (cut_app_plain sep s "" H) as E.
  cbn [cut] in E. rewrite !append_nil_r in E. exact E.
Qed.

Lemma string_forall_not_contains (p : ascii -> bool) (c : ascii) (s : string) :
  string_forall p s = true -> p c = false -> contains_char c s = false.
Proof.
  intros Hs Hc. unfold contains_char.
  induction s as [|x s IH]; [reflexivity|].
  cbn [string_forall] in Hs. apply andb_true_iff in Hs as [Hx Hs].
  cbn [string_exists]. rewrite (IH Hs), orb_false_r.
  destruct (Ascii.eqb_spec c x) as [-> | _]; [congruence | reflexivity].
Qed.

Lemma string_forall_not_exists (p q : ascii -> bool) (s : string) :
  (forall c, p c = true -> q c = false) ->
  string_forall p s = true -> string_exists q s = false.
Proof.
  intros Hpq. induction s as [|x s IH]; [reflexivity|].
  cbn [string_forall string_exists]. intros H.
  apply andb_true_iff in H as [Hx Hs].
  rewrite (Hpq x Hx), (IH Hs). reflexivity.
Qed.

Lemma from_last_app (sep : ascii) (a b : string) :
  contains_char sep b = false ->
  from_last sep (a +:+ String sep b) = Some (String sep b).
Proof.
  intros Hb.
  assert (from_last sep b = None) as Hnone.
  { clear a. induction b as [|x b IH]; [reflexivity|].
    cbn [contains_char string_exists] in Hb.
    apply orb_false_iff in Hb as [Hx Hb].
    cbn [from_last]. rewrite (IH Hb), Ascii.eqb_sym, Hx. reflexivity. }
  induction a as [|x a IH].
  - cbn [append from_last]. rewrite Hnone, Ascii.eqb_refl. reflexivity.
  - cbn [append from_last]. rewrite IH. reflexivity.
Qed.

Lemma before_last_none (sep : ascii) (s : string) :
  contains_char sep s = false -> before_last sep s = None.
Proof.
  induction s as [|x s IH]; [reflexivity|].
  cbn [contains_char string_exists]. intros H.
  apply orb_false_iff in H as [Hx Hs].
  cbn [before_last]. rewrite (IH Hs), Ascii.eqb_sym, Hx. reflexivity.
Qed.

Lemma host_byte_marks (c : ascii) :
  host_byte c = true ->
  is_CTL c = false /\ Ascii.eqb c "#" = false /\ Ascii.eqb c "?" = false
  /\ Ascii.eqb c "/" = false /\ Ascii.eqb c ":" = false
  /\ Ascii.eqb c "@" = false /\ Ascii.eqb c "[" = false
  /\ Ascii.eqb c "%" = false /\ shouldEscape c encodeHost = false.
Proof.
  destruct c as [[] [] [] [] [] [] [] []]; intros H; vm_compute in H;
    try discriminate H; repeat split; reflexivity.
Qed.

Lemma digit_host_byte (c : ascii) : is_digit c = true -> host_byte c = true.
Proof.
  destruct c as [[] [] [] [] [] [] [] []]; intros H; vm_compute in H;
    try discriminate H; reflexivity.
Qed.

Lemma host_bytes_no (c : ascii) (s : string) :
  string_forall host_byte s = true -> host_byte c = false ->
  contains_char c s = false.
Proof. intros Hs Hc. exact (string_forall_not_contains host_byte c s Hs Hc). Qed.

Lemma host_bytes_no_CTL (s : string) :
  string_forall host_byte s = true ->
  string_exists (fun c => (byte c <? 32) || (byte c =? 127)) s = false.
Proof.
  apply string_forall_not_exists. intros c Hc.
  exact (proj1 (host_byte_marks c Hc)).
Qed.

Lemma parseHost_port_then_text (h p : string) :
  string_forall host_byte h = true -> string_forall is_digit p = true ->
  parseHost (h +:+ String ":" (p +:+ "api")) = None.
Proof.
  intros Hh Hp. unfold parseHost.
  assert (has_prefix "[" (h +:+ String ":" (p +:+ "api")) = false) as ->.
  { destruct h as [|c h]; [reflexivity|].
    cbn [string_forall] in Hh. apply andb_true_iff in Hh as [Hc _].
    cbn [append has_prefix].
    destruct (host_byte_marks c Hc) as (_ & _ & _ & _ & _ & _ & Hb & _).
    rewrite Ascii.eqb_sym, Hb. reflexivity. }
  rewrite from_last_app.
  - cbn [validOptionalPort]. rewrite Ascii.eqb_refl, string_forall_app, Hp.
    reflexivity.
  - rewrite contains_char_app.
    rewrite (host_bytes_no ":" p
               (string_forall_impl _ _ p digit_host_byte Hp) eq_refl).
    reflexivity.
Qed.

Lemma last_char_snoc (a : string) (c : ascii) :
  last_char (a +:+ String c "") = Some c.
Proof.
  induction a as [|x a IH]; [reflexivity|].
  cbn [append last_char]. rewrite IH.
  destruct (a +:+ String c "") eqn:E; [|reflexivity].
  destruct a; discriminate E.
Qed.

Lemma url_Parse_port_without_slash (tls : bool) (h p : string) :
  string_forall host_byte h = true -> string_forall is_digit p = true ->
  url_Parse (((if tls then "https://" else "http://") +:+ h +:+ ":" +:+ p)
             +:+ apiVersionPath +:+ "/") = None.
Proof.
  intros Hh Hp.
  pose proof (string_forall_impl _ _ p digit_host_byte Hp) as Hp'.
  set (auth := h +:+ String ":" (p +:+ "api")).
  set (scheme := if tls then "https" else "http").
  assert (((if tls then "https://" else "http://") +:+ h +:+ ":" +:+ p)
          +:+ apiVersionPath +:+ "/"
          = (scheme +:+ ":") +:+ "//" +:+ auth +:+ "/v1/") as ->.
  { unfold auth, scheme, apiVersionPath. destruct tls; cbn [append];
      rewrite !append_assoc; cbn [append]; rewrite ?append_assoc;
      reflexivity. }
  assert (forall c, host_byte c = false -> Ascii.eqb c ":" = false ->
                    contains_char c "api" = false ->
                    contains_char c auth = false) as Hauth.
  { intros c Hc Hcolon Hapi. unfold auth. rewrite contains_char_app.
    cbn [contains_char string_exists].
    fold (contains_char c (p +:+ "api")). rewrite contains_char_app.
    rewrite (host_bytes_no c h Hh Hc), (host_bytes_no c p Hp' Hc), Hcolon, Hapi.
    reflexivity. }
  set (rest := "//" +:+ auth +:+ "/v1/").
  assert (contains_char "?" rest = false) as Hq.
  { unfold rest. rewrite !contains_char_app, (Hauth "?"%char) by reflexivity.
    reflexivity. }
  assert (contains_char "#" ((scheme +:+ ":") +:+ rest) = false) as Hhash.
  { unfold rest. rewrite (contains_char_app _ (scheme +:+ ":")).
    rewrite !(contains_char_app _ "//"), !(contains_char_app _ auth).
    rewrite (Hauth "#"%char) by reflexivity.
    unfold scheme. destruct tls; reflexivity. }
  assert (stringContainsCTLByte ((scheme +:+ ":") +:+ rest) = false) as HCTL.
  { unfold stringContainsCTLByte, rest, auth.
    rewrite !string_exists_app. cbn [string_exists].
    rewrite !string_exists_app.
    rewrite (host_bytes_no_CTL h Hh), (host_bytes_no_CTL p Hp').
    unfold scheme. destruct tls; reflexivity. }
  assert (getScheme ((scheme +:+ ":") +:+ rest) = Some (scheme, rest)) as Hsch.
  { unfold scheme. destruct tls; reflexivity. }
  assert (String.eqb ((scheme +:+ ":") +:+ rest) "*" = false) as Hstar.
  { unfold scheme. destruct tls; reflexivity. }
  unfold url_Parse. rewrite (cut_plain "#" _ Hhash).
  unfold parse. rewrite HCTL, Hstar, Hsch.
  cbn [mbind option_bind].
  assert (last_char rest = Some "/"%char) as Hlast.
  { unfold rest.
    change ("//" +:+ auth +:+ "/v1/") with ("//" +:+ auth +:+ "/v1" +:+ "/").
    rewrite <- !append_assoc. apply last_char_snoc. }
  rewrite Hlast.
  replace (bool_decide (Some "/"%char = Some "?"%char)) with false
    by (symmetry; apply bool_decide_eq_false; discriminate).
  cbn [andb]. rewrite (cut_plain "?" rest Hq).
  change (has_prefix "/" rest) with true.
  change (has_prefix "//" rest) with true.
  change (drop1 (drop1 rest)) with (auth +:+ "/v1/").
  assert (string_nonempty (ToLower scheme) = true) as ->
    by (unfold scheme; destruct tls; reflexivity).
  cbn [negb andb orb].
  assert (contains_char "/" auth = false) as Hslash
    by (apply Hauth; reflexivity).
  rewrite (cut_app_plain "/" auth "/v1/" Hslash).
  change (cut "/" "/v1/") with ("", "v1/", true).
  cbv beta iota.
  unfold parseAuthority. rewrite !append_nil_r.
  rewrite (before_last_none "@" auth) by (apply Hauth; reflexivity).
  unfold auth. rewrite (parseHost_port_then_text h p Hh Hp).
  reflexivity.
Qed.

Lemma count_char_absent (c : ascii) (s : string) :
  contains_char c s = false -> count_char c s = 0.
Proof.
  induction s as [|x s IH]; [reflexivity|].
  cbn [contains_char string_exists count_char]. intros H.
  apply orb_false_iff in H as [Hx Hs]. rewrite Hx, (IH Hs). reflexivity.
Qed.

Lemma host_or_colon_marks (c : ascii) :
  host_byte c || Ascii.eqb c ":" = true ->
  Ascii.eqb c "%" = false /\ shouldEscape c encodeHost = false
  /\ Ascii.eqb c " " = false.
Proof.
  destruct c as [[] [] [] [] [] [] [] []]; intros H; vm_compute in H;
    try discriminate H; repeat split; reflexivity.
Qed.

Lemma unescape_host_plain (s : string) :
  string_forall (fun c => host_byte c || Ascii.eqb c ":") s = true ->
  unescape s encodeHost = Some s /\ escape s encodeHost = s.
Proof.
  intros Hs.
  assert (unescape_ok s encodeHost = true /\ unescape_bytes s encodeHost = s
          /\ escape s encodeHost = s) as (H1 & H2 & H3).
  { induction s as [|c s IH]; [repeat split; reflexivity|].
    cbn [string_forall] in Hs. apply andb_true_iff in Hs as [Hc Hs].
    destruct (IH Hs) as (I1 & I2 & I3).
    destruct (host_or_colon_marks c Hc) as (Hpc & Hesc & Hsp).
    cbn [unescape_ok unescape_bytes escape]. unfold escape_byte.
    rewrite Hpc, Hesc, Hsp, I1, I2, I3.
    cbn [encoding_eqb andb orb negb]. rewrite !andb_false_r.
    repeat split; reflexivity. }
  unfold unescape. rewrite H1, H2. split; [reflexivity | exact H3].
Qed.

Lemma url_Parse_host_port (tls : bool) (h p : string) :
  string_forall host_byte h = true -> string_forall is_digit p = true ->
  URL_String <$> url_Parse ((if tls then "https://" else "http://")
                           +:+ h +:+ ":" +:+ p)
  = Some ((if tls then "https://" else "http://") +:+ h +:+ ":" +:+ p).
Proof.
  intros Hh Hp.
  pose proof (string_forall_impl _ _ p digit_host_byte Hp) as Hp'.
  set (auth := h +:+ String ":" p).
  set (scheme := if tls then "https" else "http").
  assert ((if tls then "https://" else "http://") +:+ h +:+ ":" +:+ p
          = (scheme +:+ ":") +:+ "//" +:+ auth) as ->.
  { unfold auth, scheme. destruct tls; reflexivity. }
  assert (forall c, host_byte c = false -> Ascii.eqb c ":" = false ->
                    contains_char c auth = false) as Hauth.
  { intros c Hc Hcolon. unfold auth. rewrite contains_char_app.
    cbn [contains_char string_exists]. fold (contains_char c p).
    rewrite (host_bytes_no c h Hh Hc), (host_bytes_no c p Hp' Hc), Hcolon.
    reflexivity. }
  assert (string_forall (fun c => host_byte c || Ascii.eqb c ":") auth = true)
    as Hplain.
  { unfold auth. rewrite string_forall_app. cbn [string_forall].
    rewrite (string_forall_impl host_byte _ h), (string_forall_impl host_byte _ p);
      try assumption; try (intros c Hc; rewrite Hc; reflexivity).
    reflexivity. }
  set (rest := "//" +:+ auth).
  assert (contains_char "?" rest = false) as Hq.
  { unfold rest. rewrite !contains_char_app, (Hauth "?"%char) by reflexivity.
    reflexivity. }
  assert (contains_char "#" ((scheme +:+ ":") +:+ rest) = false) as Hhash.
  { unfold rest. rewrite (contains_char_app _ (scheme +:+ ":")).
    rewrite (contains_char_app _ "//").
    rewrite (Hauth "#"%char) by reflexivity.
    unfold scheme. destruct tls; reflexivity. }
  assert (stringContainsCTLByte ((scheme +:+ ":") +:+ rest) = false) as HCTL.
  { unfold stringContainsCTLByte, rest, auth.
    rewrite !string_exists_app. cbn [string_exists].
    rewrite (host_bytes_no_CTL h Hh), (host_bytes_no_CTL p Hp').
    unfold scheme. destruct tls; reflexivity. }
  assert (getScheme ((scheme +:+ ":") +:+ rest) = Some (scheme, rest)) as Hsch.
  { unfold scheme. destruct tls; reflexivity. }
  assert (String.eqb ((scheme +:+ ":") +:+ rest) "*" = false) as Hstar.
  { unfold scheme. destruct tls; reflexivity. }
  unfold url_Parse. rewrite (cut_plain "#" _ Hhash).
  unfold parse. rewrite HCTL, Hstar, Hsch.
  cbn [mbind option_bind].
  rewrite (count_char_absent "?" rest Hq).
  change (0 =? 1) with false. rewrite andb_false_r.
  rewrite (cut_plain "?" rest Hq).
  change (has_prefix "/" rest) with true.
  change (has_prefix "//" rest) with true.
  change (drop1 (drop1 rest)) with auth.
  assert (ToLower scheme = scheme) as ->
    by (unfold scheme; destruct tls; reflexivity).
  assert (string_nonempty scheme = true) as Hne
    by (unfold scheme; destruct tls; reflexivity).
  rewrite Hne. cbn [negb andb orb].
  rewrite (cut_plain "/" auth) by (apply Hauth; reflexivity).
  cbv beta iota.
  unfold parseAuthority.
  rewrite (before_last_none "@" auth) by (apply Hauth; reflexivity).
  assert (parseHost auth = Some auth) as ->.
  { unfold parseHost.
    assert (has_prefix "[" auth = false) as ->.
    { unfold auth. destruct h as [|c h]; [reflexivity|].
      cbn [string_forall] in Hh. apply andb_true_iff in Hh as [Hc _].
      cbn [append has_prefix].
      destruct (host_byte_marks c Hc) as (_ & _ & _ & _ & _ & _ & Hb & _).
      rewrite Ascii.eqb_sym, Hb. reflexivity. }
    unfold auth at 1. rewrite from_last_app by (apply host_bytes_no; [exact Hp' | reflexivity]).
    cbn [validOptionalPort]. rewrite Ascii.eqb_refl, Hp. cbn [andb].
    exact (proj1 (unescape_host_plain auth Hplain)). }
  cbn [mbind option_bind setPath unescape unescape_ok unescape_bytes escape
       String.eqb string_nonempty fmap option_fmap option_map
       Scheme Opaque User Host Path RawPath OmitHost ForceQuery RawQuery
       Fragment RawFragment].
  f_equal.
  assert (string_nonempty auth = true) as Hane.
  { unfold auth. destruct h; reflexivity. }
  unfold URL_String, has_user.
  cbn [Scheme Opaque User Host Path RawPath OmitHost ForceQuery RawQuery
       Fragment RawFragment string_nonempty].
  change (EscapedPath _) with "".
  rewrite Hne, Hane, (proj2 (unescape_host_plain auth Hplain)).
  cbn [orb andb negb string_nonempty].
  assert (string_nonempty ((scheme +:+ ":") +:+ "//" +:+ "" +:+ auth) = true)
    as -> by (unfold scheme; destruct tls; reflexivity).
  cbn [negb andb]. rewrite !append_nil_r. reflexivity.
Qed.

Section PortWithoutSlash.

Variable roundTrip : req_Client -> req_Request -> outcome.

(** X14. A base URL that ends in a port, with no slash after it, makes a
    client that panics on every call.  For a host of letters, digits, dots
    and dashes and a port of digits, [WithBaseURL] accepts the URL
    http://host:port (or https) as it is and [NewClient] returns a client
    without error; but the client puts api/v1/ right after the port, that
    text does not parse, and so [buildFullURL] panics for every path, and
    with it [Get], [Post], [Put], [Patch], [Delete] and
    [performListRequest]. *)
Theorem base_URL_port_without_slash_panics (tls : bool) (h p tok : string)
  (σ : Store) (x : Context) (path : string) (opt : option ListOptions.t)
  (body result : any) :
  string_forall host_byte h = true -> string_forall is_digit p = true ->
  let base := (if tls then "https://" else "http://") +:+ h +:+ ":" +:+ p in
  exists c cl,
    NewClient tok [WithBaseURL base] σ = ((Some c, None), <[c := cl]> σ)
    /\ baseURL cl = base
    /\ buildFullURL cl path = None
    /\ Get roundTrip c x path result (<[c := cl]> σ) = None
    /\ Post roundTrip c x path body result (<[c := cl]> σ) = None
    /\ Put roundTrip c x path body result (<[c := cl]> σ) = None
    /\ Patch roundTrip c x path body result (<[c := cl]> σ) = None
    /\ Delete roundTrip c x path body (<[c := cl]> σ) = None
    /\ performListRequest roundTrip c x path opt result (<[c := cl]> σ) = None.
Proof.
  intros Hh Hp base.
  pose proof (url_Parse_host_port tls h p Hh Hp) as Hparse.
  pose proof (url_Parse_port_without_slash tls h p Hh Hp) as Hbad.
  fold base in Hparse, Hbad.
  unfold NewClient. cbn [apply_options]. unfold WithBaseURL.
  destruct (url_Parse base) as [u|]; [|discriminate Hparse].
  cbn [fmap option_fmap option_map] in Hparse. injection Hparse as Hu.
  rewrite Hu.
  eexists _, _. split; [reflexivity|].
  split; [reflexivity|].
  assert (forall cl, baseURL cl = base -> buildFullURL cl path = None) as Hfull.
  { intros cl Hb. unfold buildFullURL. rewrite Hb, Hbad. reflexivity. }
  split; [apply Hfull; reflexivity|].
  unfold Get, Post, Put, Patch, Delete, performListRequest, bind, deref,
    Get_request, body_request, performListRequest_request.
  rewrite lookup_insert_eq, Hfull by reflexivity.
  repeat split; reflexivity.
Qed.

End PortWithoutSlash.

Lemma base_URL_port_without_slash_panics_witness :
  exists c cl,
    NewClient "test-token" [WithBaseURL "http://localhost:3000"] ∅
    = ((Some c, None), <[c := cl]> ∅)
    /\ baseURL cl = "http://localhost:3000"
    /\ Get (fun _ _ => Done internal_error) c 0%nat "user" (Some "user")
         (<[c := cl]> ∅) = None.
Proof.
  destruct (base_URL_port_without_slash_panics (fun _ _ => Done internal_error)
              false "localhost" "3000" "test-token" ∅ 0%nat "user" None None
              (Some "user") eq_refl eq_refl)
    as (c & cl & Hnew & Hbase & _ & HGet & _).
  exists c, cl. split; [exact Hnew|]. split; [exact Hbase | exact HGet].
Defined.
